(** * Governance-as-code: access-control engine, combinators, compliance
      checker and JSON rendering of the Go package [governance].

    The Go code is embedded shallowly.  Structs are records (one module per
    struct, so that field names are the source's), enums are inductive types,
    [*PolicyDecision] is [option], Go maps are references into an explicit
    heap of tag maps, and slices whose nil-ness is observable (by
    encoding/json) carry it. *)

From Stdlib Require Import ZArith Lia Sorted.
From stdpp Require Import base option list sorting gmap strings.

(** ** Memory: Go maps are reference values *)

(** A [map[string]string] value is a pointer to a table; copying a struct that
    holds one copies the pointer.  [None] is the nil map. *)
Definition loc := positive.
Abbreviation TagMap := (gmap string string).
Abbreviation Heap := (gmap loc (gmap string string)).

(** Reading through a map value: a nil map reads as empty. *)
Definition tags_of (h : Heap) (m : option loc) : TagMap :=
  match m with
  | None => ∅
  | Some l => default ∅ (h !! l)
  end.

(** ** Slices whose nil-ness matters *)

(** [[]T(nil)] and [[]T{}] both have length 0 and behave alike under [append],
    [len] and [range]; only encoding/json tells them apart. *)
Inductive slice (A : Type) : Type :=
| slice_nil : slice A
| slice_of (l : list A) : slice A.
Arguments slice_nil {A}.
Arguments slice_of {A} l.

Definition elems {A} (s : slice A) : list A :=
  match s with
  | slice_nil => []
  | slice_of l => l
  end.

Definition len {A} (s : slice A) : nat := length (elems s).

Definition append {A} (s : slice A) (x : A) : slice A := slice_of (elems s ++ [x]).

Definition is_nil {A} (s : slice A) : bool :=
  match s with
  | slice_nil => true
  | slice_of _ => false
  end.

(** ** Domain model (types.go) *)

(** [Effect] and [StepOutcome] are integer types with these named constants;
    the package produces and the specification knows no other value. *)
Inductive Effect := EffectAllow | EffectDeny.

Definition Effect_String (e : Effect) : string :=
  match e with
  | EffectAllow => "Allow"
  | EffectDeny => "Deny"
  end.

Inductive StepOutcome := StepAllow | StepDeny | StepAbstain.

Definition StepOutcome_String (o : StepOutcome) : string :=
  match o with
  | StepAllow => "Allow"
  | StepDeny => "Deny"
  | StepAbstain => "Abstain"
  end.

Module Principal.
Record t := { ID : string; Role : string; Department : string }.
End Principal.

Module Resource.
Record t := {
  ID : string;
  Type_ : string;
  Classification : string;
  Tags : option loc
}.
End Resource.

Module Action.
Record t := { Verb : string }.
End Action.

Module RequestContext.
Record t := {
  Principal : Principal.t;
  Resource : Resource.t;
  Action : Action.t;
  Environment : string;
  MFAVerified : bool
}.
End RequestContext.

Module PolicyDecision.
Record t := { Effect : Effect; PolicyName : string; Reason : string }.
End PolicyDecision.

Module PolicyStep.
Record t := { PolicyName : string; Outcome : StepOutcome; Reason : string }.
End PolicyStep.

Module EvaluationTrace.
Record t := { Context : RequestContext.t; Steps : slice PolicyStep.t }.

Definition EvaluatedCount (tr : t) : nat :=
  fold_left
    (fun count s =>
       match PolicyStep.Outcome s with
       | StepAbstain => count
       | _ => S count
       end)
    (elems (Steps tr)) 0.

Definition AbstainCount (tr : t) : nat := len (Steps tr) - EvaluatedCount tr.
End EvaluationTrace.

Module EvaluationResult.
Record t := { Decision : PolicyDecision.t; Trace : EvaluationTrace.t }.
End EvaluationResult.

Module ComplianceReport.
Record t := { ResourceID : string; Violations : slice string }.

Definition Compliant (r : t) : bool := Nat.eqb (len (Violations r)) 0.
End ComplianceReport.

(** ** Policies (engine.go) *)

(** A policy function reads the request context, and the tag map behind it;
    [None] is the nil decision (abstain). *)
Definition PolicyFn := Heap -> RequestContext.t -> option PolicyDecision.t.

Module Policy.
Record t := {
  Name : string;
  Version : string;
  Author : string;
  Description : string;
  Priority : Z;
  Evaluate : PolicyFn
}.
End Policy.

(** ** sort.SliceStable *)

(** The standard library's stable sort, by its contract: the result is ordered
    by [less] and elements that [less] does not separate keep their order.
    Insertion from the right is its simplest instance; [SliceStable_unique]
    below shows that the contract leaves no other result. *)
Module sort.
Section Stable.
Context {A : Type} (less : A -> A -> bool).

Fixpoint insert (x : A) (l : list A) : list A :=
  match l with
  | [] => [x]
  | y :: l' => if less y x then y :: insert x l' else x :: l
  end.

Definition SliceStable (l : list A) : list A := foldr insert [] l.
End Stable.
End sort.

(** ** The access-control engine (engine.go) *)

Module PolicyEngine.
Record t := { policies : list Policy.t }.

(** [&PolicyEngine{}] *)
Definition new : t := {| policies := [] |}.

Definition less (a b : Policy.t) : bool :=
  (Policy.Priority b <? Policy.Priority a)%Z.

Definition RegisterPolicy (e : t) (p : Policy.t) : t :=
  {| policies := sort.SliceStable less (policies e ++ [p]) |}.

Definition PolicyCount (e : t) : nat := length (policies e).

Definition step (p : Policy.t) (o : StepOutcome) (reason : string) : PolicyStep.t :=
  {| PolicyStep.PolicyName := Policy.Name p;
     PolicyStep.Outcome := o;
     PolicyStep.Reason := reason |}.

Definition defaultDeny : PolicyDecision.t :=
  {| PolicyDecision.Effect := EffectDeny;
     PolicyDecision.PolicyName := "default";
     PolicyDecision.Reason := "No policy explicitly granted access." |}.

(** The [for _, policy := range e.policies] loop with its two loop-carried
    variables, [trace] and [firstAllow]. *)
Fixpoint loop (h : Heap) (ctx : RequestContext.t) (ps : list Policy.t)
    (trace : EvaluationTrace.t) (firstAllow : option PolicyDecision.t)
    : EvaluationResult.t :=
  let push s :=
    {| EvaluationTrace.Context := EvaluationTrace.Context trace;
       EvaluationTrace.Steps := append (EvaluationTrace.Steps trace) s |} in
  match ps with
  | [] =>
      match firstAllow with
      | Some d => {| EvaluationResult.Decision := d; EvaluationResult.Trace := trace |}
      | None => {| EvaluationResult.Decision := defaultDeny; EvaluationResult.Trace := trace |}
      end
  | policy :: rest =>
      match Policy.Evaluate policy h ctx with
      | None => loop h ctx rest (push (step policy StepAbstain "")) firstAllow
      | Some decision =>
          match PolicyDecision.Effect decision with
          | EffectDeny =>
              {| EvaluationResult.Decision := decision;
                 EvaluationResult.Trace :=
                   push (step policy StepDeny (PolicyDecision.Reason decision)) |}
          | EffectAllow =>
              loop h ctx rest
                (push (step policy StepAllow (PolicyDecision.Reason decision)))
                (match firstAllow with
                 | None => Some decision
                 | Some _ => firstAllow
                 end)
          end
      end
  end.

Definition Evaluate (h : Heap) (e : t) (ctx : RequestContext.t) : EvaluationResult.t :=
  loop h ctx (policies e)
    {| EvaluationTrace.Context := ctx; EvaluationTrace.Steps := slice_of [] |}
    None.
End PolicyEngine.

(** ** Built-in policies (policies.go) *)

Definition AdminFullAccess : Policy.t :=
  {| Policy.Name := "AdminFullAccess";
     Policy.Version := "1.0";
     Policy.Author := "governance-team";
     Policy.Description := "Grants unrestricted access to all principals with the admin role.";
     Policy.Priority := 0;
     Policy.Evaluate := fun _ ctx =>
       if String.eqb (Principal.Role (RequestContext.Principal ctx)) "admin" then
         Some {| PolicyDecision.Effect := EffectAllow;
                 PolicyDecision.PolicyName := "AdminFullAccess";
                 PolicyDecision.Reason := "Admin role has unrestricted access." |}
       else None |}.

Definition MFARequiredForRestricted : Policy.t :=
  {| Policy.Name := "MFARequiredForRestricted";
     Policy.Version := "1.0";
     Policy.Author := "governance-team";
     Policy.Description := "Denies access to restricted resources when MFA has not been verified.";
     Policy.Priority := 0;
     Policy.Evaluate := fun _ ctx =>
       if String.eqb (Resource.Classification (RequestContext.Resource ctx)) "restricted"
          && negb (RequestContext.MFAVerified ctx) then
         Some {| PolicyDecision.Effect := EffectDeny;
                 PolicyDecision.PolicyName := "MFARequiredForRestricted";
                 PolicyDecision.Reason := "MFA required to access restricted resources." |}
       else None |}.

Definition ProductionImmutability : Policy.t :=
  {| Policy.Name := "ProductionImmutability";
     Policy.Version := "1.0";
     Policy.Author := "governance-team";
     Policy.Description := "Prevents non-admin principals from writing or deleting in production.";
     Policy.Priority := 0;
     Policy.Evaluate := fun _ ctx =>
       if String.eqb (RequestContext.Environment ctx) "production"
          && negb (String.eqb (Principal.Role (RequestContext.Principal ctx)) "admin")
          && (String.eqb (Action.Verb (RequestContext.Action ctx)) "write"
              || String.eqb (Action.Verb (RequestContext.Action ctx)) "delete") then
         Some {| PolicyDecision.Effect := EffectDeny;
                 PolicyDecision.PolicyName := "ProductionImmutability";
                 PolicyDecision.Reason := "Write/delete operations require admin role in production." |}
       else None |}.

Definition AnalystReadOnly : Policy.t :=
  {| Policy.Name := "AnalystReadOnly";
     Policy.Version := "1.0";
     Policy.Author := "governance-team";
     Policy.Description := "Restricts analysts to read-only access on non-sensitive resources.";
     Policy.Priority := 0;
     Policy.Evaluate := fun _ ctx =>
       if negb (String.eqb (Principal.Role (RequestContext.Principal ctx)) "analyst") then None
       else if negb (String.eqb (Action.Verb (RequestContext.Action ctx)) "read") then
         Some {| PolicyDecision.Effect := EffectDeny;
                 PolicyDecision.PolicyName := "AnalystReadOnly";
                 PolicyDecision.Reason := "Analysts are limited to read-only access." |}
       else if String.eqb (Resource.Classification (RequestContext.Resource ctx)) "restricted"
               || String.eqb (Resource.Classification (RequestContext.Resource ctx)) "confidential" then
         Some {| PolicyDecision.Effect := EffectDeny;
                 PolicyDecision.PolicyName := "AnalystReadOnly";
                 PolicyDecision.Reason := "Analysts cannot access confidential or restricted data." |}
       else
         Some {| PolicyDecision.Effect := EffectAllow;
                 PolicyDecision.PolicyName := "AnalystReadOnly";
                 PolicyDecision.Reason := "Analyst read access on non-sensitive resource allowed." |} |}.

Definition EngineerAccess : Policy.t :=
  {| Policy.Name := "EngineerAccess";
     Policy.Version := "1.0";
     Policy.Author := "governance-team";
     Policy.Description := "Grants engineers full access in dev/staging and read-only in production.";
     Policy.Priority := 0;
     Policy.Evaluate := fun _ ctx =>
       if negb (String.eqb (Principal.Role (RequestContext.Principal ctx)) "engineer") then None
       else if String.eqb (Resource.Classification (RequestContext.Resource ctx)) "restricted" then None
       else if String.eqb (RequestContext.Environment ctx) "dev"
               || String.eqb (RequestContext.Environment ctx) "staging" then
         Some {| PolicyDecision.Effect := EffectAllow;
                 PolicyDecision.PolicyName := "EngineerAccess";
                 PolicyDecision.Reason := "Engineers have full access in non-production environments." |}
       else if String.eqb (RequestContext.Environment ctx) "production"
               && String.eqb (Action.Verb (RequestContext.Action ctx)) "read" then
         Some {| PolicyDecision.Effect := EffectAllow;
                 PolicyDecision.PolicyName := "EngineerAccess";
                 PolicyDecision.Reason := "Engineers can read production resources." |}
       else None |}.

Definition DefaultPolicyEngine : PolicyEngine.t :=
  let engine := PolicyEngine.new in
  let engine := PolicyEngine.RegisterPolicy engine AdminFullAccess in
  let engine := PolicyEngine.RegisterPolicy engine MFARequiredForRestricted in
  let engine := PolicyEngine.RegisterPolicy engine ProductionImmutability in
  let engine := PolicyEngine.RegisterPolicy engine AnalystReadOnly in
  let engine := PolicyEngine.RegisterPolicy engine EngineerAccess in
  engine.

(** ** Combinators (combinators.go) *)

Definition policyNames (policies : list Policy.t) : list string :=
  map Policy.Name policies.

(** strings.Join *)
Fixpoint Join (elems : list string) (sep : string) : string :=
  match elems with
  | [] => ""
  | [s] => s
  | s :: rest => s +:+ sep +:+ Join rest sep
  end.

(** The scan of [AnyOf]'s sub-policies, with [firstDeny] and [firstDenyName]. *)
Fixpoint AnyOf_loop (h : Heap) (ctx : RequestContext.t) (name : string)
    (policies : list Policy.t)
    (firstDeny : option PolicyDecision.t) (firstDenyName : string)
    : option PolicyDecision.t :=
  match policies with
  | [] =>
      match firstDeny with
      | Some fd =>
          Some {| PolicyDecision.Effect := EffectDeny;
                  PolicyDecision.PolicyName := name;
                  PolicyDecision.Reason :=
                    "AnyOf denied by sub-policy " +:+ firstDenyName +:+ ": "
                      +:+ PolicyDecision.Reason fd |}
      | None => None
      end
  | p :: rest =>
      match Policy.Evaluate p h ctx with
      | None => AnyOf_loop h ctx name rest firstDeny firstDenyName
      | Some d =>
          match PolicyDecision.Effect d with
          | EffectAllow =>
              Some {| PolicyDecision.Effect := EffectAllow;
                      PolicyDecision.PolicyName := name;
                      PolicyDecision.Reason :=
                        "AnyOf allowed by sub-policy " +:+ Policy.Name p +:+ ": "
                          +:+ PolicyDecision.Reason d |}
          | EffectDeny =>
              match firstDeny with
              | None => AnyOf_loop h ctx name rest (Some d) (Policy.Name p)
              | Some _ => AnyOf_loop h ctx name rest firstDeny firstDenyName
              end
          end
      end
  end.

Definition AnyOf (name : string) (policies : list Policy.t) : Policy.t :=
  let names := policyNames policies in
  {| Policy.Name := name;
     Policy.Version := "1.0";
     Policy.Author := "governance-team";
     Policy.Description := "AnyOf combinator over [" +:+ Join names ", " +:+ "]";
     Policy.Priority := 0;
     Policy.Evaluate := fun h ctx => AnyOf_loop h ctx name policies None "" |}.

Fixpoint NoneOf_loop (h : Heap) (ctx : RequestContext.t) (name : string)
    (policies : list Policy.t) : option PolicyDecision.t :=
  match policies with
  | [] => None
  | p :: rest =>
      match Policy.Evaluate p h ctx with
      | Some d =>
          match PolicyDecision.Effect d with
          | EffectAllow =>
              Some {| PolicyDecision.Effect := EffectDeny;
                      PolicyDecision.PolicyName := name;
                      PolicyDecision.Reason :=
                        "NoneOf blocked by sub-policy " +:+ Policy.Name p +:+ ": "
                          +:+ PolicyDecision.Reason d |}
          | EffectDeny => NoneOf_loop h ctx name rest
          end
      | None => NoneOf_loop h ctx name rest
      end
  end.

Definition NoneOf (name : string) (policies : list Policy.t) : Policy.t :=
  let names := policyNames policies in
  {| Policy.Name := name;
     Policy.Version := "1.0";
     Policy.Author := "governance-team";
     Policy.Description := "NoneOf combinator over [" +:+ Join names ", " +:+ "]";
     Policy.Priority := 0;
     Policy.Evaluate := fun h ctx => NoneOf_loop h ctx name policies |}.

(** ** Compliance rules and checker (compliance.go) *)

Module ComplianceRule.
Record t := {
  Name : string;
  Version : string;
  Author : string;
  Description : string;
  Check : Heap -> Resource.t -> bool
}.
End ComplianceRule.

Module RuleSet.
Record t := { Name : string; Rules : list ComplianceRule.t }.
End RuleSet.

(** fmt.Sprintf("[%s] %s", name, description) *)
Definition Sprintf_violation (name description : string) : string :=
  "[" +:+ name +:+ "] " +:+ description.

Module ComplianceChecker.
Record t := { rules : list ComplianceRule.t }.

(** [&ComplianceChecker{}] *)
Definition new : t := {| rules := [] |}.

Definition AddRule (c : t) (rule : ComplianceRule.t) : t :=
  {| rules := rules c ++ [rule] |}.

Definition AddRules (c : t) (rs : list ComplianceRule.t) : t :=
  fold_left (fun c rule => {| rules := rules c ++ [rule] |}) rs c.

(** Each rule is read from [rs.Rules] into the loop variable, a new struct is
    built from it, and the only assignment is to [c.rules].  That slice is
    private and grows by [append] of single values alone, so its backing array
    is never one that a caller holds: rule sequences can be taken as values. *)
Definition AddRuleSet (c : t) (rs : RuleSet.t) : t :=
  fold_left
    (fun c rule =>
       let prefixed :=
         {| ComplianceRule.Name := RuleSet.Name rs +:+ "/" +:+ ComplianceRule.Name rule;
            ComplianceRule.Version := ComplianceRule.Version rule;
            ComplianceRule.Author := ComplianceRule.Author rule;
            ComplianceRule.Description := ComplianceRule.Description rule;
            ComplianceRule.Check := ComplianceRule.Check rule |} in
       {| rules := rules c ++ [prefixed] |})
    (RuleSet.Rules rs) c.

Definition RuleCount (c : t) : nat := length (rules c).

Definition Evaluate (h : Heap) (c : t) (resource : Resource.t) : ComplianceReport.t :=
  fold_left
    (fun report rule =>
       if negb (ComplianceRule.Check rule h resource) then
         {| ComplianceReport.ResourceID := ComplianceReport.ResourceID report;
            ComplianceReport.Violations :=
              append (ComplianceReport.Violations report)
                (Sprintf_violation (ComplianceRule.Name rule)
                   (ComplianceRule.Description rule)) |}
       else report)
    (rules c)
    {| ComplianceReport.ResourceID := Resource.ID resource;
       ComplianceReport.Violations := slice_of [] |}.
End ComplianceChecker.

(** ** Rule sets (rulesets.go) *)

Definition SOC2RuleSet : RuleSet.t :=
  {| RuleSet.Name := "SOC2";
     RuleSet.Rules :=
       [ {| ComplianceRule.Name := "RequiresOwnerTag";
            ComplianceRule.Version := "1.0";
            ComplianceRule.Author := "governance-team";
            ComplianceRule.Description := "Resource must have an 'owner' tag.";
            ComplianceRule.Check := fun h r =>
              match tags_of h (Resource.Tags r) !! "owner" with
              | Some _ => true
              | None => false
              end |};
         {| ComplianceRule.Name := "NoUnclassifiedResources";
            ComplianceRule.Version := "1.0";
            ComplianceRule.Author := "governance-team";
            ComplianceRule.Description := "Every resource must have a non-empty classification.";
            ComplianceRule.Check := fun _ r =>
              negb (String.eqb (Resource.Classification r) "") |} ] |}.

Definition DataSecurityRuleSet : RuleSet.t :=
  {| RuleSet.Name := "DataSecurity";
     RuleSet.Rules :=
       [ {| ComplianceRule.Name := "SecretsNotPublic";
            ComplianceRule.Version := "1.0";
            ComplianceRule.Author := "governance-team";
            ComplianceRule.Description :=
              "Resources of type 'secret' must not be classified as 'public'.";
            ComplianceRule.Check := fun _ r =>
              negb (String.eqb (Resource.Type_ r) "secret"
                    && String.eqb (Resource.Classification r) "public") |};
         {| ComplianceRule.Name := "DatabasesMustBeRestricted";
            ComplianceRule.Version := "1.0";
            ComplianceRule.Author := "governance-team";
            ComplianceRule.Description :=
              "Database resources must be classified as 'restricted' or 'confidential'.";
            ComplianceRule.Check := fun _ r =>
              if negb (String.eqb (Resource.Type_ r) "database") then true
              else String.eqb (Resource.Classification r) "restricted"
                   || String.eqb (Resource.Classification r) "confidential" |} ] |}.

(** ** JSON rendering (json.go) *)

(** What encoding/json produces, as a document tree: a struct is an object
    with one member per field, in declaration order and under its tag; a nil
    slice is [null], any other slice an array.  A string of the tree is the
    Go string handed to the encoder; what the encoder writes for it is
    [encoder.document], further down. *)
#[warnings="-register-all"]
Inductive JSON :=
| JNull
| JBool (b : bool)
| JString (s : string)
| JArray (items : list JSON)
| JObject (members : list (string * JSON)).

Module json.
Definition Marshal_slice {A} (f : A -> JSON) (s : slice A) : JSON :=
  match s with
  | slice_nil => JNull
  | slice_of l => JArray (map f l)
  end.

Definition Effect_MarshalJSON (e : Effect) : JSON := JString (Effect_String e).

Definition StepOutcome_MarshalJSON (o : StepOutcome) : JSON :=
  JString (StepOutcome_String o).

Definition Marshal_PolicyDecision (d : PolicyDecision.t) : JSON :=
  JObject [ ("effect", Effect_MarshalJSON (PolicyDecision.Effect d));
            ("policy_name", JString (PolicyDecision.PolicyName d));
            ("reason", JString (PolicyDecision.Reason d)) ].

Definition Marshal_PolicyStep (s : PolicyStep.t) : JSON :=
  JObject [ ("policy", JString (PolicyStep.PolicyName s));
            ("outcome", StepOutcome_MarshalJSON (PolicyStep.Outcome s));
            ("reason", JString (PolicyStep.Reason s)) ].

Definition EvaluationResult_MarshalJSON (r : EvaluationResult.t) : JSON :=
  let trace := EvaluationResult.Trace r in
  let steps := EvaluationTrace.Steps trace in
  let steps := if is_nil steps then slice_of [] else steps in
  JObject
    [ ("decision", Marshal_PolicyDecision (EvaluationResult.Decision r));
      ("trace",
       JObject
         [ ("principal",
            JString (Principal.ID (RequestContext.Principal (EvaluationTrace.Context trace))));
           ("resource",
            JString (Resource.ID (RequestContext.Resource (EvaluationTrace.Context trace))));
           ("action",
            JString (Action.Verb (RequestContext.Action (EvaluationTrace.Context trace))));
           ("environment",
            JString (RequestContext.Environment (EvaluationTrace.Context trace)));
           ("steps", Marshal_slice Marshal_PolicyStep steps) ]) ].

Definition ComplianceReport_MarshalJSON (r : ComplianceReport.t) : JSON :=
  let violations := ComplianceReport.Violations r in
  let violations := if is_nil violations then slice_of [] else violations in
  JObject
    [ ("resource_id", JString (ComplianceReport.ResourceID r));
      ("compliant", JBool (ComplianceReport.Compliant r));
      ("violations", Marshal_slice JString violations) ].

(** Member access on a rendered object. *)
Fixpoint assoc (k : string) (ms : list (string * JSON)) : option JSON :=
  match ms with
  | [] => None
  | (k', v) :: ms' => if String.eqb k k' then Some v else assoc k ms'
  end.

Definition member (k : string) (j : JSON) : option JSON :=
  match j with
  | JObject ms => assoc k ms
  | _ => None
  end.
End json.

(** ** The host's side of a request context *)

(** What the program that called [PolicyEngine.Evaluate] can afterwards do to
    the [RequestContext] variable it passed: assign to the variable's fields,
    or write through the tag map the variable points to. *)
Module Host.
Inductive Write :=
| SetPrincipal (p : Principal.t)
| SetResourceID (s : string)
| SetResourceType (s : string)
| SetResourceClassification (s : string)
| SetResourceTags (m : option loc)
| MakeResourceTags
| SetAction (a : Action.t)
| SetEnvironment (s : string)
| SetMFAVerified (b : bool)
| TagStore (k v : string)
| TagDelete (k : string).

Record State := { ctx : RequestContext.t; heap : Heap }.

Definition with_resource (c : RequestContext.t) (r : Resource.t) : RequestContext.t :=
  {| RequestContext.Principal := RequestContext.Principal c;
     RequestContext.Resource := r;
     RequestContext.Action := RequestContext.Action c;
     RequestContext.Environment := RequestContext.Environment c;
     RequestContext.MFAVerified := RequestContext.MFAVerified c |}.

Definition with_tags (r : Resource.t) (m : option loc) : Resource.t :=
  {| Resource.ID := Resource.ID r;
     Resource.Type_ := Resource.Type_ r;
     Resource.Classification := Resource.Classification r;
     Resource.Tags := m |}.

(** One statement of the host; [None] is the panic of an assignment to an
    entry of a nil map. *)
Definition exec (w : Write) (st : State) : option State :=
  let c := ctx st in
  let r := RequestContext.Resource c in
  match w with
  | SetPrincipal p =>
      Some {| ctx := {| RequestContext.Principal := p;
                        RequestContext.Resource := r;
                        RequestContext.Action := RequestContext.Action c;
                        RequestContext.Environment := RequestContext.Environment c;
                        RequestContext.MFAVerified := RequestContext.MFAVerified c |};
              heap := heap st |}
  | SetResourceID s =>
      Some {| ctx := with_resource c
                       {| Resource.ID := s;
                          Resource.Type_ := Resource.Type_ r;
                          Resource.Classification := Resource.Classification r;
                          Resource.Tags := Resource.Tags r |};
              heap := heap st |}
  | SetResourceType s =>
      Some {| ctx := with_resource c
                       {| Resource.ID := Resource.ID r;
                          Resource.Type_ := s;
                          Resource.Classification := Resource.Classification r;
                          Resource.Tags := Resource.Tags r |};
              heap := heap st |}
  | SetResourceClassification s =>
      Some {| ctx := with_resource c
                       {| Resource.ID := Resource.ID r;
                          Resource.Type_ := Resource.Type_ r;
                          Resource.Classification := s;
                          Resource.Tags := Resource.Tags r |};
              heap := heap st |}
  | SetResourceTags m =>
      Some {| ctx := with_resource c (with_tags r m); heap := heap st |}
  | MakeResourceTags =>
      let l := fresh (dom (heap st)) in
      Some {| ctx := with_resource c (with_tags r (Some l));
              heap := <[l := ∅]> (heap st) |}
  | SetAction a =>
      Some {| ctx := {| RequestContext.Principal := RequestContext.Principal c;
                        RequestContext.Resource := r;
                        RequestContext.Action := a;
                        RequestContext.Environment := RequestContext.Environment c;
                        RequestContext.MFAVerified := RequestContext.MFAVerified c |};
              heap := heap st |}
  | SetEnvironment s =>
      Some {| ctx := {| RequestContext.Principal := RequestContext.Principal c;
                        RequestContext.Resource := r;
                        RequestContext.Action := RequestContext.Action c;
                        RequestContext.Environment := s;
                        RequestContext.MFAVerified := RequestContext.MFAVerified c |};
              heap := heap st |}
  | SetMFAVerified b =>
      Some {| ctx := {| RequestContext.Principal := RequestContext.Principal c;
                        RequestContext.Resource := r;
                        RequestContext.Action := RequestContext.Action c;
                        RequestContext.Environment := RequestContext.Environment c;
                        RequestContext.MFAVerified := b |};
              heap := heap st |}
  | TagStore k v =>
      match Resource.Tags r with
      | None => None
      | Some l =>
          Some {| ctx := c; heap := <[l := <[k := v]> (tags_of (heap st) (Some l))]> (heap st) |}
      end
  | TagDelete k =>
      match Resource.Tags r with
      | None => Some st
      | Some l =>
          Some {| ctx := c; heap := <[l := delete k (tags_of (heap st) (Some l))]> (heap st) |}
      end
  end.

Fixpoint run (ws : list Write) (st : State) : option State :=
  match ws with
  | [] => Some st
  | w :: ws' =>
      match exec w st with
      | Some st' => run ws' st'
      | None => None
      end
  end.

(** A write through the map, as opposed to an assignment to the variable. *)
Definition writes_map (w : Write) : bool :=
  match w with
  | TagStore _ _ | TagDelete _ => true
  | _ => false
  end.

(** No map write of the run goes through the map value [m]. *)
Fixpoint spares (m : option loc) (ws : list Write) (st : State) : bool :=
  match ws with
  | [] => true
  | w :: ws' =>
      (negb (writes_map w)
       || negb (bool_decide (Resource.Tags (RequestContext.Resource (ctx st)) = m)))
      && match exec w st with
         | Some st' => spares m ws' st'
         | None => true
         end
  end.

(** What a reader of a context sees: its fields and, behind [Tags], the
    entries of the map. *)
Definition observe (h : Heap) (c : RequestContext.t) : RequestContext.t * TagMap :=
  (c, tags_of h (Resource.Tags (RequestContext.Resource c))).
End Host.

(** ** Predicates and the conditional wrapper (predicates.go) *)

(** A predicate, like a policy function, reads the request context. *)
Definition PredicateFn := Heap -> RequestContext.t -> bool.

Definition When (predicate : PredicateFn) (wrapped : Policy.t) : Policy.t :=
  {| Policy.Name := Policy.Name wrapped;
     Policy.Version := Policy.Version wrapped;
     Policy.Author := Policy.Author wrapped;
     Policy.Description := "When(" +:+ Policy.Name wrapped +:+ "): conditional guard";
     Policy.Priority := Policy.Priority wrapped;
     Policy.Evaluate := fun h ctx =>
       if negb (predicate h ctx) then None else Policy.Evaluate wrapped h ctx |}.

(** The [map[string]struct{}] that the three constructors fill in a loop. *)
Definition make_set (names : list string) : gmap string unit :=
  fold_left (fun set e => <[e := tt]> set) names ∅.

(** [_, ok := set[k]] *)
Definition has_key (set : gmap string unit) (k : string) : bool :=
  match set !! k with
  | Some _ => true
  | None => false
  end.

Definition InEnvironment (envs : list string) : PredicateFn :=
  let set := make_set envs in
  fun _ ctx => has_key set (RequestContext.Environment ctx).

Definition ForResourceType (types : list string) : PredicateFn :=
  let set := make_set types in
  fun _ ctx => has_key set (Resource.Type_ (RequestContext.Resource ctx)).

Definition ForRole (roles : list string) : PredicateFn :=
  let set := make_set roles in
  fun _ ctx => has_key set (Principal.Role (RequestContext.Principal ctx)).

(** ** AllOf (combinators.go) *)

(** The scan of [AllOf]'s sub-policies, with [hasAbstain]. *)
Fixpoint AllOf_loop (h : Heap) (ctx : RequestContext.t) (name : string)
    (policies : list Policy.t) (hasAbstain : bool) : option PolicyDecision.t :=
  match policies with
  | [] =>
      if hasAbstain then None
      else Some {| PolicyDecision.Effect := EffectAllow;
                   PolicyDecision.PolicyName := name;
                   PolicyDecision.Reason := "AllOf: all sub-policies allowed." |}
  | p :: rest =>
      match Policy.Evaluate p h ctx with
      | None => AllOf_loop h ctx name rest true
      | Some d =>
          match PolicyDecision.Effect d with
          | EffectDeny =>
              Some {| PolicyDecision.Effect := EffectDeny;
                      PolicyDecision.PolicyName := name;
                      PolicyDecision.Reason :=
                        "AllOf denied by sub-policy " +:+ Policy.Name p +:+ ": "
                          +:+ PolicyDecision.Reason d |}
          | EffectAllow => AllOf_loop h ctx name rest hasAbstain
          end
      end
  end.

Definition AllOf (name : string) (policies : list Policy.t) : Policy.t :=
  let names := policyNames policies in
  {| Policy.Name := name;
     Policy.Version := "1.0";
     Policy.Author := "governance-team";
     Policy.Description := "AllOf combinator over [" +:+ Join names ", " +:+ "]";
     Policy.Priority := 0;
     Policy.Evaluate := fun h ctx =>
       if Nat.eqb (length policies) 0 then
         Some {| PolicyDecision.Effect := EffectAllow;
                 PolicyDecision.PolicyName := name;
                 PolicyDecision.Reason := "AllOf with zero sub-policies (vacuous truth)." |}
       else AllOf_loop h ctx name policies false |}.

(** ** The default checker (rules.go) *)

Definition DefaultComplianceChecker : ComplianceChecker.t :=
  let checker := ComplianceChecker.new in
  let checker :=
    ComplianceChecker.AddRule checker
      {| ComplianceRule.Name := "RequiresOwnerTag";
         ComplianceRule.Version := "1.0";
         ComplianceRule.Author := "governance-team";
         ComplianceRule.Description := "Resource must have an 'owner' tag.";
         ComplianceRule.Check := fun h r =>
           match tags_of h (Resource.Tags r) !! "owner" with
           | Some _ => true
           | None => false
           end |} in
  let checker :=
    ComplianceChecker.AddRule checker
      {| ComplianceRule.Name := "SecretsNotPublic";
         ComplianceRule.Version := "1.0";
         ComplianceRule.Author := "governance-team";
         ComplianceRule.Description :=
           "Resources of type 'secret' must not be classified as 'public'.";
         ComplianceRule.Check := fun _ r =>
           negb (String.eqb (Resource.Type_ r) "secret"
                 && String.eqb (Resource.Classification r) "public") |} in
  let checker :=
    ComplianceChecker.AddRule checker
      {| ComplianceRule.Name := "DatabasesMustBeRestricted";
         ComplianceRule.Version := "1.0";
         ComplianceRule.Author := "governance-team";
         ComplianceRule.Description :=
           "Database resources must be classified as 'restricted' or 'confidential'.";
         ComplianceRule.Check := fun _ r =>
           if negb (String.eqb (Resource.Type_ r) "database") then true
           else String.eqb (Resource.Classification r) "restricted"
                || String.eqb (Resource.Classification r) "confidential" |} in
  let checker :=
    ComplianceChecker.AddRule checker
      {| ComplianceRule.Name := "NoUnclassifiedResources";
         ComplianceRule.Version := "1.0";
         ComplianceRule.Author := "governance-team";
         ComplianceRule.Description := "Every resource must have a non-empty classification.";
         ComplianceRule.Check := fun _ r =>
           negb (String.eqb (Resource.Classification r) "") |} in
  checker.

(** ** Strings as the JSON encoder writes them *)

(** A Go string is any sequence of bytes.  The tree above carries the Go
    strings as they are; the encoder writes a string value byte sequence by
    byte sequence and puts U+FFFD in the place of every byte that does not
    begin a well-formed UTF-8 encoding.  (Its escapes, of quotes, control
    characters and the like, denote the characters they stand for and leave
    the document as it is.) *)
Module utf8.
Definition byte (c : Ascii.ascii) : N := Ascii.N_of_ascii c.

Definition between (lo hi : N) (c : Ascii.ascii) : bool :=
  (lo <=? byte c)%N && (byte c <=? hi)%N.

(** The size that [utf8.DecodeRuneInString] reports for the head of a
    non-empty string: [Some n] for a well-formed encoding of [n] bytes,
    [None] for [(RuneError, 1)]. *)
Definition rune_size (s : string) : option nat :=
  match s with
  | EmptyString => None
  | String b0 r0 =>
      let x := byte b0 in
      if (x <? 128)%N then Some 1
      else if between 194 223 b0 then
        match r0 with
        | String b1 _ => if between 128 191 b1 then Some 2 else None
        | _ => None
        end
      else if between 224 239 b0 then
        match r0 with
        | String b1 (String b2 _) =>
            let lo := if (x =? 224)%N then 160%N else 128%N in
            let hi := if (x =? 237)%N then 159%N else 191%N in
            if between lo hi b1 && between 128 191 b2 then Some 3 else None
        | _ => None
        end
      else if between 240 244 b0 then
        match r0 with
        | String b1 (String b2 (String b3 _)) =>
            let lo := if (x =? 240)%N then 144%N else 128%N in
            let hi := if (x =? 244)%N then 143%N else 191%N in
            if between lo hi b1 && between 128 191 b2 && between 128 191 b3
            then Some 4 else None
        | _ => None
        end
      else None
  end.

(** [utf8.ValidString] *)
Fixpoint ValidString (s : string) : bool :=
  match s with
  | EmptyString => true
  | String b0 r0 =>
      match rune_size s, r0 with
      | Some 1, _ => ValidString r0
      | Some 2, String _ r1 => ValidString r1
      | Some 3, String _ (String _ r2) => ValidString r2
      | Some 4, String _ (String _ (String _ r3)) => ValidString r3
      | _, _ => false
      end
  end.

(** U+FFFD, encoded. *)
Definition replacement : string :=
  String (Ascii.ascii_of_N 239)
    (String (Ascii.ascii_of_N 191) (String (Ascii.ascii_of_N 189) EmptyString)).
End utf8.

Module encoder.
(** The characters of the string value that the encoder writes for [s]. *)
Fixpoint appendString (s : string) : string :=
  match s with
  | EmptyString => EmptyString
  | String b0 r0 =>
      match utf8.rune_size s, r0 with
      | Some 1, _ => String b0 (appendString r0)
      | Some 2, String b1 r1 => String b0 (String b1 (appendString r1))
      | Some 3, String b1 (String b2 r2) =>
          String b0 (String b1 (String b2 (appendString r2)))
      | Some 4, String b1 (String b2 (String b3 r3)) =>
          String b0 (String b1 (String b2 (String b3 (appendString r3))))
      | _, _ => String.append utf8.replacement (appendString r0)
      end
  end.

(** The document that the encoder writes for a tree: the same members and
    items, each string value as [appendString] writes it. *)
Fixpoint document (j : JSON) : JSON :=
  match j with
  | JNull => JNull
  | JBool b => JBool b
  | JString s => JString (appendString s)
  | JArray items => JArray (map document items)
  | JObject members => JObject (map (fun kv => (fst kv, document (snd kv))) members)
  end.
End encoder.

(** ** Rule slices in memory *)

(** A [[]ComplianceRule] value is a header (array, offset, length, capacity)
    over a backing array that other headers may share; [append] writes into
    the spare capacity of that array or moves to a new one.  This layer has
    the headers and one store of arrays, so that a write through one slice
    shows in every slice over the same array.  A cell that was never written
    is [None]; [None] as a slice is nil. *)
Module Mem.
Abbreviation Store := (gmap loc (list (option ComplianceRule.t))).

Record Slice := { arr : loc; off : nat; len : nat; cap : nat }.

Record RuleSet := { Name : string; Rules : option Slice }.

Record ComplianceChecker := { rules : option Slice }.

(** [&ComplianceChecker{}] *)
Definition new : ComplianceChecker := {| rules := None |}.

(** [len(s)] *)
Definition length_of (s : option Slice) : nat :=
  match s with
  | None => 0
  | Some hd => len hd
  end.

(** [s[i]]; [None] is the panic of an index out of range (or a cell that
    holds no rule). *)
Definition index (m : Store) (s : option Slice) (i : nat) : option ComplianceRule.t :=
  match s with
  | None => None
  | Some hd =>
      if i <? len hd then
        match m !! arr hd with
        | Some a => mjoin (a !! (off hd + i))
        | None => None
        end
      else None
  end.

(** The rules that a slice shows, first to last. *)
Definition view (m : Store) (s : option Slice) : list ComplianceRule.t :=
  match s with
  | None => []
  | Some hd =>
      match m !! arr hd with
      | Some a => omap id (take (len hd) (drop (off hd) a))
      | None => []
      end
  end.

(** A slice that lies inside its array and holds a rule at every index. *)
Definition valid (m : Store) (s : option Slice) : Prop :=
  match s with
  | None => True
  | Some hd =>
      exists a, m !! arr hd = Some a /\
                off hd + cap hd <= length a /\
                len hd <= cap hd /\
                Forall is_Some (take (len hd) (drop (off hd) a))
  end.

(** [append(s, x)].  The capacity of a new array is the runtime's choice,
    [growcap old needed], of which only [needed <= growcap old needed] is
    known. *)
Definition append (growcap : nat -> nat -> nat) (m : Store) (s : option Slice)
    (x : ComplianceRule.t) : option (Store * option Slice) :=
  match s with
  | Some hd =>
      match m !! arr hd with
      | None => None
      | Some a =>
          if len hd <? cap hd then
            Some (<[arr hd := <[off hd + len hd := Some x]> a]> m,
                  Some {| arr := arr hd; off := off hd; len := S (len hd); cap := cap hd |})
          else
            let l := fresh (dom m) in
            let n := growcap (cap hd) (S (len hd)) in
            Some (<[l := take (len hd) (drop (off hd) a)
                         ++ Some x :: replicate (n - S (len hd)) None]> m,
                  Some {| arr := l; off := 0; len := S (len hd); cap := n |})
      end
  | None =>
      let l := fresh (dom m) in
      let n := growcap 0 1 in
      Some (<[l := Some x :: replicate (n - 1) None]> m,
            Some {| arr := l; off := 0; len := 1; cap := n |})
  end.

(** [for _, rule := range src { dst = append(dst, f(rule)) }], from index [i]
    for [n] more rounds: the header of [src] is read once, each element when
    its round comes. *)
Fixpoint range_append (growcap : nat -> nat -> nat)
    (f : ComplianceRule.t -> ComplianceRule.t) (src : option Slice) (i n : nat)
    (m : Store) (dst : option Slice) : option (Store * option Slice) :=
  match n with
  | 0 => Some (m, dst)
  | S n' =>
      match index m src i with
      | None => None
      | Some rule =>
          match append growcap m dst (f rule) with
          | None => None
          | Some (m', dst') => range_append growcap f src (S i) n' m' dst'
          end
      end
  end.

Definition AddRule (growcap : nat -> nat -> nat) (m : Store) (c : ComplianceChecker)
    (rule : ComplianceRule.t) : option (Store * ComplianceChecker) :=
  match append growcap m (rules c) rule with
  | Some (m', s') => Some (m', {| rules := s' |})
  | None => None
  end.

Definition AddRules (growcap : nat -> nat -> nat) (m : Store) (c : ComplianceChecker)
    (rs : option Slice) : option (Store * ComplianceChecker) :=
  match range_append growcap (fun rule => rule) rs 0 (length_of rs) m (rules c) with
  | Some (m', s') => Some (m', {| rules := s' |})
  | None => None
  end.

Definition AddRuleSet (growcap : nat -> nat -> nat) (m : Store) (c : ComplianceChecker)
    (rs : RuleSet) : option (Store * ComplianceChecker) :=
  match
    range_append growcap
      (fun rule =>
         {| ComplianceRule.Name := Name rs +:+ "/" +:+ ComplianceRule.Name rule;
            ComplianceRule.Version := ComplianceRule.Version rule;
            ComplianceRule.Author := ComplianceRule.Author rule;
            ComplianceRule.Description := ComplianceRule.Description rule;
            ComplianceRule.Check := ComplianceRule.Check rule |})
      (Rules rs) 0 (length_of (Rules rs)) m (rules c)
  with
  | Some (m', s') => Some (m', {| rules := s' |})
  | None => None
  end.

(** A rule set built from a slice literal: a new array that holds the rules
    and nothing else. *)
Definition literal (m : Store) (name : string) (rs : list ComplianceRule.t)
    : Store * RuleSet :=
  let l := fresh (dom m) in
  (<[l := map Some rs]> m,
   {| Name := name;
      Rules := Some {| arr := l; off := 0; len := length rs; cap := length rs |} |}).

(** [SOC2RuleSet()] *)
Definition SOC2RuleSet (m : Store) : Store * RuleSet :=
  literal m (RuleSet.Name SOC2RuleSet) (RuleSet.Rules SOC2RuleSet).

(** The arrays that the caller holds are those at the addresses [H].  The
    checker's own slice is private when its array is none of them. *)
Definition private (H : gset loc) (m : Store) (s : option Slice) : Prop :=
  match s with
  | None => True
  | Some hd => (arr hd ∉ H) /\ valid m s
  end.

(** A slice of the caller's. *)
Definition held (H : gset loc) (m : Store) (s : option Slice) : Prop :=
  match s with
  | None => True
  | Some hd => (arr hd ∈ H) /\ valid m s
  end.

(** The runtime's growth rule gives room for what is needed. *)
Definition grows (growcap : nat -> nat -> nat) : Prop :=
  forall old needed, needed <= growcap old needed.
End Mem.

(** ** Vocabulary of the statements *)

(** What one policy says about a request. *)
Definition abstains (h : Heap) (ctx : RequestContext.t) (p : Policy.t) : Prop :=
  Policy.Evaluate p h ctx = None.

Definition decides (h : Heap) (ctx : RequestContext.t) (p : Policy.t)
    (e : Effect) (d : PolicyDecision.t) : Prop :=
  Policy.Evaluate p h ctx = Some d /\ PolicyDecision.Effect d = e.

Definition allows (h : Heap) (ctx : RequestContext.t) (p : Policy.t) : Prop :=
  exists d, decides h ctx p EffectAllow d.

Definition denies (h : Heap) (ctx : RequestContext.t) (p : Policy.t) : Prop :=
  exists d, decides h ctx p EffectDeny d.

(** The trace row of a policy that was consulted. *)
Definition step_of (h : Heap) (ctx : RequestContext.t) (p : Policy.t) : PolicyStep.t :=
  match Policy.Evaluate p h ctx with
  | None => PolicyEngine.step p StepAbstain ""
  | Some d =>
      match PolicyDecision.Effect d with
      | EffectAllow => PolicyEngine.step p StepAllow (PolicyDecision.Reason d)
      | EffectDeny => PolicyEngine.step p StepDeny (PolicyDecision.Reason d)
      end
  end.

(** A trace with further rows. *)
Definition extend (tr : EvaluationTrace.t) (ss : list PolicyStep.t) : EvaluationTrace.t :=
  {| EvaluationTrace.Context := EvaluationTrace.Context tr;
     EvaluationTrace.Steps := slice_of (elems (EvaluationTrace.Steps tr) ++ ss) |}.

(** The first [Allow] decision among [ps], if any. *)
Fixpoint first_allow (h : Heap) (ctx : RequestContext.t) (ps : list Policy.t)
    : option PolicyDecision.t :=
  match ps with
  | [] => None
  | p :: rest =>
      match Policy.Evaluate p h ctx with
      | Some d =>
          match PolicyDecision.Effect d with
          | EffectAllow => Some d
          | EffectDeny => first_allow h ctx rest
          end
      | None => first_allow h ctx rest
      end
  end.

Definition is_deny_step (s : PolicyStep.t) : bool :=
  match PolicyStep.Outcome s with
  | StepDeny => true
  | _ => false
  end.

(** The engine after registering [ps], first to last. *)
Definition registered (ps : list Policy.t) : PolicyEngine.t :=
  fold_left PolicyEngine.RegisterPolicy ps PolicyEngine.new.

Definition with_priority (k : Z) (ps : list Policy.t) : list Policy.t :=
  List.filter (fun p => (Policy.Priority p =? k)%Z) ps.

Definition by_priority_desc (a b : Policy.t) : Prop :=
  (Policy.Priority b <= Policy.Priority a)%Z.

(** The rule copy that [AddRuleSet] stores. *)
Definition prefixed (set : string) (rule : ComplianceRule.t) : ComplianceRule.t :=
  {| ComplianceRule.Name := set +:+ "/" +:+ ComplianceRule.Name rule;
     ComplianceRule.Version := ComplianceRule.Version rule;
     ComplianceRule.Author := ComplianceRule.Author rule;
     ComplianceRule.Description := ComplianceRule.Description rule;
     ComplianceRule.Check := ComplianceRule.Check rule |}.

(** The finding that a failed rule contributes to a report. *)
Definition violation_of (rule : ComplianceRule.t) : string :=
  "[" +:+ ComplianceRule.Name rule +:+ "] " +:+ ComplianceRule.Description rule.

Definition fails (h : Heap) (resource : Resource.t) (rule : ComplianceRule.t) : bool :=
  negb (ComplianceRule.Check rule h resource).

(** The checker after adding [rs] one by one. *)
Definition with_rules (rs : list ComplianceRule.t) : ComplianceChecker.t :=
  fold_left ComplianceChecker.AddRule rs ComplianceChecker.new.

Definition is_empty {A} (l : list A) : bool :=
  match l with
  | [] => true
  | _ :: _ => false
  end.

Definition is_abstain_step (s : PolicyStep.t) : bool :=
  match PolicyStep.Outcome s with
  | StepAbstain => true
  | _ => false
  end.

(** The outcome of a policy function, as an effect. *)
Definition gives (r : option PolicyDecision.t) (e : Effect) : Prop :=
  exists d, r = Some d /\ PolicyDecision.Effect d = e.

(** The requests that the five built-in policies, taken together, let
    through: nothing forbids the request and some role policy grants it. *)
Definition default_grants (ctx : RequestContext.t) : bool :=
  let role := Principal.Role (RequestContext.Principal ctx) in
  let class := Resource.Classification (RequestContext.Resource ctx) in
  let verb := Action.Verb (RequestContext.Action ctx) in
  let env := RequestContext.Environment ctx in
  let is_admin := String.eqb role "admin" in
  let is_analyst := String.eqb role "analyst" in
  let is_engineer := String.eqb role "engineer" in
  let restricted := String.eqb class "restricted" in
  let forbidden :=
    (restricted && negb (RequestContext.MFAVerified ctx))
    || (String.eqb env "production" && negb is_admin
        && (String.eqb verb "write" || String.eqb verb "delete"))
    || (is_analyst
        && (negb (String.eqb verb "read") || restricted || String.eqb class "confidential")) in
  let granted :=
    is_admin
    || is_analyst
    || (is_engineer && negb restricted
        && (String.eqb env "dev" || String.eqb env "staging"
            || (String.eqb env "production" && String.eqb verb "read"))) in
  negb forbidden && granted.

(** The two rule sets merged into an empty checker. *)
Definition mergedRuleSets : ComplianceChecker.t :=
  ComplianceChecker.AddRuleSet
    (ComplianceChecker.AddRuleSet ComplianceChecker.new SOC2RuleSet)
    DataSecurityRuleSet.



(** ** Sample values, after the package's tests *)

Definition alwaysAllow (name : string) : Policy.t :=
  {| Policy.Name := name;
     Policy.Version := "1.0";
     Policy.Author := "test";
     Policy.Description := "";
     Policy.Priority := 0;
     Policy.Evaluate := fun _ _ =>
       Some {| PolicyDecision.Effect := EffectAllow;
               PolicyDecision.PolicyName := name;
               PolicyDecision.Reason := "always allow" |} |}.

Definition alwaysDeny (name : string) : Policy.t :=
  {| Policy.Name := name;
     Policy.Version := "1.0";
     Policy.Author := "test";
     Policy.Description := "";
     Policy.Priority := 0;
     Policy.Evaluate := fun _ _ =>
       Some {| PolicyDecision.Effect := EffectDeny;
               PolicyDecision.PolicyName := name;
               PolicyDecision.Reason := "always deny" |} |}.

Definition alwaysAbstain (name : string) : Policy.t :=
  {| Policy.Name := name;
     Policy.Version := "1.0";
     Policy.Author := "test";
     Policy.Description := "";
     Policy.Priority := 0;
     Policy.Evaluate := fun _ _ => None |}.

(** The same policy with its [Priority] field set. *)
Definition at_priority (k : Z) (p : Policy.t) : Policy.t :=
  {| Policy.Name := Policy.Name p;
     Policy.Version := Policy.Version p;
     Policy.Author := Policy.Author p;
     Policy.Description := Policy.Description p;
     Policy.Priority := k;
     Policy.Evaluate := Policy.Evaluate p |}.

(** [blankCtx()]: its [Tags] is a fresh empty map, here at address 1. *)
Definition blankHeap : Heap := {[ 1%positive := ∅ ]}.

Definition blankCtx : RequestContext.t :=
  {| RequestContext.Principal :=
       {| Principal.ID := "u"; Principal.Role := "guest"; Principal.Department := "" |};
     RequestContext.Resource :=
       {| Resource.ID := "r"; Resource.Type_ := "storage";
          Resource.Classification := "public"; Resource.Tags := Some 1%positive |};
     RequestContext.Action := {| Action.Verb := "read" |};
     RequestContext.Environment := "dev";
     RequestContext.MFAVerified := false |}.

(** An engineer reading a restricted database in staging without MFA. *)
Definition engineerRestrictedCtx : RequestContext.t :=
  {| RequestContext.Principal :=
       {| Principal.ID := "bob@corp.io"; Principal.Role := "engineer";
          Principal.Department := "Platform" |};
     RequestContext.Resource :=
       {| Resource.ID := "db-patient-records"; Resource.Type_ := "database";
          Resource.Classification := "restricted"; Resource.Tags := Some 1%positive |};
     RequestContext.Action := {| Action.Verb := "read" |};
     RequestContext.Environment := "staging";
     RequestContext.MFAVerified := false |}.

(** An engine in which a Deny follows an Allow, and one without a Deny. *)
Definition mixedEngine : PolicyEngine.t :=
  registered [alwaysAbstain "A"; alwaysAllow "B"; alwaysDeny "D"; alwaysAllow "C"].

Definition permissiveEngine : PolicyEngine.t :=
  registered [alwaysAbstain "A"; alwaysAllow "B"; alwaysAllow "C"].

(** A result as a host may build it by hand, with a nil step slice. *)
Definition bareResult : EvaluationResult.t :=
  {| EvaluationResult.Decision := PolicyEngine.defaultDeny;
     EvaluationResult.Trace :=
       {| EvaluationTrace.Context := blankCtx; EvaluationTrace.Steps := slice_nil |} |}.

(** An admin deleting a restricted database in production without MFA. *)
Definition adminNoMFACtx : RequestContext.t :=
  {| RequestContext.Principal :=
       {| Principal.ID := "alice@corp.io"; Principal.Role := "admin";
          Principal.Department := "IT" |};
     RequestContext.Resource :=
       {| Resource.ID := "db-patient-records"; Resource.Type_ := "database";
          Resource.Classification := "restricted"; Resource.Tags := Some 1%positive |};
     RequestContext.Action := {| Action.Verb := "delete" |};
     RequestContext.Environment := "production";
     RequestContext.MFAVerified := false |}.

(** An engineer writing to an internal store in production. *)
Definition engineerProdWriteCtx : RequestContext.t :=
  {| RequestContext.Principal :=
       {| Principal.ID := "bob@corp.io"; Principal.Role := "engineer";
          Principal.Department := "Platform" |};
     RequestContext.Resource :=
       {| Resource.ID := "s3-logs"; Resource.Type_ := "storage";
          Resource.Classification := "internal"; Resource.Tags := None |};
     RequestContext.Action := {| Action.Verb := "write" |};
     RequestContext.Environment := "production";
     RequestContext.MFAVerified := true |}.

(** Another guest reading another public resource in dev. *)
Definition otherGuestCtx : RequestContext.t :=
  {| RequestContext.Principal :=
       {| Principal.ID := "eve"; Principal.Role := "guest"; Principal.Department := "Sales" |};
     RequestContext.Resource :=
       {| Resource.ID := "vm-7"; Resource.Type_ := "compute";
          Resource.Classification := "public"; Resource.Tags := None |};
     RequestContext.Action := {| Action.Verb := "read" |};
     RequestContext.Environment := "dev";
     RequestContext.MFAVerified := false |}.

(** A restricted database with an owner tag, its tag map at address 1. *)
Definition ownedHeap : Heap := {[ 1%positive := {[ "owner" := "health-team" ]} ]}.

Definition patientRecords : Resource.t :=
  {| Resource.ID := "db-patient-records"; Resource.Type_ := "database";
     Resource.Classification := "restricted"; Resource.Tags := Some 1%positive |}.

(** Case analysis on the string comparisons of a goal, one at a time. *)
Ltac case_eqb :=
  repeat (match goal with
          | |- context [String.eqb ?a ?b] => destruct (String.eqb a b)
          end; cbn).

(** ** The evaluation loop *)

Section Loop.
Variables (h : Heap) (ctx : RequestContext.t).

Lemma not_denies_cases p :
  ~ denies h ctx p -> abstains h ctx p \/ allows h ctx p.
Proof.
  unfold denies, abstains, allows, decides. intros Hn.
  destruct (Policy.Evaluate p h ctx) as [d|] eqn:E; [|by left].
  destruct (PolicyDecision.Effect d) eqn:Ed.
  - right. by exists d.
  - exfalso. apply Hn. by exists d.
Qed.

Lemma denies_dec p : denies h ctx p \/ ~ denies h ctx p.
Proof.
  unfold denies, decides.
  destruct (Policy.Evaluate p h ctx) as [d|] eqn:E.
  - destruct (PolicyDecision.Effect d) eqn:Ed.
    + right. intros (d' & Hd & He). congruence.
    + left. by exists d.
  - right. intros (d' & Hd & _). congruence.
Qed.

(** Either nobody denies, or the list splits at its first denier. *)
Lemma first_deny_split (ps : list Policy.t) :
  Forall (fun q => ~ denies h ctx q) ps \/
  exists pre p post d,
    ps = pre ++ p :: post /\ Forall (fun q => ~ denies h ctx q) pre /\
    decides h ctx p EffectDeny d.
Proof.
  induction ps as [|p ps IH]; [by left|].
  destruct (denies_dec p) as [[d Hd]|Hn].
  - right. exists [], p, ps, d. split_and!; [done|constructor|done].
  - destruct IH as [IH|(pre & q & post & d & -> & Hpre & Hd)].
    + left. by constructor.
    + right. exists (p :: pre), q, post, d. split_and!; [done|by constructor|done].
Qed.

Lemma loop_deny pre p post d tr fa :
  Forall (fun q => ~ denies h ctx q) pre ->
  decides h ctx p EffectDeny d ->
  PolicyEngine.loop h ctx (pre ++ p :: post) tr fa =
    {| EvaluationResult.Decision := d;
       EvaluationResult.Trace :=
         extend tr (map (step_of h ctx) pre
                    ++ [PolicyEngine.step p StepDeny (PolicyDecision.Reason d)]) |}.
Proof.
  intros Hpre [Hd He]. revert tr fa.
  induction Hpre as [|q pre Hq Hpre IH]; intros tr fa; simpl.
  - rewrite Hd, He. reflexivity.
  - unfold step_of.
    destruct (Policy.Evaluate q h ctx) as [dq|] eqn:Eq.
    + destruct (PolicyDecision.Effect dq) eqn:Edq.
      * rewrite IH. unfold extend, append. simpl. by rewrite <- app_assoc.
      * exfalso. apply Hq. by exists dq.
    + rewrite IH. unfold extend, append. simpl. by rewrite <- app_assoc.
Qed.

Lemma loop_no_deny ps tr fa :
  Forall (fun q => ~ denies h ctx q) ps ->
  PolicyEngine.loop h ctx ps tr fa =
    {| EvaluationResult.Decision :=
         default PolicyEngine.defaultDeny
           (match fa with Some _ => fa | None => first_allow h ctx ps end);
       EvaluationResult.Trace :=
         match ps with
         | [] => tr
         | _ => extend tr (map (step_of h ctx) ps)
         end |}.
Proof.
  intros Hps. revert tr fa.
  induction Hps as [|q ps Hq Hps IH]; intros tr fa; simpl.
  - by destruct fa.
  - unfold step_of.
    destruct (Policy.Evaluate q h ctx) as [dq|] eqn:Eq.
    + destruct (PolicyDecision.Effect dq) eqn:Edq.
      * rewrite IH. f_equal.
        -- by destruct fa.
        -- destruct ps; [done|]. unfold extend, append. simpl.
           by rewrite <- app_assoc.
      * exfalso. apply Hq. by exists dq.
    + rewrite IH. f_equal.
      destruct ps; [done|]. unfold extend, append. simpl.
      by rewrite <- app_assoc.
Qed.

Lemma first_allow_split pre p post d :
  Forall (fun q => ~ allows h ctx q) pre ->
  decides h ctx p EffectAllow d ->
  first_allow h ctx (pre ++ p :: post) = Some d.
Proof.
  intros Hpre [Hd He].
  induction Hpre as [|q pre Hq Hpre IH]; simpl.
  - by rewrite Hd, He.
  - destruct (Policy.Evaluate q h ctx) as [dq|] eqn:Eq; [|done].
    destruct (PolicyDecision.Effect dq) eqn:Edq; [|done].
    exfalso. apply Hq. by exists dq.
Qed.

Lemma first_allow_none ps :
  Forall (fun q => ~ allows h ctx q) ps -> first_allow h ctx ps = None.
Proof.
  induction 1 as [|q ps Hq Hps IH]; simpl; [done|].
  destruct (Policy.Evaluate q h ctx) as [dq|] eqn:Eq; [|done].
  destruct (PolicyDecision.Effect dq) eqn:Edq; [|done].
  exfalso. apply Hq. by exists dq.
Qed.

Lemma step_of_no_deny p :
  ~ denies h ctx p -> is_deny_step (step_of h ctx p) = false.
Proof.
  intros Hn. unfold step_of, is_deny_step.
  destruct (Policy.Evaluate p h ctx) as [d|] eqn:E; [|done].
  destruct (PolicyDecision.Effect d) eqn:Ed; [done|].
  exfalso. apply Hn. by exists d.
Qed.
End Loop.

(** ** The engine's resolution strategy *)

(** C1.  [Evaluate] scans the policy sequence in order.  The first policy that
    denies ends the scan: its decision is returned and the trace holds the
    rows of the policies before it and its own Deny row, nothing of the
    policies after it.  Without a Deny every policy gets its row (Abstain with
    empty reason, or Allow with the policy's reason), the decision is the
    first Allow of the sequence, and without any Allow it is the default Deny,
    named "default" with reason "No policy explicitly granted access."; an
    engine without policies returns it with an empty trace. *)
Theorem Evaluate_deny_wins_first_allow_default
    (h : Heap) (e : PolicyEngine.t) (ctx : RequestContext.t) :
  let res := PolicyEngine.Evaluate h e ctx in
  let steps := elems (EvaluationTrace.Steps (EvaluationResult.Trace res)) in
  (forall pre p post d,
      PolicyEngine.policies e = pre ++ p :: post ->
      Forall (fun q => ~ denies h ctx q) pre ->
      decides h ctx p EffectDeny d ->
      EvaluationResult.Decision res = d /\
      steps = map (step_of h ctx) pre
              ++ [ {| PolicyStep.PolicyName := Policy.Name p;
                      PolicyStep.Outcome := StepDeny;
                      PolicyStep.Reason := PolicyDecision.Reason d |} ]) /\
  (Forall (fun q => ~ denies h ctx q) (PolicyEngine.policies e) ->
      steps = map (step_of h ctx) (PolicyEngine.policies e) /\
      (forall pre p post d,
          PolicyEngine.policies e = pre ++ p :: post ->
          Forall (fun q => ~ allows h ctx q) pre ->
          decides h ctx p EffectAllow d ->
          EvaluationResult.Decision res = d) /\
      (Forall (fun q => ~ allows h ctx q) (PolicyEngine.policies e) ->
          EvaluationResult.Decision res = PolicyEngine.defaultDeny)) /\
  (forall p,
      (abstains h ctx p ->
       step_of h ctx p =
         {| PolicyStep.PolicyName := Policy.Name p;
            PolicyStep.Outcome := StepAbstain;
            PolicyStep.Reason := "" |}) /\
      (forall d, decides h ctx p EffectAllow d ->
       step_of h ctx p =
         {| PolicyStep.PolicyName := Policy.Name p;
            PolicyStep.Outcome := StepAllow;
            PolicyStep.Reason := PolicyDecision.Reason d |})) /\
  (PolicyEngine.policies e = [] ->
      EvaluationResult.Decision res = PolicyEngine.defaultDeny /\
      EvaluationTrace.Steps (EvaluationResult.Trace res) = slice_of []) /\
  PolicyEngine.defaultDeny =
    {| PolicyDecision.Effect := EffectDeny;
       PolicyDecision.PolicyName := "default";
       PolicyDecision.Reason := "No policy explicitly granted access." |}.
Proof.
  intros res steps. subst res steps. unfold PolicyEngine.Evaluate.
  split_and!.
  - intros pre p post d -> Hpre Hd.
    rewrite (loop_deny h ctx pre p post d _ _ Hpre Hd). simpl. done.
  - intros Hnd. rewrite (loop_no_deny h ctx _ _ _ Hnd). simpl. split_and!.
    + by destruct (PolicyEngine.policies e).
    + intros pre p post d Heq Hpre Hd.
      rewrite Heq. by rewrite (first_allow_split h ctx pre p post d Hpre Hd).
    + intros Hna. by rewrite (first_allow_none h ctx _ Hna).
  - intros p. split.
    + unfold abstains, step_of. by intros ->.
    + unfold step_of. by intros d [-> ->].
  - by intros ->.
  - reflexivity.
Qed.

Lemma Evaluate_deny_wins_first_allow_default_witness :
  (EvaluationResult.Decision (PolicyEngine.Evaluate blankHeap mixedEngine blankCtx) =
     {| PolicyDecision.Effect := EffectDeny;
        PolicyDecision.PolicyName := "D";
        PolicyDecision.Reason := "always deny" |} /\
   elems (EvaluationTrace.Steps
            (EvaluationResult.Trace (PolicyEngine.Evaluate blankHeap mixedEngine blankCtx))) =
     [ {| PolicyStep.PolicyName := "A"; PolicyStep.Outcome := StepAbstain;
          PolicyStep.Reason := "" |};
       {| PolicyStep.PolicyName := "B"; PolicyStep.Outcome := StepAllow;
          PolicyStep.Reason := "always allow" |};
       {| PolicyStep.PolicyName := "D"; PolicyStep.Outcome := StepDeny;
          PolicyStep.Reason := "always deny" |} ]) /\
  EvaluationResult.Decision (PolicyEngine.Evaluate blankHeap permissiveEngine blankCtx) =
    {| PolicyDecision.Effect := EffectAllow;
       PolicyDecision.PolicyName := "B";
       PolicyDecision.Reason := "always allow" |}.
Proof.
  assert (Hq : forall n, ~ denies blankHeap blankCtx (alwaysAbstain n)).
  { intros n (d & Hd & _). discriminate Hd. }
  assert (Ha : forall n, ~ denies blankHeap blankCtx (alwaysAllow n)).
  { intros n (d & Hd & He). injection Hd as <-. discriminate He. }
  split.
  - destruct (Evaluate_deny_wins_first_allow_default blankHeap mixedEngine blankCtx)
      as (H & _).
    apply (H [alwaysAbstain "A"; alwaysAllow "B"] (alwaysDeny "D") [alwaysAllow "C"]).
    + reflexivity.
    + repeat constructor; auto.
    + split; reflexivity.
  - destruct (Evaluate_deny_wins_first_allow_default blankHeap permissiveEngine blankCtx)
      as (_ & H & _).
    destruct H as (_ & H & _).
    + repeat constructor; auto.
    + apply (H [alwaysAbstain "A"] (alwaysAllow "B") [alwaysAllow "C"]).
      * reflexivity.
      * repeat constructor. intros (d & Hd & _). discriminate Hd.
      * split; reflexivity.
Defined.

(** C10.  A trace has at most one Deny row.  If it has one, that row is the
    last one, it is the row of a registered policy that denied the request,
    and the decision returned is that policy's decision. *)
Theorem Evaluate_single_final_deny
    (h : Heap) (e : PolicyEngine.t) (ctx : RequestContext.t) :
  let res := PolicyEngine.Evaluate h e ctx in
  let steps := elems (EvaluationTrace.Steps (EvaluationResult.Trace res)) in
  length (List.filter is_deny_step steps) <= 1 /\
  (forall i s,
      steps !! i = Some s ->
      PolicyStep.Outcome s = StepDeny ->
      S i = length steps /\
      exists p d,
        p ∈ PolicyEngine.policies e /\
        decides h ctx p EffectDeny d /\
        EvaluationResult.Decision res = d /\
        PolicyDecision.Effect (EvaluationResult.Decision res) = EffectDeny /\
        s = {| PolicyStep.PolicyName := Policy.Name p;
               PolicyStep.Outcome := StepDeny;
               PolicyStep.Reason := PolicyDecision.Reason d |}).
Proof.
  intros res steps.
  assert (Hnone : forall qs, Forall (fun q => ~ denies h ctx q) qs ->
            List.filter is_deny_step (map (step_of h ctx) qs) = []).
  { induction 1 as [|q qs Hq _ IH]; simpl; [done|].
    by rewrite (step_of_no_deny h ctx q Hq). }
  assert (Hrow : forall qs i s, Forall (fun q => ~ denies h ctx q) qs ->
            map (step_of h ctx) qs !! i = Some s ->
            PolicyStep.Outcome s = StepDeny -> False).
  { intros qs i s Hqs Hi Hs.
    rewrite list_lookup_fmap in Hi.
    destruct (qs !! i) as [q|] eqn:Eq; [|done].
    injection Hi as <-.
    assert (Hq : ~ denies h ctx q).
    { rewrite Forall_forall in Hqs. apply Hqs. by eapply list_elem_of_lookup_2. }
    apply (step_of_no_deny h ctx) in Hq. unfold is_deny_step in Hq.
    by rewrite Hs in Hq. }
  subst res steps. unfold PolicyEngine.Evaluate.
  destruct (first_deny_split h ctx (PolicyEngine.policies e))
    as [Hnd|(pre & p & post & d & Heq & Hpre & Hd)].
  - rewrite (loop_no_deny h ctx _ _ _ Hnd). simpl.
    assert (Hsteps :
      elems (EvaluationTrace.Steps
        match PolicyEngine.policies e with
        | [] => {| EvaluationTrace.Context := ctx; EvaluationTrace.Steps := slice_of [] |}
        | _ :: _ =>
            extend {| EvaluationTrace.Context := ctx; EvaluationTrace.Steps := slice_of [] |}
              (map (step_of h ctx) (PolicyEngine.policies e))
        end) = map (step_of h ctx) (PolicyEngine.policies e)).
    { by destruct (PolicyEngine.policies e). }
    rewrite Hsteps. split.
    + rewrite (Hnone _ Hnd). simpl. lia.
    + intros i s Hi Hs. exfalso. by eapply Hrow.
  - rewrite Heq, (loop_deny h ctx pre p post d _ _ Hpre Hd). simpl. split.
    + rewrite List.filter_app, (Hnone _ Hpre). simpl. lia.
    + intros i s Hi Hs.
      destruct (decide (i < length (map (step_of h ctx) pre))) as [Hlt|Hge].
      * rewrite lookup_app_l in Hi by done. exfalso. by eapply Hrow.
      * rewrite lookup_app_r in Hi by lia.
        destruct (i - length (map (step_of h ctx) pre)) as [|k] eqn:Ek; [|done].
        simpl in Hi. injection Hi as <-.
        split.
        { rewrite length_app. simpl. lia. }
        exists p, d. split_and!; try done.
        -- apply elem_of_app. right. apply elem_of_cons. by left.
        -- by destruct Hd.
Qed.

Lemma Evaluate_single_final_deny_witness :
  3 = length (elems (EvaluationTrace.Steps
                (EvaluationResult.Trace (PolicyEngine.Evaluate blankHeap mixedEngine blankCtx)))) /\
  PolicyDecision.Effect
    (EvaluationResult.Decision (PolicyEngine.Evaluate blankHeap mixedEngine blankCtx)) =
    EffectDeny.
Proof.
  destruct (Evaluate_single_final_deny blankHeap mixedEngine blankCtx) as (_ & H).
  destruct (H 2 {| PolicyStep.PolicyName := "D"; PolicyStep.Outcome := StepDeny;
                   PolicyStep.Reason := "always deny" |} eq_refl eq_refl)
    as (Hlast & p & d & _ & _ & _ & Heff & _).
  split; [exact Hlast | exact Heff].
Defined.

(** ** Registration keeps the policy sequence sorted *)

Lemma less_spec a b :
  PolicyEngine.less a b = true <-> (Policy.Priority b < Policy.Priority a)%Z.
Proof. unfold PolicyEngine.less. apply Z.ltb_lt. Qed.

Lemma with_priority_cons k p ps :
  with_priority k (p :: ps) =
    if (Policy.Priority p =? k)%Z then p :: with_priority k ps else with_priority k ps.
Proof. reflexivity. Qed.

Lemma with_priority_app k ps qs :
  with_priority k (ps ++ qs) = with_priority k ps ++ with_priority k qs.
Proof. apply List.filter_app. Qed.

Lemma insert_Forall (P : Policy.t -> Prop) x l :
  P x -> Forall P l -> Forall P (sort.insert PolicyEngine.less x l).
Proof.
  intros Hx Hl. induction Hl as [|y l Hy Hl IH]; simpl.
  - by constructor.
  - destruct (PolicyEngine.less y x); repeat constructor; done.
Qed.

Lemma insert_sorted x l :
  StronglySorted by_priority_desc l -> StronglySorted by_priority_desc (sort.insert PolicyEngine.less x l).
Proof.
  induction 1 as [|y l Hl IH Hy]; simpl.
  - repeat constructor.
  - destruct (PolicyEngine.less y x) eqn:E.
    + apply less_spec in E. constructor; [done|].
      apply insert_Forall; [|done]. unfold by_priority_desc. lia.
    + assert (Hxy : by_priority_desc x y).
      { unfold by_priority_desc. destruct (less_spec y x) as [_ H].
        destruct (Z.le_gt_cases (Policy.Priority y) (Policy.Priority x)); [done|].
        rewrite H in E by lia. done. }
      constructor; [by constructor|].
      constructor; [done|].
      eapply Forall_impl; [exact Hy|].
      unfold by_priority_desc in *. intros z Hz. simpl in Hz. lia.
Qed.

Lemma insert_with_priority k x l :
  with_priority k (sort.insert PolicyEngine.less x l) = with_priority k (x :: l).
Proof.
  induction l as [|y l IH]; simpl; [done|].
  destruct (PolicyEngine.less y x) eqn:E; [|done].
  apply less_spec in E.
  rewrite with_priority_cons, IH, !with_priority_cons.
  destruct (Z.eqb_spec (Policy.Priority y) k), (Z.eqb_spec (Policy.Priority x) k);
    try done; lia.
Qed.

Lemma SliceStable_sorted l : StronglySorted by_priority_desc (sort.SliceStable PolicyEngine.less l).
Proof.
  induction l as [|x l IH]; simpl; [constructor|]. by apply insert_sorted.
Qed.

Lemma SliceStable_with_priority k l : with_priority k (sort.SliceStable PolicyEngine.less l) = with_priority k l.
Proof.
  induction l as [|x l IH]; simpl; [done|].
  rewrite insert_with_priority, !with_priority_cons, IH. done.
Qed.

(** Above the priority of the head of a sorted sequence there is nothing. *)
Lemma with_priority_above k a l :
  StronglySorted by_priority_desc (a :: l) ->
  (Policy.Priority a < k)%Z -> with_priority k (a :: l) = [].
Proof.
  intros Hs Hk. apply StronglySorted_inv in Hs as [_ Hall].
  rewrite with_priority_cons.
  destruct (Z.eqb_spec (Policy.Priority a) k); [lia|].
  induction Hall as [|y l Hy Hall IH]; [done|].
  rewrite with_priority_cons.
  destruct (Z.eqb_spec (Policy.Priority y) k); [|done].
  unfold by_priority_desc in Hy. lia.
Qed.

(** Sortedness and the order inside each priority class determine the
    sequence. *)
Lemma sorted_classes_eq l1 l2 :
  StronglySorted by_priority_desc l1 ->
  StronglySorted by_priority_desc l2 ->
  (forall k, with_priority k l1 = with_priority k l2) ->
  l1 = l2.
Proof.
  revert l2. induction l1 as [|a l1 IH]; intros l2 H1 H2 Hk.
  - destruct l2 as [|b l2]; [done|].
    specialize (Hk (Policy.Priority b)). rewrite with_priority_cons, Z.eqb_refl in Hk.
    done.
  - destruct l2 as [|b l2].
    { specialize (Hk (Policy.Priority a)). rewrite with_priority_cons, Z.eqb_refl in Hk.
      done. }
    assert (Hab : Policy.Priority a = Policy.Priority b).
    { destruct (Z.lt_total (Policy.Priority a) (Policy.Priority b)) as [Hlt|[He|Hgt]];
        [|done|].
      - specialize (Hk (Policy.Priority b)).
        rewrite (with_priority_above _ _ _ H1 Hlt) in Hk.
        rewrite with_priority_cons, Z.eqb_refl in Hk. done.
      - specialize (Hk (Policy.Priority a)).
        rewrite (with_priority_above _ _ _ H2 Hgt) in Hk.
        rewrite with_priority_cons, Z.eqb_refl in Hk. done. }
    assert (Hhd : a = b).
    { specialize (Hk (Policy.Priority a)).
      rewrite !with_priority_cons, <- Hab, Z.eqb_refl in Hk. congruence. }
    subst b. f_equal. apply IH.
    + by apply StronglySorted_inv in H1 as [? _].
    + by apply StronglySorted_inv in H2 as [? _].
    + intros k. specialize (Hk k). rewrite !with_priority_cons in Hk.
      destruct (Policy.Priority a =? k)%Z; congruence.
Qed.

(** The contract of a stable sort has one solution. *)
Lemma SliceStable_unique l l' :
  StronglySorted by_priority_desc l' ->
  (forall k, with_priority k l' = with_priority k l) ->
  l' = sort.SliceStable PolicyEngine.less l.
Proof.
  intros Hs Hk. apply sorted_classes_eq; [done|apply SliceStable_sorted|].
  intros k. by rewrite Hk, SliceStable_with_priority.
Qed.

Lemma registered_snoc ps p :
  registered (ps ++ [p]) = PolicyEngine.RegisterPolicy (registered ps) p.
Proof. unfold registered. by rewrite fold_left_app. Qed.

Lemma registered_sorted ps :
  StronglySorted by_priority_desc (PolicyEngine.policies (registered ps)).
Proof.
  destruct ps as [|p ps] using rev_ind; [constructor|].
  rewrite registered_snoc. apply SliceStable_sorted.
Qed.

Lemma registered_with_priority k ps :
  with_priority k (PolicyEngine.policies (registered ps)) = with_priority k ps.
Proof.
  induction ps as [|p ps IH] using rev_ind; [done|].
  rewrite registered_snoc. simpl.
  by rewrite SliceStable_with_priority, !with_priority_app, IH.
Qed.

(** Re-sorting on every call or sorting once gives the same engine. *)
Lemma registered_SliceStable ps :
  PolicyEngine.policies (registered ps) = sort.SliceStable PolicyEngine.less ps.
Proof.
  apply SliceStable_unique; [apply registered_sorted|].
  intros k. apply registered_with_priority.
Qed.
Lemma allows_not_denies h ctx p : allows h ctx p -> ~ denies h ctx p.
Proof.
  intros (d & Hd & He) (d' & Hd' & He'). congruence.
Qed.

(** C2 (as amended).  After any sequence of registrations the policy sequence
    is sorted by descending priority and, within each priority, in the order
    of registration.  So a policy of priority -1 registered before one of
    priority 0 stands after it and is consulted after it; and when the
    priority-0 policy allows and the priority -1 policy does not deny, that
    Allow is the decision. *)
Theorem RegisterPolicy_sorted_stable :
  (forall ps,
      let e := registered ps in
      StronglySorted by_priority_desc (PolicyEngine.policies e) /\
      (forall k, with_priority k (PolicyEngine.policies e) = with_priority k ps)) /\
  (forall h ctx low high,
      Policy.Priority low = (-1)%Z ->
      Policy.Priority high = 0%Z ->
      let e := PolicyEngine.RegisterPolicy (PolicyEngine.RegisterPolicy PolicyEngine.new low) high in
      let res := PolicyEngine.Evaluate h e ctx in
      PolicyEngine.policies e = [high; low] /\
      (forall d,
          decides h ctx high EffectAllow d ->
          ~ denies h ctx low ->
          EvaluationResult.Decision res = d /\
          elems (EvaluationTrace.Steps (EvaluationResult.Trace res)) =
            [step_of h ctx high; step_of h ctx low])).
Proof.
  split.
  - intros ps e. subst e. split.
    + apply registered_sorted.
    + intros k. apply registered_with_priority.
  - intros h ctx low high Hlow Hhigh e res.
    assert (He : PolicyEngine.policies e = [high; low]).
    { subst e. simpl. unfold PolicyEngine.less. rewrite Hlow, Hhigh. reflexivity. }
    split; [done|].
    intros d Hd Hnd. subst res. unfold PolicyEngine.Evaluate. rewrite He.
    assert (Hall : Forall (fun q => ~ denies h ctx q) [high; low]).
    { repeat constructor; [|done]. apply allows_not_denies. by exists d. }
    rewrite (loop_no_deny h ctx _ _ _ Hall). simpl. split; [|done].
    destruct Hd as [-> ->]. done.
Qed.

Lemma RegisterPolicy_sorted_stable_witness :
  let low := at_priority (-1) (alwaysAbstain "NegativePriority") in
  let high := alwaysAllow "ZeroPriority" in
  let e := PolicyEngine.RegisterPolicy (PolicyEngine.RegisterPolicy PolicyEngine.new low) high in
  PolicyDecision.PolicyName
    (EvaluationResult.Decision (PolicyEngine.Evaluate blankHeap e blankCtx)) = "ZeroPriority" /\
  map PolicyStep.PolicyName
    (elems (EvaluationTrace.Steps
       (EvaluationResult.Trace (PolicyEngine.Evaluate blankHeap e blankCtx)))) =
    ["ZeroPriority"; "NegativePriority"].
Proof.
  intros low high e.
  destruct RegisterPolicy_sorted_stable as [_ H].
  destruct (H blankHeap blankCtx low high eq_refl eq_refl) as [_ H'].
  destruct (H' {| PolicyDecision.Effect := EffectAllow;
                  PolicyDecision.PolicyName := "ZeroPriority";
                  PolicyDecision.Reason := "always allow" |}) as [Hd Hs].
  - split; reflexivity.
  - intros (d & Hd & _). discriminate Hd.
  - subst e. rewrite Hd, Hs. split; reflexivity.
Defined.

(** C2 as written fails when the priority -1 policy denies: the priority-0
    Allow is recorded, the scan goes on, and the later Deny wins. *)
Lemma zero_priority_allow_overridden_by_late_deny :
  let low := at_priority (-1) (alwaysDeny "NegativePriority") in
  let high := alwaysAllow "ZeroPriority" in
  let allow :=
    {| PolicyDecision.Effect := EffectAllow;
       PolicyDecision.PolicyName := "ZeroPriority";
       PolicyDecision.Reason := "always allow" |} in
  let e := PolicyEngine.RegisterPolicy (PolicyEngine.RegisterPolicy PolicyEngine.new low) high in
  Policy.Priority low = (-1)%Z /\
  Policy.Priority high = 0%Z /\
  decides blankHeap blankCtx high EffectAllow allow /\
  EvaluationResult.Decision (PolicyEngine.Evaluate blankHeap e blankCtx) <> allow /\
  EvaluationResult.Decision (PolicyEngine.Evaluate blankHeap e blankCtx) =
    {| PolicyDecision.Effect := EffectDeny;
       PolicyDecision.PolicyName := "NegativePriority";
       PolicyDecision.Reason := "always deny" |}.
Proof.
  cbv zeta. split_and!; try reflexivity.
  - split; reflexivity.
  - discriminate.
Qed.

(** ** The default engine *)

Lemma DefaultPolicyEngine_policies :
  PolicyEngine.policies DefaultPolicyEngine =
    [AdminFullAccess; MFARequiredForRestricted; ProductionImmutability;
     AnalystReadOnly; EngineerAccess].
Proof. reflexivity. Qed.

(** C3.  On the default engine, an engineer reading a restricted resource in
    staging without verified MFA is denied by MFARequiredForRestricted;
    EngineerAccess abstains on the request. *)
Theorem default_engine_mfa_gate (h : Heap) (ctx : RequestContext.t) :
  Principal.Role (RequestContext.Principal ctx) = "engineer" ->
  Resource.Classification (RequestContext.Resource ctx) = "restricted" ->
  Action.Verb (RequestContext.Action ctx) = "read" ->
  RequestContext.Environment ctx = "staging" ->
  RequestContext.MFAVerified ctx = false ->
  let res := PolicyEngine.Evaluate h DefaultPolicyEngine ctx in
  PolicyDecision.Effect (EvaluationResult.Decision res) = EffectDeny /\
  PolicyDecision.PolicyName (EvaluationResult.Decision res) = "MFARequiredForRestricted" /\
  PolicyDecision.PolicyName (EvaluationResult.Decision res) <> "EngineerAccess" /\
  abstains h ctx EngineerAccess /\
  map Policy.Name (PolicyEngine.policies DefaultPolicyEngine) =
    ["AdminFullAccess"; "MFARequiredForRestricted"; "ProductionImmutability";
     "AnalystReadOnly"; "EngineerAccess"] /\
  Forall (fun p => Policy.Priority p = 0%Z) (PolicyEngine.policies DefaultPolicyEngine).
Proof.
  intros Hrole Hclass Hverb Henv Hmfa res. subst res.
  unfold PolicyEngine.Evaluate, abstains. rewrite DefaultPolicyEngine_policies.
  simpl. rewrite Hrole, Hclass, Hmfa. simpl.
  split_and!; try done.
  repeat constructor.
Qed.

Lemma default_engine_mfa_gate_witness :
  PolicyDecision.Effect
    (EvaluationResult.Decision
       (PolicyEngine.Evaluate blankHeap DefaultPolicyEngine engineerRestrictedCtx)) = EffectDeny /\
  PolicyDecision.PolicyName
    (EvaluationResult.Decision
       (PolicyEngine.Evaluate blankHeap DefaultPolicyEngine engineerRestrictedCtx)) =
    "MFARequiredForRestricted".
Proof.
  destruct (default_engine_mfa_gate blankHeap engineerRestrictedCtx
              eq_refl eq_refl eq_refl eq_refl eq_refl) as (H1 & H2 & _).
  split; [exact H1 | exact H2].
Defined.

(** ** Combinators *)

Section Combinators.
Variables (h : Heap) (ctx : RequestContext.t) (name : string).

Lemma allows_dec p : allows h ctx p \/ ~ allows h ctx p.
Proof.
  unfold allows, decides.
  destruct (Policy.Evaluate p h ctx) as [d|] eqn:E.
  - destruct (PolicyDecision.Effect d) eqn:Ed.
    + left. by exists d.
    + right. intros (d' & Hd & He). congruence.
  - right. intros (d' & Hd & _). congruence.
Qed.

Lemma quiet_abstains p :
  ~ allows h ctx p -> ~ denies h ctx p -> abstains h ctx p.
Proof.
  intros Ha Hd. destruct (not_denies_cases h ctx p Hd); [done|]. by destruct Ha.
Qed.

(** Either nobody allows, or the list splits at its first allower. *)
Lemma first_allow_cases (ps : list Policy.t) :
  Forall (fun q => ~ allows h ctx q) ps \/
  exists pre p post d,
    ps = pre ++ p :: post /\ Forall (fun q => ~ allows h ctx q) pre /\
    decides h ctx p EffectAllow d.
Proof.
  induction ps as [|p ps IH]; [by left|].
  destruct (allows_dec p) as [[d Hd]|Hn].
  - right. exists [], p, ps, d. split_and!; [done|constructor|done].
  - destruct IH as [IH|(pre & q & post & d & -> & Hpre & Hd)].
    + left. by constructor.
    + right. exists (p :: pre), q, post, d. split_and!; [done|by constructor|done].
Qed.

Lemma AnyOf_loop_allow pre p post d fd fdn :
  Forall (fun q => ~ allows h ctx q) pre ->
  decides h ctx p EffectAllow d ->
  AnyOf_loop h ctx name (pre ++ p :: post) fd fdn =
    Some {| PolicyDecision.Effect := EffectAllow;
            PolicyDecision.PolicyName := name;
            PolicyDecision.Reason :=
              "AnyOf allowed by sub-policy " +:+ Policy.Name p +:+ ": "
                +:+ PolicyDecision.Reason d |}.
Proof.
  intros Hpre [Hd He]. revert fd fdn.
  induction Hpre as [|q pre Hq Hpre IH]; intros fd fdn; simpl.
  - by rewrite Hd, He.
  - destruct (Policy.Evaluate q h ctx) as [dq|] eqn:Eq; [|apply IH].
    destruct (PolicyDecision.Effect dq) eqn:Edq.
    + exfalso. apply Hq. by exists dq.
    + destruct fd; apply IH.
Qed.

Lemma AnyOf_loop_skip pre rest fd fdn :
  Forall (abstains h ctx) pre ->
  AnyOf_loop h ctx name (pre ++ rest) fd fdn = AnyOf_loop h ctx name rest fd fdn.
Proof.
  induction 1 as [|q pre Hq Hpre IH]; simpl; [done|].
  unfold abstains in Hq. by rewrite Hq.
Qed.

Lemma AnyOf_loop_denied ps d0 n0 :
  Forall (fun q => ~ allows h ctx q) ps ->
  AnyOf_loop h ctx name ps (Some d0) n0 =
    Some {| PolicyDecision.Effect := EffectDeny;
            PolicyDecision.PolicyName := name;
            PolicyDecision.Reason :=
              "AnyOf denied by sub-policy " +:+ n0 +:+ ": " +:+ PolicyDecision.Reason d0 |}.
Proof.
  induction 1 as [|q ps Hq Hps IH]; simpl; [done|].
  destruct (Policy.Evaluate q h ctx) as [dq|] eqn:Eq; [|done].
  destruct (PolicyDecision.Effect dq) eqn:Edq; [|done].
  exfalso. apply Hq. by exists dq.
Qed.

Lemma NoneOf_loop_block pre p post d :
  Forall (fun q => ~ allows h ctx q) pre ->
  decides h ctx p EffectAllow d ->
  NoneOf_loop h ctx name (pre ++ p :: post) =
    Some {| PolicyDecision.Effect := EffectDeny;
            PolicyDecision.PolicyName := name;
            PolicyDecision.Reason :=
              "NoneOf blocked by sub-policy " +:+ Policy.Name p +:+ ": "
                +:+ PolicyDecision.Reason d |}.
Proof.
  intros Hpre [Hd He].
  induction Hpre as [|q pre Hq Hpre IH]; simpl.
  - by rewrite Hd, He.
  - destruct (Policy.Evaluate q h ctx) as [dq|] eqn:Eq; [|done].
    destruct (PolicyDecision.Effect dq) eqn:Edq; [|done].
    exfalso. apply Hq. by exists dq.
Qed.

Lemma NoneOf_loop_quiet ps :
  Forall (fun q => ~ allows h ctx q) ps -> NoneOf_loop h ctx name ps = None.
Proof.
  induction 1 as [|q ps Hq Hps IH]; simpl; [done|].
  destruct (Policy.Evaluate q h ctx) as [dq|] eqn:Eq; [|done].
  destruct (PolicyDecision.Effect dq) eqn:Edq; [|done].
  exfalso. apply Hq. by exists dq.
Qed.
End Combinators.

(** C4.  [AnyOf] allows on the first sub-policy that allows, naming it and
    its reason; when none allows it denies with the name and reason of the
    first sub-policy that denies; when all abstain it abstains. *)
Theorem AnyOf_first_allow_else_first_deny
    (h : Heap) (ctx : RequestContext.t) (name : string) (policies : list Policy.t) :
  let r := Policy.Evaluate (AnyOf name policies) h ctx in
  (forall pre p post d,
      policies = pre ++ p :: post ->
      Forall (fun q => ~ allows h ctx q) pre ->
      decides h ctx p EffectAllow d ->
      r = Some {| PolicyDecision.Effect := EffectAllow;
                  PolicyDecision.PolicyName := name;
                  PolicyDecision.Reason :=
                    "AnyOf allowed by sub-policy " +:+ Policy.Name p +:+ ": "
                      +:+ PolicyDecision.Reason d |}) /\
  (Forall (fun q => ~ allows h ctx q) policies ->
   forall pre p post d,
      policies = pre ++ p :: post ->
      Forall (fun q => ~ denies h ctx q) pre ->
      decides h ctx p EffectDeny d ->
      r = Some {| PolicyDecision.Effect := EffectDeny;
                  PolicyDecision.PolicyName := name;
                  PolicyDecision.Reason :=
                    "AnyOf denied by sub-policy " +:+ Policy.Name p +:+ ": "
                      +:+ PolicyDecision.Reason d |}) /\
  (Forall (abstains h ctx) policies -> r = None).
Proof.
  intros r. subst r. simpl. split_and!.
  - intros pre p post d -> Hpre Hd. by apply AnyOf_loop_allow.
  - intros Hna pre p post d -> Hpre Hd.
    apply Forall_app in Hna as [Hna_pre Hna_post].
    apply Forall_cons in Hna_post as [_ Hna_post].
    assert (Habs : Forall (abstains h ctx) pre).
    { rewrite Forall_forall in Hna_pre, Hpre |- *. intros q Hq.
      apply quiet_abstains; auto. }
    rewrite AnyOf_loop_skip by done. simpl.
    destruct Hd as [Hd He]. rewrite Hd, He.
    by apply AnyOf_loop_denied.
  - intros Habs.
    rewrite <- (app_nil_r policies). by rewrite AnyOf_loop_skip.
Qed.

Lemma AnyOf_first_allow_else_first_deny_witness :
  Policy.Evaluate
    (AnyOf "X" [alwaysAbstain "A"; alwaysDeny "D"; alwaysAllow "B"; alwaysAllow "C"])
    blankHeap blankCtx =
    Some {| PolicyDecision.Effect := EffectAllow;
            PolicyDecision.PolicyName := "X";
            PolicyDecision.Reason := "AnyOf allowed by sub-policy B: always allow" |} /\
  Policy.Evaluate
    (AnyOf "X" [alwaysAbstain "A"; alwaysDeny "D"; alwaysDeny "E"])
    blankHeap blankCtx =
    Some {| PolicyDecision.Effect := EffectDeny;
            PolicyDecision.PolicyName := "X";
            PolicyDecision.Reason := "AnyOf denied by sub-policy D: always deny" |} /\
  Policy.Evaluate (AnyOf "X" [alwaysAbstain "A"; alwaysAbstain "B"]) blankHeap blankCtx = None.
Proof.
  assert (Hno_allow : forall n, ~ allows blankHeap blankCtx (alwaysDeny n)).
  { intros n (d & Hd & He). injection Hd as <-. discriminate He. }
  assert (Hquiet : forall n, ~ allows blankHeap blankCtx (alwaysAbstain n)).
  { intros n (d & Hd & _). discriminate Hd. }
  split_and!.
  - pose proof (AnyOf_first_allow_else_first_deny blankHeap blankCtx "X"
      [alwaysAbstain "A"; alwaysDeny "D"; alwaysAllow "B"; alwaysAllow "C"]) as (H & _ & _).
    apply (H [alwaysAbstain "A"; alwaysDeny "D"] (alwaysAllow "B") [alwaysAllow "C"]
             {| PolicyDecision.Effect := EffectAllow;
                PolicyDecision.PolicyName := "B";
                PolicyDecision.Reason := "always allow" |}).
    + reflexivity.
    + repeat constructor; auto.
    + split; reflexivity.
  - pose proof (AnyOf_first_allow_else_first_deny blankHeap blankCtx "X"
      [alwaysAbstain "A"; alwaysDeny "D"; alwaysDeny "E"]) as (_ & H & _).
    apply (H ltac:(repeat constructor; auto)
             [alwaysAbstain "A"] (alwaysDeny "D") [alwaysDeny "E"]
             {| PolicyDecision.Effect := EffectDeny;
                PolicyDecision.PolicyName := "D";
                PolicyDecision.Reason := "always deny" |}).
    + reflexivity.
    + repeat constructor. intros (d & Hd & _). discriminate Hd.
    + split; reflexivity.
  - pose proof (AnyOf_first_allow_else_first_deny blankHeap blankCtx "X"
      [alwaysAbstain "A"; alwaysAbstain "B"]) as (_ & _ & H).
    apply H. repeat constructor.
Defined.

(** C5.  [NoneOf] denies exactly when some sub-policy allows, naming the
    first such sub-policy and its reason; otherwise, whatever the
    sub-policies deny, it abstains. *)
Theorem NoneOf_blocks_first_allow_only
    (h : Heap) (ctx : RequestContext.t) (name : string) (policies : list Policy.t) :
  let r := Policy.Evaluate (NoneOf name policies) h ctx in
  (forall pre p post d,
      policies = pre ++ p :: post ->
      Forall (fun q => ~ allows h ctx q) pre ->
      decides h ctx p EffectAllow d ->
      r = Some {| PolicyDecision.Effect := EffectDeny;
                  PolicyDecision.PolicyName := name;
                  PolicyDecision.Reason :=
                    "NoneOf blocked by sub-policy " +:+ Policy.Name p +:+ ": "
                      +:+ PolicyDecision.Reason d |}) /\
  (Forall (fun q => ~ allows h ctx q) policies -> r = None) /\
  ((exists d, r = Some d /\ PolicyDecision.Effect d = EffectDeny) <->
   Exists (allows h ctx) policies) /\
  (forall d, r = Some d -> PolicyDecision.Effect d = EffectDeny).
Proof.
  intros r. subst r. simpl.
  assert (Hblock : forall pre p post d,
    policies = pre ++ p :: post ->
    Forall (fun q => ~ allows h ctx q) pre ->
    decides h ctx p EffectAllow d ->
    NoneOf_loop h ctx name policies =
      Some {| PolicyDecision.Effect := EffectDeny;
              PolicyDecision.PolicyName := name;
              PolicyDecision.Reason :=
                "NoneOf blocked by sub-policy " +:+ Policy.Name p +:+ ": "
                  +:+ PolicyDecision.Reason d |}).
  { intros pre p post d -> Hpre Hd. by apply NoneOf_loop_block. }
  split_and!.
  - exact Hblock.
  - apply NoneOf_loop_quiet.
  - split.
    + intros (d & Hr & _).
      destruct (first_allow_cases h ctx policies)
        as [Hq|(pre & p & post & d' & Heq & _ & Hd')].
      * rewrite (NoneOf_loop_quiet h ctx name _ Hq) in Hr. discriminate Hr.
      * rewrite Heq. apply Exists_app. right. apply Exists_cons. left. by exists d'.
    + intros Hex.
      destruct (first_allow_cases h ctx policies)
        as [Hq|(pre & p & post & d' & Heq & Hpre & Hd')].
      * exfalso. rewrite Forall_forall in Hq. apply Exists_exists in Hex as (q & Hin & Hq').
        by apply (Hq q).
      * rewrite (Hblock _ _ _ _ Heq Hpre Hd'). eexists. split; reflexivity.
  - intros d Hr.
    destruct (first_allow_cases h ctx policies)
      as [Hq|(pre & p & post & d' & Heq & Hpre & Hd')].
    + rewrite (NoneOf_loop_quiet h ctx name _ Hq) in Hr. discriminate Hr.
    + rewrite (Hblock _ _ _ _ Heq Hpre Hd') in Hr. by injection Hr as <-.
Qed.

Lemma NoneOf_blocks_first_allow_only_witness :
  Policy.Evaluate (NoneOf "X" [alwaysAbstain "A"; alwaysAllow "B"]) blankHeap blankCtx =
    Some {| PolicyDecision.Effect := EffectDeny;
            PolicyDecision.PolicyName := "X";
            PolicyDecision.Reason := "NoneOf blocked by sub-policy B: always allow" |} /\
  Policy.Evaluate (NoneOf "X" [alwaysDeny "A"; alwaysDeny "B"]) blankHeap blankCtx = None.
Proof.
  split.
  - pose proof (NoneOf_blocks_first_allow_only blankHeap blankCtx "X"
      [alwaysAbstain "A"; alwaysAllow "B"]) as (H & _).
    apply (H [alwaysAbstain "A"] (alwaysAllow "B") []
             {| PolicyDecision.Effect := EffectAllow;
                PolicyDecision.PolicyName := "B";
                PolicyDecision.Reason := "always allow" |}).
    + reflexivity.
    + repeat constructor. intros (d & Hd & _). discriminate Hd.
    + split; reflexivity.
  - pose proof (NoneOf_blocks_first_allow_only blankHeap blankCtx "X"
      [alwaysDeny "A"; alwaysDeny "B"]) as (_ & H & _).
    apply H. repeat constructor; intros (d & Hd & He); injection Hd as <-; discriminate He.
Defined.

(** ** The compliance checker *)

Lemma Evaluate_fold h resource rules id vs :
  fold_left
    (fun report rule =>
       if negb (ComplianceRule.Check rule h resource) then
         {| ComplianceReport.ResourceID := ComplianceReport.ResourceID report;
            ComplianceReport.Violations :=
              append (ComplianceReport.Violations report)
                (Sprintf_violation (ComplianceRule.Name rule)
                   (ComplianceRule.Description rule)) |}
       else report)
    rules
    {| ComplianceReport.ResourceID := id; ComplianceReport.Violations := slice_of vs |} =
  {| ComplianceReport.ResourceID := id;
     ComplianceReport.Violations :=
       slice_of (vs ++ map violation_of (List.filter (fails h resource) rules)) |}.
Proof.
  revert vs. induction rules as [|rule rules IH]; intros vs; simpl.
  - by rewrite app_nil_r.
  - unfold fails at 1. destruct (negb (ComplianceRule.Check rule h resource)); simpl.
    + unfold append. simpl. rewrite IH. by rewrite <- app_assoc.
    + apply IH.
Qed.

Lemma with_rules_rules rs : ComplianceChecker.rules (with_rules rs) = rs.
Proof.
  unfold with_rules.
  induction rs as [|r rs IH] using rev_ind; [done|].
  rewrite fold_left_app. simpl. by rewrite IH.
Qed.

(** C6.  The report of [Evaluate] carries the resource's identifier and, for
    every registered rule whose check fails, in registration order and with
    no rule left out, the finding "[<RuleName>] <RuleDescription>";
    [Compliant] holds of a report exactly when it has no finding. *)
Theorem ComplianceChecker_Evaluate_exhaustive
    (h : Heap) (c : ComplianceChecker.t) (resource : Resource.t) :
  let report := ComplianceChecker.Evaluate h c resource in
  ComplianceReport.ResourceID report = Resource.ID resource /\
  ComplianceReport.Violations report =
    slice_of
      (map (fun rule =>
              "[" +:+ ComplianceRule.Name rule +:+ "] " +:+ ComplianceRule.Description rule)
         (List.filter (fun rule => negb (ComplianceRule.Check rule h resource))
            (ComplianceChecker.rules c))) /\
  (ComplianceReport.Compliant report = true <->
   elems (ComplianceReport.Violations report) = []) /\
  (forall r : ComplianceReport.t,
      ComplianceReport.Compliant r = true <-> elems (ComplianceReport.Violations r) = []) /\
  (forall rs, ComplianceChecker.rules (with_rules rs) = rs).
Proof.
  intros report.
  assert (Hc : forall r : ComplianceReport.t,
    ComplianceReport.Compliant r = true <-> elems (ComplianceReport.Violations r) = []).
  { intros r. unfold ComplianceReport.Compliant, len.
    destruct (elems (ComplianceReport.Violations r)); simpl; split; done. }
  subst report. unfold ComplianceChecker.Evaluate. rewrite Evaluate_fold.
  split_and!.
  - reflexivity.
  - reflexivity.
  - exact (Hc _).
  - exact Hc.
  - apply with_rules_rules.
Qed.

Lemma AddRuleSet_rules c rs :
  ComplianceChecker.rules (ComplianceChecker.AddRuleSet c rs) =
    ComplianceChecker.rules c ++ map (prefixed (RuleSet.Name rs)) (RuleSet.Rules rs).
Proof.
  unfold ComplianceChecker.AddRuleSet.
  generalize (RuleSet.Name rs) as n. intros n. revert c.
  induction (RuleSet.Rules rs) as [|rule rules IH]; intros c; simpl.
  - by rewrite app_nil_r.
  - rewrite IH. simpl. by rewrite <- app_assoc.
Qed.

(** ** JSON rendering *)

(** C8.  An [EvaluationResult] renders as an object with [decision] and
    [trace]; the trace object holds [principal], [resource], [action] and
    [environment] (the identifiers, verb and environment label of the captured
    context) next to [steps], has no [context] member, and [steps] is an array
    also when the step slice is nil.  A [ComplianceReport] renders with
    [resource_id], [compliant] computed from the emptiness of the violations,
    and [violations] as an array also when the slice is nil or empty. *)
Theorem MarshalJSON_shapes :
  (forall r : EvaluationResult.t,
      let c := EvaluationTrace.Context (EvaluationResult.Trace r) in
      let trace :=
        JObject
          [ ("principal", JString (Principal.ID (RequestContext.Principal c)));
            ("resource", JString (Resource.ID (RequestContext.Resource c)));
            ("action", JString (Action.Verb (RequestContext.Action c)));
            ("environment", JString (RequestContext.Environment c));
            ("steps",
             JArray (map json.Marshal_PolicyStep
                       (elems (EvaluationTrace.Steps (EvaluationResult.Trace r))))) ] in
      json.EvaluationResult_MarshalJSON r =
        JObject [ ("decision", json.Marshal_PolicyDecision (EvaluationResult.Decision r));
                  ("trace", trace) ] /\
      json.member "context" trace = None /\
      (elems (EvaluationTrace.Steps (EvaluationResult.Trace r)) = [] ->
       json.member "steps" trace = Some (JArray []))) /\
  (forall r : ComplianceReport.t,
      json.ComplianceReport_MarshalJSON r =
        JObject
          [ ("resource_id", JString (ComplianceReport.ResourceID r));
            ("compliant", JBool (is_empty (elems (ComplianceReport.Violations r))));
            ("violations", JArray (map JString (elems (ComplianceReport.Violations r)))) ]).
Proof.
  split.
  - intros r c trace. subst c trace. split_and!.
    + unfold json.EvaluationResult_MarshalJSON.
      by destruct (EvaluationTrace.Steps (EvaluationResult.Trace r)).
    + reflexivity.
    + intros Hnil. simpl. by rewrite Hnil.
  - intros r. unfold json.ComplianceReport_MarshalJSON, ComplianceReport.Compliant, len.
    destruct (ComplianceReport.Violations r) as [|vs]; simpl; [done|].
    by destruct vs.
Qed.

Lemma MarshalJSON_shapes_witness :
  json.member "trace" (json.EvaluationResult_MarshalJSON bareResult) =
    Some (JObject [ ("principal", JString "u"); ("resource", JString "r");
                    ("action", JString "read"); ("environment", JString "dev");
                    ("steps", JArray []) ]).
Proof.
  destruct MarshalJSON_shapes as (H & _).
  destruct (H bareResult) as (Heq & _ & _).
  rewrite Heq. reflexivity.
Defined.

(** ** The context captured in a trace *)

Lemma loop_context h ctx ps tr fa :
  EvaluationTrace.Context (EvaluationResult.Trace (PolicyEngine.loop h ctx ps tr fa)) =
    EvaluationTrace.Context tr.
Proof.
  revert tr fa. induction ps as [|p ps IH]; intros tr fa; simpl.
  - by destruct fa.
  - destruct (Policy.Evaluate p h ctx) as [d|]; [|by rewrite IH].
    destruct (PolicyDecision.Effect d); [by rewrite IH|done].
Qed.

Lemma Evaluate_context h e ctx :
  EvaluationTrace.Context (EvaluationResult.Trace (PolicyEngine.Evaluate h e ctx)) = ctx.
Proof. unfold PolicyEngine.Evaluate. by rewrite loop_context. Qed.

Lemma tags_of_alloc (h : Heap) m :
  tags_of (<[fresh (dom h) := ∅]> h) m = tags_of h m.
Proof.
  destruct m as [l|]; [|done]. simpl.
  destruct (decide (fresh (dom h) = l)) as [<-|Hne].
  - rewrite lookup_insert_eq.
    assert (Hfresh : h !! fresh (dom h) = None).
    { apply not_elem_of_dom. apply is_fresh. }
    by rewrite Hfresh.
  - by rewrite lookup_insert_ne.
Qed.

Lemma tags_of_other (h : Heap) l t m :
  Some l <> m -> tags_of (<[l := t]> h) m = tags_of h m.
Proof.
  intros Hne. destruct m as [l'|]; [|done]. simpl.
  rewrite lookup_insert_ne; [done|]. congruence.
Qed.

Lemma exec_spares m w st st' :
  negb (Host.writes_map w)
  || negb (bool_decide (Resource.Tags (RequestContext.Resource (Host.ctx st)) = m)) = true ->
  Host.exec w st = Some st' ->
  tags_of (Host.heap st') m = tags_of (Host.heap st) m.
Proof.
  intros Hsp Hex.
  destruct w; simpl in Hex, Hsp;
    try (injection Hex as <-; simpl; first [done | apply tags_of_alloc]).
  - apply negb_true_iff, bool_decide_eq_false in Hsp.
    destruct (Resource.Tags (RequestContext.Resource (Host.ctx st))) as [l|]; [|done].
    injection Hex as <-. simpl. by apply tags_of_other.
  - apply negb_true_iff, bool_decide_eq_false in Hsp.
    destruct (Resource.Tags (RequestContext.Resource (Host.ctx st))) as [l|].
    + injection Hex as <-. simpl. by apply tags_of_other.
    + by injection Hex as <-.
Qed.

Lemma run_spares m ws st st' :
  Host.spares m ws st = true ->
  Host.run ws st = Some st' ->
  tags_of (Host.heap st') m = tags_of (Host.heap st) m.
Proof.
  revert st. induction ws as [|w ws IH]; intros st Hsp Hrun; simpl in *.
  - by injection Hrun as <-.
  - apply andb_true_iff in Hsp as [Hw Hrest].
    destruct (Host.exec w st) as [st1|] eqn:Hex; [|done].
    rewrite (IH st1 Hrest Hrun). by eapply exec_spares.
Qed.

(** C9 (as amended).  The context captured in the trace is a copy of the
    [RequestContext] value that [Evaluate] received, and it holds the same tag
    map as the input, not a copy of it.  Whatever the host later assigns to
    its own [RequestContext] variable or its fields, and whatever it writes
    through other maps, what the trace shows of the context stays as it was,
    provided no write goes through the tag map that the input carried. *)
Theorem trace_context_is_shallow_copy
    (h : Heap) (e : PolicyEngine.t) (c : RequestContext.t)
    (ws : list Host.Write) (st' : Host.State) :
  let snap := EvaluationTrace.Context (EvaluationResult.Trace (PolicyEngine.Evaluate h e c)) in
  Host.spares (Resource.Tags (RequestContext.Resource c)) ws
    {| Host.ctx := c; Host.heap := h |} = true ->
  Host.run ws {| Host.ctx := c; Host.heap := h |} = Some st' ->
  snap = c /\
  Resource.Tags (RequestContext.Resource snap) = Resource.Tags (RequestContext.Resource c) /\
  Host.observe (Host.heap st') snap = Host.observe h snap.
Proof.
  intros snap Hsp Hrun. subst snap. rewrite Evaluate_context.
  split_and!; [done|done|].
  unfold Host.observe. f_equal.
  apply (run_spares _ _ _ _ Hsp Hrun).
Qed.

Lemma trace_context_is_shallow_copy_witness :
  exists st',
    Host.run [Host.SetEnvironment "production"; Host.SetMFAVerified true;
              Host.MakeResourceTags; Host.TagStore "owner" "mallory"]
      {| Host.ctx := blankCtx; Host.heap := blankHeap |} = Some st' /\
    Host.observe (Host.heap st')
      (EvaluationTrace.Context
         (EvaluationResult.Trace (PolicyEngine.Evaluate blankHeap DefaultPolicyEngine blankCtx))) =
    Host.observe blankHeap
      (EvaluationTrace.Context
         (EvaluationResult.Trace (PolicyEngine.Evaluate blankHeap DefaultPolicyEngine blankCtx))).
Proof.
  destruct (Host.run [Host.SetEnvironment "production"; Host.SetMFAVerified true;
              Host.MakeResourceTags; Host.TagStore "owner" "mallory"]
      {| Host.ctx := blankCtx; Host.heap := blankHeap |}) as [st'|] eqn:Hrun.
  - exists st'. split; [reflexivity|].
    refine (proj2 (proj2 (trace_context_is_shallow_copy blankHeap DefaultPolicyEngine blankCtx
              _ st' _ Hrun))).
    vm_compute. reflexivity.
  - vm_compute in Hrun. discriminate Hrun.
Defined.

(** C9 as written fails on the tag map: a store through the caller's [Tags]
    after the evaluation shows up in the context of the trace returned
    before. *)
Lemma trace_context_shares_tag_map :
  let res := PolicyEngine.Evaluate blankHeap DefaultPolicyEngine blankCtx in
  let snap := EvaluationTrace.Context (EvaluationResult.Trace res) in
  exists st',
    Host.run [Host.TagStore "owner" "mallory"]
      {| Host.ctx := blankCtx; Host.heap := blankHeap |} = Some st' /\
    snd (Host.observe blankHeap snap) !! "owner" = None /\
    snd (Host.observe (Host.heap st') snap) !! "owner" = Some "mallory" /\
    Host.observe (Host.heap st') snap <> Host.observe blankHeap snap.
Proof.
  intros res snap. eexists. split; [reflexivity|].
  split_and!.
  - vm_compute. reflexivity.
  - vm_compute. reflexivity.
  - intros Heq. apply (f_equal (fun o => snd o !! "owner")) in Heq.
    vm_compute in Heq. discriminate Heq.
Qed.

(** ** Predicates and guarded policies *)

Lemma make_set_acc names acc k :
  has_key (fold_left (fun set e => <[e := tt]> set) names acc) k = true <->
  k ∈ names \/ has_key acc k = true.
Proof.
  revert acc. induction names as [|e names IH]; intros acc; simpl.
  - rewrite elem_of_nil. tauto.
  - rewrite IH, elem_of_cons. unfold has_key.
    destruct (decide (e = k)) as [->|Hne].
    + rewrite lookup_insert_eq. tauto.
    + rewrite lookup_insert_ne by done.
      split; [intros [?|?]; auto|intros [[?|?]|?]; auto; congruence].
Qed.

Lemma make_set_has names k : has_key (make_set names) k = true <-> k ∈ names.
Proof.
  unfold make_set. rewrite make_set_acc. unfold has_key at 1.
  rewrite lookup_empty. split; [intros [?|?]; [done|discriminate]|by left].
Qed.

(** X1.  Each of the three predicate constructors holds of a request exactly
    when the field it looks at (environment, resource type, principal role)
    is one of the names it was built from; repeated names change nothing,
    and built from no name the predicate holds of no request. *)
Theorem predicates_are_membership (names : list string) (h : Heap) (ctx : RequestContext.t) :
  (InEnvironment names h ctx = true <-> RequestContext.Environment ctx ∈ names) /\
  (ForResourceType names h ctx = true <->
   Resource.Type_ (RequestContext.Resource ctx) ∈ names) /\
  (ForRole names h ctx = true <->
   Principal.Role (RequestContext.Principal ctx) ∈ names) /\
  InEnvironment (names ++ names) h ctx = InEnvironment names h ctx /\
  InEnvironment [] h ctx = false /\
  ForResourceType [] h ctx = false /\
  ForRole [] h ctx = false.
Proof.
  unfold InEnvironment, ForResourceType, ForRole.
  split_and!.
  - apply make_set_has.
  - apply make_set_has.
  - apply make_set_has.
  - apply eq_true_iff_eq. rewrite !make_set_has, elem_of_app. tauto.
  - reflexivity.
  - reflexivity.
  - reflexivity.
Qed.

Lemma insert_fmap (f : Policy.t -> Policy.t) x l :
  (forall p, Policy.Priority (f p) = Policy.Priority p) ->
  sort.insert PolicyEngine.less (f x) (map f l) = map f (sort.insert PolicyEngine.less x l).
Proof.
  intros Hf. induction l as [|y l IH]; simpl; [done|].
  unfold PolicyEngine.less at 1 3. rewrite !Hf.
  destruct (Policy.Priority x <? Policy.Priority y)%Z; simpl; [|done].
  by rewrite IH.
Qed.

Lemma SliceStable_fmap (f : Policy.t -> Policy.t) l :
  (forall p, Policy.Priority (f p) = Policy.Priority p) ->
  sort.SliceStable PolicyEngine.less (map f l) = map f (sort.SliceStable PolicyEngine.less l).
Proof.
  intros Hf. induction l as [|x l IH]; simpl; [done|].
  by rewrite IH, insert_fmap.
Qed.

(** The loop sees of a policy its name and what it says about the request. *)
Lemma loop_ext h ctx ps ps' tr fa :
  Forall2 (fun a b => Policy.Name a = Policy.Name b /\
                      Policy.Evaluate a h ctx = Policy.Evaluate b h ctx) ps ps' ->
  PolicyEngine.loop h ctx ps tr fa = PolicyEngine.loop h ctx ps' tr fa.
Proof.
  intros H. revert tr fa.
  induction H as [|a b ps ps' [Hn He] _ IH]; intros tr fa; simpl; [done|].
  rewrite He. unfold PolicyEngine.step. rewrite Hn.
  destruct (Policy.Evaluate b h ctx) as [d|]; [|apply IH].
  destruct (PolicyDecision.Effect d); [apply IH|done].
Qed.

(** The two outcomes of [Evaluate], in closed form. *)
Lemma Evaluate_no_deny h e ctx :
  Forall (fun q => ~ denies h ctx q) (PolicyEngine.policies e) ->
  PolicyEngine.Evaluate h e ctx =
    {| EvaluationResult.Decision :=
         default PolicyEngine.defaultDeny (first_allow h ctx (PolicyEngine.policies e));
       EvaluationResult.Trace :=
         {| EvaluationTrace.Context := ctx;
            EvaluationTrace.Steps :=
              slice_of (map (step_of h ctx) (PolicyEngine.policies e)) |} |}.
Proof.
  intros Hnd. unfold PolicyEngine.Evaluate. rewrite (loop_no_deny h ctx _ _ _ Hnd).
  by destruct (PolicyEngine.policies e).
Qed.

Lemma Evaluate_deny h e ctx pre p post d :
  PolicyEngine.policies e = pre ++ p :: post ->
  Forall (fun q => ~ denies h ctx q) pre ->
  decides h ctx p EffectDeny d ->
  PolicyEngine.Evaluate h e ctx =
    {| EvaluationResult.Decision := d;
       EvaluationResult.Trace :=
         {| EvaluationTrace.Context := ctx;
            EvaluationTrace.Steps :=
              slice_of (map (step_of h ctx) pre
                        ++ [PolicyEngine.step p StepDeny (PolicyDecision.Reason d)]) |} |}.
Proof.
  intros Heq Hpre Hd. unfold PolicyEngine.Evaluate.
  by rewrite Heq, (loop_deny h ctx pre p post d _ _ Hpre Hd).
Qed.

Lemma abstains_not_denies h ctx p : abstains h ctx p -> ~ denies h ctx p.
Proof. unfold abstains. intros Ha (d & Hd & _). congruence. Qed.

Lemma abstains_not_allows h ctx p : abstains h ctx p -> ~ allows h ctx p.
Proof. unfold abstains. intros Ha (d & Hd & _). congruence. Qed.

(** X2.  Guarding every policy of an engine with the same predicate keeps
    the order of evaluation.  For a request of which the predicate holds the
    guarded engine returns what the unguarded one returns, decision and
    trace; for any other request it returns the default Deny after one
    Abstain row per policy. *)
Theorem When_guards_engine
    (predicate : PredicateFn) (ps : list Policy.t) (h : Heap) (ctx : RequestContext.t) :
  let guarded := registered (map (When predicate) ps) in
  let plain := registered ps in
  PolicyEngine.policies guarded = map (When predicate) (PolicyEngine.policies plain) /\
  (predicate h ctx = true ->
   PolicyEngine.Evaluate h guarded ctx = PolicyEngine.Evaluate h plain ctx) /\
  (predicate h ctx = false ->
   EvaluationResult.Decision (PolicyEngine.Evaluate h guarded ctx) =
     PolicyEngine.defaultDeny /\
   elems (EvaluationTrace.Steps
            (EvaluationResult.Trace (PolicyEngine.Evaluate h guarded ctx))) =
     map (fun p => {| PolicyStep.PolicyName := Policy.Name p;
                      PolicyStep.Outcome := StepAbstain;
                      PolicyStep.Reason := "" |})
         (PolicyEngine.policies plain)).
Proof.
  intros guarded plain.
  assert (Hpol : PolicyEngine.policies guarded =
                 map (When predicate) (PolicyEngine.policies plain)).
  { subst guarded plain. rewrite !registered_SliceStable.
    by apply SliceStable_fmap. }
  split_and!; [done| |].
  - intros Hp. unfold PolicyEngine.Evaluate. rewrite Hpol.
    apply loop_ext. apply Forall2_fmap_l, Forall_Forall2_diag, Forall_forall.
    intros p _. split; [done|]. simpl. by rewrite Hp.
  - intros Hp.
    assert (Habs : Forall (abstains h ctx) (PolicyEngine.policies guarded)).
    { rewrite Hpol. apply Forall_fmap, Forall_forall. intros p _.
      unfold abstains. simpl. by rewrite Hp. }
    rewrite Evaluate_no_deny
      by (eapply Forall_impl; [exact Habs|]; apply abstains_not_denies).
    rewrite first_allow_none
      by (eapply Forall_impl; [exact Habs|]; apply abstains_not_allows).
    simpl. split; [done|].
    rewrite Hpol, <- list_fmap_compose. apply list_fmap_ext.
    intros i p _. unfold step_of. simpl. by rewrite Hp.
Qed.

Lemma When_guards_engine_witness :
  EvaluationResult.Decision
    (PolicyEngine.Evaluate blankHeap
       (registered (map (When (InEnvironment ["production"])) [alwaysDeny "D"])) blankCtx) =
    PolicyEngine.defaultDeny.
Proof.
  destruct (When_guards_engine (InEnvironment ["production"]) [alwaysDeny "D"]
              blankHeap blankCtx) as (_ & _ & H).
  destruct H as [Hd _]; [vm_compute; reflexivity|exact Hd].
Defined.

(** ** What decides the outcome of an evaluation *)

Lemma first_allow_from h ctx ps d :
  first_allow h ctx ps = Some d ->
  exists p, p ∈ ps /\ decides h ctx p EffectAllow d.
Proof.
  induction ps as [|p ps IH]; simpl; [done|].
  destruct (Policy.Evaluate p h ctx) as [dp|] eqn:E.
  - destruct (PolicyDecision.Effect dp) eqn:Ed.
    + intros [= <-]. exists p. split; [apply elem_of_cons; by left|done].
    + intros H. destruct (IH H) as (q & Hq & Hd). exists q.
      split; [apply elem_of_cons; by right|done].
  - intros H. destruct (IH H) as (q & Hq & Hd). exists q.
    split; [apply elem_of_cons; by right|done].
Qed.

Lemma quiet_all_abstain h ctx ps :
  Forall (fun q => ~ denies h ctx q) ps ->
  Forall (fun q => ~ allows h ctx q) ps ->
  Forall (abstains h ctx) ps.
Proof.
  rewrite !Forall_forall. intros Hd Ha p Hp. apply quiet_abstains; auto.
Qed.

Lemma Evaluate_allow_iff h e ctx :
  PolicyDecision.Effect (EvaluationResult.Decision (PolicyEngine.Evaluate h e ctx)) = EffectAllow <->
  Forall (fun q => ~ denies h ctx q) (PolicyEngine.policies e) /\
  Exists (allows h ctx) (PolicyEngine.policies e).
Proof.
  destruct (first_deny_split h ctx (PolicyEngine.policies e))
    as [Hnd|(pre & p & post & d & Heq & Hpre & Hd)].
  - rewrite (Evaluate_no_deny h e ctx Hnd). simpl.
    destruct (first_allow_cases h ctx (PolicyEngine.policies e))
      as [Hna|(pre & p & post & d & Heq & Hpre & Hd)].
    + rewrite (first_allow_none h ctx _ Hna). simpl.
      split; [done|]. intros [_ Hex]. exfalso.
      apply Exists_exists in Hex as (q & Hq & Hqa).
      rewrite Forall_forall in Hna. by apply (Hna q).
    + assert (Hfa : first_allow h ctx (PolicyEngine.policies e) = Some d).
      { rewrite Heq. by apply first_allow_split. }
      rewrite Hfa. simpl.
      destruct Hd as [Hd He]. rewrite He.
      split; [|done]. intros _. split; [done|].
      rewrite Heq. apply Exists_app. right. apply Exists_cons. left. by exists d.
  - rewrite (Evaluate_deny h e ctx pre p post d Heq Hpre Hd). simpl.
    destruct Hd as [Hd He]. rewrite He.
    split; [done|]. intros [Hnd _]. exfalso.
    rewrite Heq in Hnd. apply Forall_app in Hnd as [_ Hnd].
    apply Forall_cons in Hnd as [Hnd _]. apply Hnd. by exists d.
Qed.

Lemma not_allow_is_deny (a : Effect) : a <> EffectAllow <-> a = EffectDeny.
Proof. destruct a; split; done. Qed.

(** X3.  Access is granted exactly when no registered policy denies the
    request and at least one allows it; in every other case, and so also
    when every policy abstains or none is registered, the decision is a
    Deny. *)
Theorem Evaluate_grants_iff (h : Heap) (e : PolicyEngine.t) (ctx : RequestContext.t) :
  let effect := PolicyDecision.Effect (EvaluationResult.Decision (PolicyEngine.Evaluate h e ctx)) in
  (effect = EffectAllow <->
   Forall (fun q => ~ denies h ctx q) (PolicyEngine.policies e) /\
   Exists (allows h ctx) (PolicyEngine.policies e)) /\
  (effect = EffectDeny <->
   Exists (denies h ctx) (PolicyEngine.policies e) \/
   Forall (fun q => ~ allows h ctx q) (PolicyEngine.policies e)).
Proof.
  intros effect. subst effect. split; [apply Evaluate_allow_iff|].
  rewrite <- not_allow_is_deny, Evaluate_allow_iff. split.
  - intros Hn.
    destruct (first_deny_split h ctx (PolicyEngine.policies e))
      as [Hnd|(pre & p & post & d & Heq & Hpre & Hd)].
    + destruct (first_allow_cases h ctx (PolicyEngine.policies e))
        as [Hna|(pre & p & post & d & Heq & Hpre & Hd)]; [by right|].
      exfalso. apply Hn. split; [done|].
      rewrite Heq. apply Exists_app. right. apply Exists_cons. left. by exists d.
    + left. rewrite Heq. apply Exists_app. right. apply Exists_cons. left. by exists d.
  - intros [Hden|Hna] [Hnd Hex].
    + apply Exists_exists in Hden as (q & Hq & Hqd).
      rewrite Forall_forall in Hnd. by apply (Hnd q).
    + apply Exists_exists in Hex as (q & Hq & Hqa).
      rewrite Forall_forall in Hna. by apply (Hna q).
Qed.

(** X4.  The decision returned is never made up: it is the decision that
    some registered policy gave for this request, or, when every registered
    policy abstained, the default Deny. *)
Theorem Evaluate_decision_provenance (h : Heap) (e : PolicyEngine.t) (ctx : RequestContext.t) :
  let decision := EvaluationResult.Decision (PolicyEngine.Evaluate h e ctx) in
  (exists p, p ∈ PolicyEngine.policies e /\ Policy.Evaluate p h ctx = Some decision) \/
  (decision = PolicyEngine.defaultDeny /\ Forall (abstains h ctx) (PolicyEngine.policies e)).
Proof.
  intros decision. subst decision.
  destruct (first_deny_split h ctx (PolicyEngine.policies e))
    as [Hnd|(pre & p & post & d & Heq & Hpre & Hd)].
  - rewrite (Evaluate_no_deny h e ctx Hnd). simpl.
    destruct (first_allow h ctx (PolicyEngine.policies e)) as [d|] eqn:Hfa; simpl.
    + left. destruct (first_allow_from h ctx _ d Hfa) as (p & Hp & Hd & _). eauto.
    + right. split; [done|]. apply quiet_all_abstain; [done|].
      apply Forall_forall. intros q Hq (dq & Hdq).
      apply list_elem_of_split in Hq as (l1 & l2 & Heq).
      destruct (first_allow_cases h ctx l1) as [Hq1|(pre & p & post & d & -> & Hpre & Hd)].
      * rewrite Heq, (first_allow_split h ctx l1 q l2 dq Hq1 Hdq) in Hfa. done.
      * rewrite Heq, <- app_assoc in Hfa. simpl in Hfa.
        rewrite (first_allow_split h ctx pre p _ d Hpre Hd) in Hfa. done.
  - rewrite (Evaluate_deny h e ctx pre p post d Heq Hpre Hd). simpl.
    left. exists p. split; [|by destruct Hd].
    rewrite Heq. apply elem_of_app. right. apply elem_of_cons. by left.
Qed.

Lemma insert_Permutation x l : sort.insert PolicyEngine.less x l ≡ₚ x :: l.
Proof.
  induction l as [|y l IH]; simpl; [done|].
  destruct (PolicyEngine.less y x); [|done].
  rewrite IH. apply Permutation_swap.
Qed.

Lemma SliceStable_Permutation l : sort.SliceStable PolicyEngine.less l ≡ₚ l.
Proof.
  induction l as [|x l IH]; simpl; [done|].
  by rewrite insert_Permutation, IH.
Qed.

Lemma RegisterPolicy_Permutation e p :
  PolicyEngine.policies (PolicyEngine.RegisterPolicy e p) ≡ₚ p :: PolicyEngine.policies e.
Proof.
  simpl. rewrite SliceStable_Permutation. by rewrite Permutation_app_comm.
Qed.

Lemma effect_eq_of_allow_iff (a b : Effect) :
  (a = EffectAllow <-> b = EffectAllow) -> a = b.
Proof. destruct a, b; intros [H1 H2]; auto; try (by rewrite H1); by rewrite H2. Qed.

(** X5.  Whether access is granted does not depend on the order of the
    policies: two engines that hold the same policies, in whatever order and
    so whatever the priorities did to it, decide every request with the same
    effect (the policy named in the decision may differ). *)
Theorem Evaluate_effect_order_independent
    (h : Heap) (e e' : PolicyEngine.t) (ctx : RequestContext.t) :
  PolicyEngine.policies e ≡ₚ PolicyEngine.policies e' ->
  PolicyDecision.Effect (EvaluationResult.Decision (PolicyEngine.Evaluate h e ctx)) =
  PolicyDecision.Effect (EvaluationResult.Decision (PolicyEngine.Evaluate h e' ctx)).
Proof.
  intros Hperm. apply effect_eq_of_allow_iff.
  rewrite (Evaluate_allow_iff h e ctx), (Evaluate_allow_iff h e' ctx).
  by rewrite Hperm.
Qed.

Lemma Evaluate_effect_order_independent_witness :
  PolicyDecision.Effect
    (EvaluationResult.Decision
       (PolicyEngine.Evaluate blankHeap
          {| PolicyEngine.policies := [alwaysAllow "A"; alwaysDeny "D"] |} blankCtx)) =
  PolicyDecision.Effect
    (EvaluationResult.Decision
       (PolicyEngine.Evaluate blankHeap
          {| PolicyEngine.policies := [alwaysDeny "D"; alwaysAllow "A"] |} blankCtx)).
Proof.
  apply (Evaluate_effect_order_independent blankHeap
           {| PolicyEngine.policies := [alwaysAllow "A"; alwaysDeny "D"] |}
           {| PolicyEngine.policies := [alwaysDeny "D"; alwaysAllow "A"] |} blankCtx).
  simpl. apply perm_swap.
Defined.

(** X6.  Registering one more policy can take access away but cannot give
    it unless the new policy itself allows: if the new policy denies the
    request the engine denies it; if it abstains the effect is what it was;
    and if it does not allow, a request granted afterwards was granted
    before. *)
Theorem RegisterPolicy_monotone
    (h : Heap) (e : PolicyEngine.t) (p : Policy.t) (ctx : RequestContext.t) :
  let before := PolicyDecision.Effect (EvaluationResult.Decision (PolicyEngine.Evaluate h e ctx)) in
  let after :=
    PolicyDecision.Effect
      (EvaluationResult.Decision
         (PolicyEngine.Evaluate h (PolicyEngine.RegisterPolicy e p) ctx)) in
  (denies h ctx p -> after = EffectDeny) /\
  (abstains h ctx p -> after = before) /\
  (~ allows h ctx p -> after = EffectAllow -> before = EffectAllow).
Proof.
  intros before after. subst before after.
  pose proof (RegisterPolicy_Permutation e p) as Hperm.
  pose proof (Evaluate_allow_iff h (PolicyEngine.RegisterPolicy e p) ctx) as Ha.
  pose proof (Evaluate_allow_iff h e ctx) as Ha'.
  split_and!.
  - intros Hden. apply not_allow_is_deny. rewrite Ha, Hperm, Forall_cons.
    intros [[Hnd _] _]. done.
  - intros Habs. apply effect_eq_of_allow_iff. rewrite Ha, Ha', Hperm.
    rewrite Forall_cons, Exists_cons. split.
    + intros [[_ Hnd] [Hp|Hex]]; [|done].
      by apply abstains_not_allows in Habs.
    + intros [Hnd Hex]. split; [|by right].
      split; [by apply abstains_not_denies|done].
  - intros Hna Hafter. apply Ha in Hafter. rewrite Hperm in Hafter.
    rewrite Forall_cons, Exists_cons in Hafter.
    destruct Hafter as [[_ Hnd] [Hp|Hex]]; [done|]. by apply Ha'.
Qed.

Lemma RegisterPolicy_monotone_witness :
  PolicyDecision.Effect
    (EvaluationResult.Decision
       (PolicyEngine.Evaluate blankHeap
          (PolicyEngine.RegisterPolicy permissiveEngine (alwaysDeny "Z")) blankCtx)) =
    EffectDeny.
Proof.
  destruct (RegisterPolicy_monotone blankHeap permissiveEngine (alwaysDeny "Z") blankCtx)
    as (H & _).
  apply H.
  exists {| PolicyDecision.Effect := EffectDeny;
            PolicyDecision.PolicyName := "Z";
            PolicyDecision.Reason := "always deny" |}.
  split; reflexivity.
Defined.

Lemma registered_Permutation ps : PolicyEngine.policies (registered ps) ≡ₚ ps.
Proof. rewrite registered_SliceStable. apply SliceStable_Permutation. Qed.

(** X7.  Registration neither loses nor duplicates a policy: after any
    sequence of registrations the engine holds exactly the registered
    policies, each as often as it was registered, and [PolicyCount] is the
    number of registrations. *)
Theorem PolicyCount_counts_registrations (ps : list Policy.t) :
  PolicyEngine.policies (registered ps) ≡ₚ ps /\
  PolicyEngine.PolicyCount (registered ps) = length ps /\
  (forall e p,
      PolicyEngine.PolicyCount (PolicyEngine.RegisterPolicy e p) =
        S (PolicyEngine.PolicyCount e)).
Proof.
  pose proof (registered_Permutation ps) as Hperm.
  split_and!.
  - exact Hperm.
  - unfold PolicyEngine.PolicyCount. by rewrite Hperm.
  - intros e p. unfold PolicyEngine.PolicyCount.
    by rewrite (RegisterPolicy_Permutation e p).
Qed.

Lemma with_priority_filter k (P : Policy.t -> bool) l :
  with_priority k (List.filter P l) = List.filter P (with_priority k l).
Proof.
  unfold with_priority. induction l as [|x l IH]; simpl; [done|].
  destruct (P x) eqn:HP, (Policy.Priority x =? k)%Z eqn:Hk; simpl;
    rewrite ?HP, ?Hk, ?IH; done.
Qed.

Lemma filter_sorted (P : Policy.t -> bool) l :
  StronglySorted by_priority_desc l -> StronglySorted by_priority_desc (List.filter P l).
Proof.
  induction 1 as [|x l Hl IH Hx]; simpl; [constructor|].
  destruct (P x); [|done]. constructor; [done|].
  apply Forall_forall. intros y Hy. rewrite Forall_forall in Hx. apply Hx.
  apply list_elem_of_In. apply list_elem_of_In, List.filter_In in Hy. by destruct Hy.
Qed.

Lemma filter_all (P : Policy.t -> bool) l :
  Forall (fun x => P x = true) l -> List.filter P l = l.
Proof. induction 1 as [|x l Hx _ IH]; simpl; [done|]. by rewrite Hx, IH. Qed.

Lemma filter_none (P : Policy.t -> bool) l :
  Forall (fun x => P x = false) l -> List.filter P l = [].
Proof. induction 1 as [|x l Hx _ IH]; simpl; [done|]. by rewrite Hx, IH. Qed.

(** X8.  A newly registered policy goes behind every policy already
    registered whose priority is at least its own and in front of every one
    of lower priority; the policies already registered keep their order. *)
Theorem RegisterPolicy_placement (ps : list Policy.t) (p : Policy.t) :
  let old := PolicyEngine.policies (registered ps) in
  PolicyEngine.policies (PolicyEngine.RegisterPolicy (registered ps) p) =
    List.filter (fun q => (Policy.Priority p <=? Policy.Priority q)%Z) old
    ++ p :: List.filter (fun q => (Policy.Priority q <? Policy.Priority p)%Z) old.
Proof.
  intros old. simpl. fold old.
  pose proof (registered_sorted ps) as Hs. fold old in Hs.
  symmetry. apply SliceStable_unique.
  - apply StronglySorted_app_2; [|by apply filter_sorted|].
    + intros x y Hx Hy.
      apply list_elem_of_In, List.filter_In in Hx as [_ Hx]. apply Z.leb_le in Hx.
      apply elem_of_cons in Hy as [->|Hy]; [done|].
      apply list_elem_of_In, List.filter_In in Hy as [_ Hy]. apply Z.ltb_lt in Hy.
      unfold by_priority_desc. lia.
    + constructor; [by apply filter_sorted|].
      apply Forall_forall. intros y Hy.
      apply list_elem_of_In, List.filter_In in Hy as [_ Hy].
      apply Z.ltb_lt in Hy. unfold by_priority_desc. lia.
  - intros k.
    rewrite !with_priority_app, !with_priority_cons, !with_priority_filter.
    change (with_priority k []) with (@nil Policy.t).
    assert (Hcls : Forall (fun x => Policy.Priority x = k) (with_priority k old)).
    { apply Forall_forall. intros x Hx.
      apply list_elem_of_In, List.filter_In in Hx as [_ Hx]. by apply Z.eqb_eq in Hx. }
    destruct (Z.eqb_spec (Policy.Priority p) k) as [He|Hne].
    + rewrite filter_all, filter_none; [done| |].
      * eapply Forall_impl; [exact Hcls|]. intros x Hx. simpl in Hx. apply Z.ltb_ge. lia.
      * eapply Forall_impl; [exact Hcls|]. intros x Hx. simpl in Hx. apply Z.leb_le. lia.
    + rewrite app_nil_r.
      destruct (Z.lt_total k (Policy.Priority p)) as [Hlt|[He|Hgt]]; [|lia|].
      * rewrite (filter_none (fun q => (Policy.Priority p <=? Policy.Priority q)%Z)),
          filter_all; [done| |].
        -- eapply Forall_impl; [exact Hcls|]. intros x Hx. simpl in Hx. apply Z.ltb_lt. lia.
        -- eapply Forall_impl; [exact Hcls|]. intros x Hx. simpl in Hx. apply Z.leb_gt. lia.
      * rewrite filter_all,
          (filter_none (fun q => (Policy.Priority q <? Policy.Priority p)%Z));
          [by rewrite app_nil_r| |].
        -- eapply Forall_impl; [exact Hcls|]. intros x Hx. simpl in Hx. apply Z.ltb_ge. lia.
        -- eapply Forall_impl; [exact Hcls|]. intros x Hx. simpl in Hx. apply Z.leb_le. lia.
Qed.

(** ** The shape of a trace *)

Lemma EvaluatedCount_fold (steps : list PolicyStep.t) (n : nat) :
  fold_left
    (fun count s =>
       match PolicyStep.Outcome s with
       | StepAbstain => count
       | _ => S count
       end) steps n =
  n + length (List.filter (fun s => negb (is_abstain_step s)) steps).
Proof.
  revert n. induction steps as [|s steps IH]; intros n; simpl; [lia|].
  rewrite IH. unfold is_abstain_step. destruct (PolicyStep.Outcome s); simpl; lia.
Qed.

Lemma filter_split_length {A} (P : A -> bool) (l : list A) :
  length (List.filter P l) + length (List.filter (fun x => negb (P x)) l) = length l.
Proof.
  induction l as [|x l IH]; simpl; [done|]. destruct (P x); simpl; lia.
Qed.

(** X9.  For every trace, also one with a nil step slice, [EvaluatedCount]
    is the number of Allow and Deny rows, [AbstainCount] is the number of
    Abstain rows (its subtraction never goes below zero), and the two add
    up to the number of rows. *)
Theorem trace_counts_partition (tr : EvaluationTrace.t) :
  let steps := elems (EvaluationTrace.Steps tr) in
  EvaluationTrace.EvaluatedCount tr =
    length (List.filter (fun s => negb (is_abstain_step s)) steps) /\
  EvaluationTrace.AbstainCount tr = length (List.filter is_abstain_step steps) /\
  EvaluationTrace.EvaluatedCount tr <= len (EvaluationTrace.Steps tr) /\
  EvaluationTrace.EvaluatedCount tr + EvaluationTrace.AbstainCount tr =
    len (EvaluationTrace.Steps tr).
Proof.
  intros steps.
  assert (He : EvaluationTrace.EvaluatedCount tr =
               length (List.filter (fun s => negb (is_abstain_step s)) steps)).
  { unfold EvaluationTrace.EvaluatedCount. by rewrite EvaluatedCount_fold. }
  pose proof (filter_split_length is_abstain_step steps) as Hsplit.
  unfold EvaluationTrace.AbstainCount, len. fold steps. rewrite He.
  split_and!; lia.
Qed.

Lemma step_of_name h ctx p : PolicyStep.PolicyName (step_of h ctx p) = Policy.Name p.
Proof.
  unfold step_of. destruct (Policy.Evaluate p h ctx) as [d|]; [|done].
  by destruct (PolicyDecision.Effect d).
Qed.

Lemma step_of_abstain h ctx p :
  is_abstain_step (step_of h ctx p) = true <-> abstains h ctx p.
Proof.
  unfold step_of, abstains, is_abstain_step.
  destruct (Policy.Evaluate p h ctx) as [d|]; [|done].
  destruct (PolicyDecision.Effect d); simpl; split; done.
Qed.

(** X10.  The rows of a trace name the policies consulted, in the engine's
    order, one row each: they follow a prefix of the policy sequence, there
    are never more rows than policies, and unless a policy denied there is a
    row for every policy.  [EvaluatedCount] of the trace is zero exactly
    when every registered policy abstained. *)
Theorem Evaluate_trace_follows_policies
    (h : Heap) (e : PolicyEngine.t) (ctx : RequestContext.t) :
  let trace := EvaluationResult.Trace (PolicyEngine.Evaluate h e ctx) in
  let steps := elems (EvaluationTrace.Steps trace) in
  map PolicyStep.PolicyName steps `prefix_of` map Policy.Name (PolicyEngine.policies e) /\
  length steps <= PolicyEngine.PolicyCount e /\
  (Forall (fun q => ~ denies h ctx q) (PolicyEngine.policies e) ->
   length steps = PolicyEngine.PolicyCount e) /\
  (EvaluationTrace.EvaluatedCount trace = 0 <->
   Forall (abstains h ctx) (PolicyEngine.policies e)).
Proof.
  intros trace steps.
  assert (Hnames : forall qs,
    map PolicyStep.PolicyName (map (step_of h ctx) qs) = map Policy.Name qs).
  { intros qs. rewrite <- list_fmap_compose. apply list_fmap_ext.
    intros i q _. apply step_of_name. }
  assert (Hzero : forall qs,
    length (List.filter (fun s => negb (is_abstain_step s)) (map (step_of h ctx) qs)) = 0 <->
    Forall (abstains h ctx) qs).
  { induction qs as [|q qs IH]; simpl; [split; [constructor|done]|].
    rewrite Forall_cons, <- IH, <- step_of_abstain.
    destruct (is_abstain_step (step_of h ctx q)); simpl; split; try done.
    - intros [? ?]. done.
    - intros [? ?]. done. }
  unfold EvaluationTrace.EvaluatedCount. rewrite EvaluatedCount_fold, Nat.add_0_l.
  subst steps trace. unfold PolicyEngine.PolicyCount.
  destruct (first_deny_split h ctx (PolicyEngine.policies e))
    as [Hnd|(pre & p & post & d & Heq & Hpre & Hd)].
  - rewrite (Evaluate_no_deny h e ctx Hnd). simpl.
    rewrite Hnames, length_map. split_and!; try done.
  - rewrite (Evaluate_deny h e ctx pre p post d Heq Hpre Hd). simpl.
    rewrite Heq, !map_app, Hnames, !length_app, length_map. simpl. split_and!.
    + exists (map Policy.Name post). by rewrite <- app_assoc.
    + lia.
    + intros Hnd. exfalso. apply Forall_app in Hnd as [_ Hnd].
      apply Forall_cons in Hnd as [Hnd _]. apply Hnd. by exists d.
    + rewrite List.filter_app, length_app. simpl. split; [lia|].
      intros Habs. exfalso. apply Forall_app in Habs as [_ Habs].
      apply Forall_cons in Habs as [Habs _].
      apply abstains_not_denies in Habs. apply Habs. by exists d.
Qed.

Lemma Evaluate_trace_follows_policies_witness :
  length (elems (EvaluationTrace.Steps
            (EvaluationResult.Trace
               (PolicyEngine.Evaluate blankHeap permissiveEngine blankCtx)))) =
    PolicyEngine.PolicyCount permissiveEngine.
Proof.
  destruct (Evaluate_trace_follows_policies blankHeap permissiveEngine blankCtx)
    as (_ & _ & H & _).
  apply H.
  repeat constructor; intros (d & Hd & He); first [discriminate Hd | injection Hd as <-];
    discriminate He.
Defined.

(** ** AllOf, and how the combinators relate *)

Lemma AllOf_loop_deny h ctx name pre p post d b :
  Forall (fun q => ~ denies h ctx q) pre ->
  decides h ctx p EffectDeny d ->
  AllOf_loop h ctx name (pre ++ p :: post) b =
    Some {| PolicyDecision.Effect := EffectDeny;
            PolicyDecision.PolicyName := name;
            PolicyDecision.Reason :=
              "AllOf denied by sub-policy " +:+ Policy.Name p +:+ ": "
                +:+ PolicyDecision.Reason d |}.
Proof.
  intros Hpre [Hd He]. revert b.
  induction Hpre as [|q pre Hq Hpre IH]; intros b; simpl.
  - by rewrite Hd, He.
  - destruct (Policy.Evaluate q h ctx) as [dq|] eqn:Eq; [|apply IH].
    destruct (PolicyDecision.Effect dq) eqn:Edq; [apply IH|].
    exfalso. apply Hq. by exists dq.
Qed.

Lemma AllOf_loop_allowed h ctx name ps b :
  Forall (allows h ctx) ps ->
  AllOf_loop h ctx name ps b =
    if b then None
    else Some {| PolicyDecision.Effect := EffectAllow;
                 PolicyDecision.PolicyName := name;
                 PolicyDecision.Reason := "AllOf: all sub-policies allowed." |}.
Proof.
  intros Hps. revert b.
  induction Hps as [|q ps (dq & Hq & He) Hps IH]; intros b; simpl; [done|].
  rewrite Hq, He. apply IH.
Qed.

Lemma AllOf_loop_abstained h ctx name ps :
  Forall (fun q => ~ denies h ctx q) ps ->
  AllOf_loop h ctx name ps true = None.
Proof.
  induction 1 as [|q ps Hq Hps IH]; simpl; [done|].
  destruct (Policy.Evaluate q h ctx) as [dq|] eqn:Eq; [|done].
  destruct (PolicyDecision.Effect dq) eqn:Edq; [done|].
  exfalso. apply Hq. by exists dq.
Qed.

Lemma AllOf_loop_abstain h ctx name ps b :
  Forall (fun q => ~ denies h ctx q) ps ->
  Exists (abstains h ctx) ps ->
  AllOf_loop h ctx name ps b = None.
Proof.
  intros Hnd Hex. revert b.
  induction Hnd as [|q ps Hq Hps IH]; intros b; [by apply Exists_nil in Hex|].
  simpl. apply Exists_cons in Hex as [Habs|Hex].
  - unfold abstains in Habs. rewrite Habs. by apply AllOf_loop_abstained.
  - destruct (Policy.Evaluate q h ctx) as [dq|] eqn:Eq; [|by apply AllOf_loop_abstained].
    destruct (PolicyDecision.Effect dq) eqn:Edq; [by apply IH|].
    exfalso. apply Hq. by exists dq.
Qed.

Lemma AllOf_eval_empty h ctx name :
  Policy.Evaluate (AllOf name []) h ctx =
    Some {| PolicyDecision.Effect := EffectAllow;
            PolicyDecision.PolicyName := name;
            PolicyDecision.Reason := "AllOf with zero sub-policies (vacuous truth)." |}.
Proof. reflexivity. Qed.

Lemma AllOf_eval_deny h ctx name pre p post d :
  Forall (fun q => ~ denies h ctx q) pre ->
  decides h ctx p EffectDeny d ->
  Policy.Evaluate (AllOf name (pre ++ p :: post)) h ctx =
    Some {| PolicyDecision.Effect := EffectDeny;
            PolicyDecision.PolicyName := name;
            PolicyDecision.Reason :=
              "AllOf denied by sub-policy " +:+ Policy.Name p +:+ ": "
                +:+ PolicyDecision.Reason d |}.
Proof.
  intros Hpre Hd. simpl. rewrite length_app. simpl.
  replace (length pre + S (length post) =? 0) with false
    by (symmetry; apply Nat.eqb_neq; lia).
  by apply AllOf_loop_deny.
Qed.

Lemma AllOf_eval_abstain h ctx name ps :
  Forall (fun q => ~ denies h ctx q) ps ->
  Exists (abstains h ctx) ps ->
  Policy.Evaluate (AllOf name ps) h ctx = None.
Proof.
  intros Hnd Hex. destruct ps as [|p ps]; [by apply Exists_nil in Hex|].
  cbn [Policy.Evaluate AllOf]. change (length (p :: ps) =? 0) with false. cbv iota.
  by apply AllOf_loop_abstain.
Qed.

Lemma AllOf_eval_allow h ctx name ps :
  ps <> [] ->
  Forall (allows h ctx) ps ->
  Policy.Evaluate (AllOf name ps) h ctx =
    Some {| PolicyDecision.Effect := EffectAllow;
            PolicyDecision.PolicyName := name;
            PolicyDecision.Reason := "AllOf: all sub-policies allowed." |}.
Proof.
  intros Hne Hall. destruct ps as [|p ps]; [done|].
  cbn [Policy.Evaluate AllOf]. change (length (p :: ps) =? 0) with false. cbv iota.
  by rewrite AllOf_loop_allowed.
Qed.

Lemma AnyOf_eval_allow h ctx name pre p post d :
  Forall (fun q => ~ allows h ctx q) pre ->
  decides h ctx p EffectAllow d ->
  gives (Policy.Evaluate (AnyOf name (pre ++ p :: post)) h ctx) EffectAllow.
Proof.
  intros Hpre Hd. simpl. rewrite (AnyOf_loop_allow h ctx name pre p post d None "" Hpre Hd).
  eexists. split; reflexivity.
Qed.

Lemma AnyOf_eval_deny h ctx name pre p post d :
  Forall (fun q => ~ allows h ctx q) (pre ++ p :: post) ->
  Forall (fun q => ~ denies h ctx q) pre ->
  decides h ctx p EffectDeny d ->
  gives (Policy.Evaluate (AnyOf name (pre ++ p :: post)) h ctx) EffectDeny.
Proof.
  intros Hna Hpre [Hd He]. simpl.
  apply Forall_app in Hna as [Hna_pre Hna_post].
  apply Forall_cons in Hna_post as [_ Hna_post].
  rewrite AnyOf_loop_skip by (by apply quiet_all_abstain).
  simpl. rewrite Hd, He, (AnyOf_loop_denied h ctx name post d (Policy.Name p) Hna_post).
  eexists. split; reflexivity.
Qed.

Lemma AnyOf_eval_quiet h ctx name ps :
  Forall (abstains h ctx) ps -> Policy.Evaluate (AnyOf name ps) h ctx = None.
Proof.
  intros Habs. simpl. rewrite <- (app_nil_r ps). by rewrite AnyOf_loop_skip.
Qed.

(** X11.  [AllOf] over no sub-policy allows, with its own reason.  Otherwise
    the first sub-policy that denies makes it deny, naming that sub-policy
    and its reason, whatever stands behind it; without a Deny, one
    abstaining sub-policy makes it abstain; and when every sub-policy allows
    it allows. *)
Theorem AllOf_first_deny_else_abstain_else_allow
    (h : Heap) (ctx : RequestContext.t) (name : string) (policies : list Policy.t) :
  let r := Policy.Evaluate (AllOf name policies) h ctx in
  (policies = [] ->
   r = Some {| PolicyDecision.Effect := EffectAllow;
               PolicyDecision.PolicyName := name;
               PolicyDecision.Reason := "AllOf with zero sub-policies (vacuous truth)." |}) /\
  (forall pre p post d,
      policies = pre ++ p :: post ->
      Forall (fun q => ~ denies h ctx q) pre ->
      decides h ctx p EffectDeny d ->
      r = Some {| PolicyDecision.Effect := EffectDeny;
                  PolicyDecision.PolicyName := name;
                  PolicyDecision.Reason :=
                    "AllOf denied by sub-policy " +:+ Policy.Name p +:+ ": "
                      +:+ PolicyDecision.Reason d |}) /\
  (Forall (fun q => ~ denies h ctx q) policies ->
   Exists (abstains h ctx) policies ->
   r = None) /\
  (policies <> [] ->
   Forall (allows h ctx) policies ->
   r = Some {| PolicyDecision.Effect := EffectAllow;
               PolicyDecision.PolicyName := name;
               PolicyDecision.Reason := "AllOf: all sub-policies allowed." |}).
Proof.
  intros r. subst r. split_and!.
  - intros ->. apply AllOf_eval_empty.
  - intros pre p post d -> Hpre Hd. by apply AllOf_eval_deny.
  - apply AllOf_eval_abstain.
  - apply AllOf_eval_allow.
Qed.

Lemma AllOf_first_deny_else_abstain_else_allow_witness :
  Policy.Evaluate (AllOf "X" [alwaysAllow "A"; alwaysDeny "D"; alwaysAbstain "B"])
    blankHeap blankCtx =
    Some {| PolicyDecision.Effect := EffectDeny;
            PolicyDecision.PolicyName := "X";
            PolicyDecision.Reason := "AllOf denied by sub-policy D: always deny" |} /\
  Policy.Evaluate (AllOf "X" [alwaysAllow "A"; alwaysAbstain "B"]) blankHeap blankCtx = None.
Proof.
  assert (Ha : forall n, ~ denies blankHeap blankCtx (alwaysAllow n)).
  { intros n (d & Hd & He). injection Hd as <-. discriminate He. }
  assert (Hq : forall n, ~ denies blankHeap blankCtx (alwaysAbstain n)).
  { intros n (d & Hd & _). discriminate Hd. }
  split.
  - destruct (AllOf_first_deny_else_abstain_else_allow blankHeap blankCtx "X"
                [alwaysAllow "A"; alwaysDeny "D"; alwaysAbstain "B"]) as (_ & H & _).
    apply (H [alwaysAllow "A"] (alwaysDeny "D") [alwaysAbstain "B"]
             {| PolicyDecision.Effect := EffectDeny;
                PolicyDecision.PolicyName := "D";
                PolicyDecision.Reason := "always deny" |}).
    + reflexivity.
    + repeat constructor; auto.
    + split; reflexivity.
  - destruct (AllOf_first_deny_else_abstain_else_allow blankHeap blankCtx "X"
                [alwaysAllow "A"; alwaysAbstain "B"]) as (_ & _ & H & _).
    apply H.
    + repeat constructor; auto.
    + apply Exists_cons. right. apply Exists_cons. left. reflexivity.
Defined.

Lemma all_allow_cases h ctx (ps : list Policy.t) :
  Forall (allows h ctx) ps \/
  Exists (denies h ctx) ps \/
  (Forall (fun q => ~ denies h ctx q) ps /\ Exists (abstains h ctx) ps).
Proof.
  induction ps as [|p ps IH]; [left; constructor|].
  destruct (denies_dec h ctx p) as [Hd|Hnd].
  - right. left. apply Exists_cons. by left.
  - destruct IH as [Hall|[Hex|[Hnds Hab]]].
    + destruct (not_denies_cases h ctx p Hnd) as [Hab|Hal].
      * right. right. split.
        -- constructor; [done|]. eapply Forall_impl; [exact Hall|].
           intros q. apply allows_not_denies.
        -- apply Exists_cons. by left.
      * left. by constructor.
    + right. left. apply Exists_cons. by right.
    + right. right. split; [by constructor|]. apply Exists_cons. by right.
Qed.

Lemma AllOf_gives_allow_iff h ctx name ps :
  gives (Policy.Evaluate (AllOf name ps) h ctx) EffectAllow <-> Forall (allows h ctx) ps.
Proof.
  split.
  - intros (d & Hr & He).
    destruct (all_allow_cases h ctx ps) as [Hall|[Hex|[Hnds Hab]]]; [done| |].
    + exfalso.
      destruct (first_deny_split h ctx ps) as [Hnd|(pre & p & post & dd & Heq & Hpre & Hd)].
      * apply Exists_exists in Hex as (q & Hq & Hqd).
        rewrite Forall_forall in Hnd. by apply (Hnd q).
      * subst ps. rewrite (AllOf_eval_deny h ctx name pre p post dd Hpre Hd) in Hr.
        injection Hr as <-. done.
    + rewrite (AllOf_eval_abstain h ctx name ps Hnds Hab) in Hr. done.
  - intros Hall. destruct ps as [|p ps'].
    + rewrite AllOf_eval_empty. eexists. split; reflexivity.
    + rewrite AllOf_eval_allow by done. eexists. split; reflexivity.
Qed.

Lemma AnyOf_outcome_cases h ctx name ps :
  (Exists (allows h ctx) ps /\ gives (Policy.Evaluate (AnyOf name ps) h ctx) EffectAllow) \/
  (Forall (fun q => ~ allows h ctx q) ps /\ Exists (denies h ctx) ps /\
   gives (Policy.Evaluate (AnyOf name ps) h ctx) EffectDeny) \/
  (Forall (fun q => ~ allows h ctx q) ps /\ Policy.Evaluate (AnyOf name ps) h ctx = None).
Proof.
  destruct (first_allow_cases h ctx ps) as [Hna|(pre & p & post & da & Heq & Hpre & Hd)].
  - destruct (first_deny_split h ctx ps) as [Hnd|(pre & p & post & dd & Heq & Hpre & Hd)].
    + right. right. split; [done|]. apply AnyOf_eval_quiet. by apply quiet_all_abstain.
    + right. left. split_and!; [done| |].
      * rewrite Heq. apply Exists_app. right. apply Exists_cons. left. by exists dd.
      * subst ps. by eapply AnyOf_eval_deny.
  - left. split.
    + rewrite Heq. apply Exists_app. right. apply Exists_cons. left. by exists da.
    + subst ps. by eapply AnyOf_eval_allow.
Qed.

Lemma AnyOf_gives_allow_iff h ctx name ps :
  gives (Policy.Evaluate (AnyOf name ps) h ctx) EffectAllow <-> Exists (allows h ctx) ps.
Proof.
  split.
  - intros (d & Hr & He).
    destruct (AnyOf_outcome_cases h ctx name ps)
      as [[Hex _]|[(_ & _ & d' & Hr' & He')|[_ Hr']]]; [done|congruence|congruence].
  - intros Hex.
    destruct (AnyOf_outcome_cases h ctx name ps) as [[_ Hg]|[(Hna & _)|[Hna _]]]; [done| |];
      exfalso; apply Exists_exists in Hex as (q & Hq & Hqa);
      rewrite Forall_forall in Hna; by apply (Hna q).
Qed.

(** X12.  Over the same sub-policies and for the same request: [AllOf]
    allows exactly when every sub-policy allows and denies exactly when one
    denies; [AnyOf] allows exactly when one allows; [NoneOf] denies exactly
    when [AnyOf] allows and never allows.  So when [AnyOf] denies, [AllOf]
    denies too, and over at least one sub-policy, when [AllOf] allows,
    [AnyOf] allows too. *)
Theorem combinators_outcomes
    (h : Heap) (ctx : RequestContext.t) (n1 n2 n3 : string) (ps : list Policy.t) :
  let all := Policy.Evaluate (AllOf n1 ps) h ctx in
  let any := Policy.Evaluate (AnyOf n2 ps) h ctx in
  let none := Policy.Evaluate (NoneOf n3 ps) h ctx in
  (gives all EffectAllow <-> Forall (allows h ctx) ps) /\
  (gives all EffectDeny <-> Exists (denies h ctx) ps) /\
  (gives any EffectAllow <-> Exists (allows h ctx) ps) /\
  (gives none EffectDeny <-> gives any EffectAllow) /\
  ~ gives none EffectAllow /\
  (gives any EffectDeny -> gives all EffectDeny) /\
  (ps <> [] -> gives all EffectAllow -> gives any EffectAllow).
Proof.
  intros all any none.
  pose proof (AllOf_gives_allow_iff h ctx n1 ps) as Hall_allow. fold all in Hall_allow.
  assert (Hall_deny : gives all EffectDeny <-> Exists (denies h ctx) ps).
  { split.
    - intros (d & Hr & He).
      destruct (all_allow_cases h ctx ps) as [Hall|[Hex|[Hnds Hab]]]; [|done|].
      + exfalso. apply Hall_allow in Hall as (d' & Hr' & He'). congruence.
      + subst all. rewrite (AllOf_eval_abstain h ctx n1 ps Hnds Hab) in Hr. done.
    - intros Hex.
      destruct (first_deny_split h ctx ps) as [Hnd|(pre & p & post & dd & Heq & Hpre & Hd)].
      + exfalso. apply Exists_exists in Hex as (q & Hq & Hqd).
        rewrite Forall_forall in Hnd. by apply (Hnd q).
      + subst all ps. rewrite (AllOf_eval_deny h ctx n1 pre p post dd Hpre Hd).
        eexists. split; reflexivity. }
  pose proof (AnyOf_outcome_cases h ctx n2 ps) as Hany_cases. fold any in Hany_cases.
  pose proof (AnyOf_gives_allow_iff h ctx n2 ps) as Hany_allow. fold any in Hany_allow.
  assert (Hnone_cases :
    (Exists (allows h ctx) ps /\ gives none EffectDeny) \/
    (Forall (fun q => ~ allows h ctx q) ps /\ none = None)).
  { destruct (first_allow_cases h ctx ps) as [Hna|(pre & p & post & da & Heq & Hpre & Hd)].
    - right. split; [done|]. by apply NoneOf_loop_quiet.
    - left. split.
      + rewrite Heq. apply Exists_app. right. apply Exists_cons. left. by exists da.
      + subst none ps. simpl. rewrite (NoneOf_loop_block h ctx n3 pre p post da Hpre Hd).
        eexists. split; reflexivity. }
  split_and!; try done.
  - rewrite Hany_allow. split.
    + intros (d & Hr & He). destruct Hnone_cases as [[Hex _]|[_ Hr']]; [done|congruence].
    + intros Hex. destruct Hnone_cases as [[_ Hg]|[Hna _]]; [done|].
      exfalso. apply Exists_exists in Hex as (q & Hq & Hqa).
      rewrite Forall_forall in Hna. by apply (Hna q).
  - intros (d & Hr & He).
    destruct Hnone_cases as [[_ (d' & Hr' & He')]|[_ Hr']]; congruence.
  - intros (d & Hr & He). apply Hall_deny.
    destruct Hany_cases as [[_ (d' & Hr' & He')]|[(_ & Hex & _)|[_ Hr']]];
      [congruence|done|congruence].
  - intros Hne Hal. apply Hany_allow. apply Hall_allow in Hal.
    destruct ps as [|p ps']; [done|]. apply Forall_cons in Hal as [Hp _].
    apply Exists_cons. by left.
Qed.

Lemma combinators_outcomes_witness :
  gives (Policy.Evaluate (AnyOf "Any" [alwaysAllow "A"; alwaysAllow "B"]) blankHeap blankCtx)
    EffectAllow.
Proof.
  destruct (combinators_outcomes blankHeap blankCtx "All" "Any" "None"
              [alwaysAllow "A"; alwaysAllow "B"]) as (_ & _ & _ & _ & _ & _ & H).
  apply H; [discriminate|].
  eexists. split; reflexivity.
Defined.

(** ** The built-in policies together *)

Lemma eqb_false_of_ne (a b : string) : a <> b -> String.eqb a b = false.
Proof. apply String.eqb_neq. Qed.

(** X13.  The default engine grants a request exactly when none of the three
    prohibitions applies (a restricted resource without verified MFA; a write
    or delete in production by a non-admin; an analyst doing anything but
    reading, or reading confidential or restricted data) and the role is
    admin, or analyst, or engineer on a non-restricted resource in dev or
    staging, or reading in production. *)
Theorem default_engine_grants_iff (h : Heap) (ctx : RequestContext.t) :
  PolicyDecision.Effect
    (EvaluationResult.Decision (PolicyEngine.Evaluate h DefaultPolicyEngine ctx)) = EffectAllow <->
  default_grants ctx = true.
Proof.
  unfold PolicyEngine.Evaluate, default_grants. rewrite DefaultPolicyEngine_policies.
  destruct ctx as [[pid role dept] [rid rtype class tags] [verb] env mfa].
  cbn. destruct mfa; case_eqb; split; congruence.
Qed.

(** X14.  On the default engine the MFA gate holds for every role, verb and
    environment, admins included: a request for a restricted resource
    without verified MFA gets the Deny of MFARequiredForRestricted, and the
    trace ends there, after the rows of AdminFullAccess and of the gate. *)
Theorem default_engine_mfa_gate_all_roles (h : Heap) (ctx : RequestContext.t) :
  Resource.Classification (RequestContext.Resource ctx) = "restricted" ->
  RequestContext.MFAVerified ctx = false ->
  let res := PolicyEngine.Evaluate h DefaultPolicyEngine ctx in
  EvaluationResult.Decision res =
    {| PolicyDecision.Effect := EffectDeny;
       PolicyDecision.PolicyName := "MFARequiredForRestricted";
       PolicyDecision.Reason := "MFA required to access restricted resources." |} /\
  map PolicyStep.PolicyName (elems (EvaluationTrace.Steps (EvaluationResult.Trace res))) =
    ["AdminFullAccess"; "MFARequiredForRestricted"] /\
  map PolicyStep.Outcome (elems (EvaluationTrace.Steps (EvaluationResult.Trace res))) =
    [if String.eqb (Principal.Role (RequestContext.Principal ctx)) "admin"
     then StepAllow else StepAbstain;
     StepDeny].
Proof.
  intros Hclass Hmfa res. subst res.
  unfold PolicyEngine.Evaluate. rewrite DefaultPolicyEngine_policies.
  cbn. rewrite Hclass, Hmfa. cbn.
  destruct (String.eqb (Principal.Role (RequestContext.Principal ctx)) "admin"); cbn;
    split_and!; reflexivity.
Qed.

Lemma default_engine_mfa_gate_all_roles_witness :
  EvaluationResult.Decision
    (PolicyEngine.Evaluate blankHeap DefaultPolicyEngine adminNoMFACtx) =
    {| PolicyDecision.Effect := EffectDeny;
       PolicyDecision.PolicyName := "MFARequiredForRestricted";
       PolicyDecision.Reason := "MFA required to access restricted resources." |}.
Proof.
  destruct (default_engine_mfa_gate_all_roles blankHeap adminNoMFACtx eq_refl eq_refl)
    as (H & _).
  exact H.
Defined.

(** X15.  The decision and the rows of the default engine depend on five
    things only: the principal's role, the resource's classification, the
    verb, the environment and the MFA flag.  Identifiers, department,
    resource type and tags, and so the contents of any tag map, play no
    part. *)
Theorem default_engine_reads_five_fields
    (h h' : Heap) (ctx ctx' : RequestContext.t) :
  Principal.Role (RequestContext.Principal ctx) =
    Principal.Role (RequestContext.Principal ctx') ->
  Resource.Classification (RequestContext.Resource ctx) =
    Resource.Classification (RequestContext.Resource ctx') ->
  Action.Verb (RequestContext.Action ctx) = Action.Verb (RequestContext.Action ctx') ->
  RequestContext.Environment ctx = RequestContext.Environment ctx' ->
  RequestContext.MFAVerified ctx = RequestContext.MFAVerified ctx' ->
  EvaluationResult.Decision (PolicyEngine.Evaluate h DefaultPolicyEngine ctx) =
    EvaluationResult.Decision (PolicyEngine.Evaluate h' DefaultPolicyEngine ctx') /\
  EvaluationTrace.Steps (EvaluationResult.Trace (PolicyEngine.Evaluate h DefaultPolicyEngine ctx)) =
    EvaluationTrace.Steps
      (EvaluationResult.Trace (PolicyEngine.Evaluate h' DefaultPolicyEngine ctx')).
Proof.
  intros Hrole Hclass Hverb Henv Hmfa.
  unfold PolicyEngine.Evaluate. rewrite DefaultPolicyEngine_policies.
  destruct ctx as [[pid role dept] [rid rtype class tags] [verb] env mfa].
  destruct ctx' as [[pid' role' dept'] [rid' rtype' class' tags'] [verb'] env' mfa'].
  cbn in Hrole, Hclass, Hverb, Henv, Hmfa. subst role' class' verb' env' mfa'.
  cbn. destruct mfa; case_eqb; split; reflexivity.
Qed.

Lemma default_engine_reads_five_fields_witness :
  EvaluationResult.Decision (PolicyEngine.Evaluate blankHeap DefaultPolicyEngine blankCtx) =
  EvaluationResult.Decision (PolicyEngine.Evaluate ownedHeap DefaultPolicyEngine otherGuestCtx).
Proof.
  destruct (default_engine_reads_five_fields blankHeap ownedHeap blankCtx otherGuestCtx
              eq_refl eq_refl eq_refl eq_refl eq_refl) as (H & _).
  exact H.
Defined.

(** X16.  On the default engine a write or delete in production by anyone
    but an admin is denied, by the MFA gate or by ProductionImmutability;
    and a principal whose role is none of admin, analyst and engineer is
    denied whatever is asked, by one of these two or by the default Deny. *)
Theorem default_engine_denials (h : Heap) (ctx : RequestContext.t) :
  let decision := EvaluationResult.Decision (PolicyEngine.Evaluate h DefaultPolicyEngine ctx) in
  let role := Principal.Role (RequestContext.Principal ctx) in
  let verb := Action.Verb (RequestContext.Action ctx) in
  (RequestContext.Environment ctx = "production" ->
   role <> "admin" ->
   verb = "write" \/ verb = "delete" ->
   PolicyDecision.Effect decision = EffectDeny /\
   (PolicyDecision.PolicyName decision = "MFARequiredForRestricted" \/
    PolicyDecision.PolicyName decision = "ProductionImmutability")) /\
  (role <> "admin" -> role <> "analyst" -> role <> "engineer" ->
   PolicyDecision.Effect decision = EffectDeny /\
   (PolicyDecision.PolicyName decision = "MFARequiredForRestricted" \/
    PolicyDecision.PolicyName decision = "ProductionImmutability" \/
    decision = PolicyEngine.defaultDeny)).
Proof.
  intros decision role verb. subst decision role verb.
  unfold PolicyEngine.Evaluate. rewrite DefaultPolicyEngine_policies.
  destruct ctx as [[pid role dept] [rid rtype class tags] [verb] env mfa]. cbn.
  split.
  - intros -> Hrole Hverb. rewrite (eqb_false_of_ne _ _ Hrole).
    destruct Hverb as [-> | ->]; cbn; destruct mfa; case_eqb; auto.
  - intros H1 H2 H3.
    rewrite (eqb_false_of_ne _ _ H1), (eqb_false_of_ne _ _ H2), (eqb_false_of_ne _ _ H3).
    cbn. destruct mfa; case_eqb; auto.
Qed.

Lemma default_engine_denials_witness :
  PolicyDecision.Effect
    (EvaluationResult.Decision
       (PolicyEngine.Evaluate blankHeap DefaultPolicyEngine engineerProdWriteCtx)) =
    EffectDeny.
Proof.
  destruct (default_engine_denials blankHeap engineerProdWriteCtx) as (H & _).
  destruct H as (He & _).
  - reflexivity.
  - discriminate.
  - left. reflexivity.
  - exact He.
Defined.

(** ** Composing checkers *)

Lemma Evaluate_report h c resource :
  ComplianceChecker.Evaluate h c resource =
    {| ComplianceReport.ResourceID := Resource.ID resource;
       ComplianceReport.Violations :=
         slice_of (map violation_of
                     (List.filter (fails h resource) (ComplianceChecker.rules c))) |}.
Proof. unfold ComplianceChecker.Evaluate. by rewrite Evaluate_fold. Qed.

Lemma AddRules_rules c rs :
  ComplianceChecker.rules (ComplianceChecker.AddRules c rs) = ComplianceChecker.rules c ++ rs.
Proof.
  unfold ComplianceChecker.AddRules. revert c.
  induction rs as [|r rs IH]; intros c; simpl.
  - by rewrite app_nil_r.
  - rewrite IH. simpl. by rewrite <- app_assoc.
Qed.

Lemma Compliant_is_empty (r : ComplianceReport.t) :
  ComplianceReport.Compliant r = is_empty (elems (ComplianceReport.Violations r)).
Proof.
  unfold ComplianceReport.Compliant, len.
  by destruct (elems (ComplianceReport.Violations r)).
Qed.

Lemma is_empty_app {A} (l1 l2 : list A) : is_empty (l1 ++ l2) = is_empty l1 && is_empty l2.
Proof. by destruct l1. Qed.

Lemma is_empty_filter_fails h resource rules :
  is_empty (map violation_of (List.filter (fails h resource) rules)) =
  forallb (fun rule => ComplianceRule.Check rule h resource) rules.
Proof.
  induction rules as [|r rules IH]; simpl; [done|].
  unfold fails at 1. destruct (ComplianceRule.Check r h resource); simpl; [exact IH|done].
Qed.

(** X17.  [AddRules] appends the rules as they are, and reports compose:
    the findings of a checker extended by a batch are its earlier findings
    followed by the findings of the batch on its own, the rule count grows
    by the size of the batch, and the resource complies with the extended
    checker exactly when it complies with both parts. *)
Theorem AddRules_reports_concatenate
    (h : Heap) (c : ComplianceChecker.t) (rs : list ComplianceRule.t) (resource : Resource.t) :
  let whole := ComplianceChecker.Evaluate h (ComplianceChecker.AddRules c rs) resource in
  let first := ComplianceChecker.Evaluate h c resource in
  let batch :=
    ComplianceChecker.Evaluate h
      (ComplianceChecker.AddRules ComplianceChecker.new rs) resource in
  ComplianceChecker.rules (ComplianceChecker.AddRules c rs) = ComplianceChecker.rules c ++ rs /\
  ComplianceChecker.RuleCount (ComplianceChecker.AddRules c rs) =
    ComplianceChecker.RuleCount c + length rs /\
  elems (ComplianceReport.Violations whole) =
    elems (ComplianceReport.Violations first) ++ elems (ComplianceReport.Violations batch) /\
  ComplianceReport.Compliant whole =
    ComplianceReport.Compliant first && ComplianceReport.Compliant batch.
Proof.
  intros whole first batch.
  assert (Hv : elems (ComplianceReport.Violations whole) =
    elems (ComplianceReport.Violations first) ++ elems (ComplianceReport.Violations batch)).
  { subst whole first batch. rewrite !Evaluate_report, !AddRules_rules. simpl.
    by rewrite List.filter_app, map_app. }
  split_and!.
  - apply AddRules_rules.
  - unfold ComplianceChecker.RuleCount. by rewrite AddRules_rules, length_app.
  - exact Hv.
  - by rewrite !Compliant_is_empty, Hv, is_empty_app.
Qed.

Lemma fails_prefixed h resource set rule :
  fails h resource (prefixed set rule) = fails h resource rule.
Proof. reflexivity. Qed.

Lemma filter_fails_prefixed h resource set rules :
  List.filter (fails h resource) (map (prefixed set) rules) =
  map (prefixed set) (List.filter (fails h resource) rules).
Proof.
  induction rules as [|r rules IH]; simpl; [done|].
  rewrite fails_prefixed. destruct (fails h resource r); simpl; by rewrite IH.
Qed.

(** X18.  Merging a rule set changes how findings are named and nothing
    else: the same rules fail as when its rules are added unprefixed, so the
    verdict and the number of findings agree, and each finding of a merged
    rule reads "[<SetName>/<RuleName>] <RuleDescription>".  The rule count
    grows by the size of the set. *)
Theorem AddRuleSet_same_verdict_as_AddRules
    (h : Heap) (c : ComplianceChecker.t) (rs : RuleSet.t) (resource : Resource.t) :
  let merged := ComplianceChecker.Evaluate h (ComplianceChecker.AddRuleSet c rs) resource in
  let plain :=
    ComplianceChecker.Evaluate h (ComplianceChecker.AddRules c (RuleSet.Rules rs)) resource in
  ComplianceReport.Compliant merged = ComplianceReport.Compliant plain /\
  len (ComplianceReport.Violations merged) = len (ComplianceReport.Violations plain) /\
  elems (ComplianceReport.Violations merged) =
    elems (ComplianceReport.Violations (ComplianceChecker.Evaluate h c resource)) ++
    map (fun rule =>
           "[" +:+ (RuleSet.Name rs +:+ "/" +:+ ComplianceRule.Name rule) +:+ "] "
             +:+ ComplianceRule.Description rule)
        (List.filter (fun rule => negb (ComplianceRule.Check rule h resource))
           (RuleSet.Rules rs)) /\
  ComplianceChecker.RuleCount (ComplianceChecker.AddRuleSet c rs) =
    ComplianceChecker.RuleCount c + length (RuleSet.Rules rs).
Proof.
  intros merged plain. subst merged plain.
  rewrite !Evaluate_report, AddRuleSet_rules, AddRules_rules.
  rewrite !List.filter_app, !map_app, filter_fails_prefixed.
  split_and!.
  - rewrite !Compliant_is_empty. simpl. rewrite !is_empty_app. f_equal.
    by destruct (List.filter (fails h resource) (RuleSet.Rules rs)).
  - unfold len. simpl. by rewrite !length_app, !length_map.
  - simpl. f_equal. rewrite <- list_fmap_compose. reflexivity.
  - unfold ComplianceChecker.RuleCount.
    by rewrite AddRuleSet_rules, length_app, length_map.
Qed.

(** X19.  A resource complies with the default checker exactly when it has
    an owner tag, is not a public secret, is restricted or confidential if it
    is a database, and has a classification.  A resource whose tag map is nil
    is handled like one with an empty map: it lacks the owner tag.  No report
    of the default checker has more than four findings. *)
Theorem DefaultComplianceChecker_complies_iff (h : Heap) (resource : Resource.t) :
  let report := ComplianceChecker.Evaluate h DefaultComplianceChecker resource in
  (ComplianceReport.Compliant report = true <->
   is_Some (tags_of h (Resource.Tags resource) !! "owner") /\
   ~ (Resource.Type_ resource = "secret" /\ Resource.Classification resource = "public") /\
   (Resource.Type_ resource = "database" ->
    Resource.Classification resource = "restricted" \/
    Resource.Classification resource = "confidential") /\
   Resource.Classification resource <> "") /\
  (Resource.Tags resource = None -> ComplianceReport.Compliant report = false) /\
  len (ComplianceReport.Violations report) <= 4.
Proof.
  intros report. subst report. rewrite Evaluate_report, Compliant_is_empty.
  cbn [ComplianceReport.Violations elems]. rewrite is_empty_filter_fails.
  split_and!.
  - cbn. rewrite !andb_true_r.
    rewrite !andb_true_iff, !negb_true_iff, andb_false_iff.
    rewrite <- !not_true_iff_false, !String.eqb_eq.
    destruct (tags_of h (Resource.Tags resource) !! "owner") as [v|] eqn:Hown.
    + destruct (String.eqb_spec (Resource.Type_ resource) "database") as [Hdb|Hdb]; cbn.
      * rewrite orb_true_iff, !String.eqb_eq. split.
        -- intros (_ & Hs & Hd & Hc). split_and!; [by eexists| |done|done].
           intros [H1 H2]. destruct Hs; done.
        -- intros (_ & Hs & Hd & Hc). split_and!; [done| |by apply Hd|done].
           destruct (String.eqb_spec (Resource.Type_ resource) "secret"); [|by left].
           right. intros Hp. apply Hs. done.
      * split.
        -- intros (_ & Hs & _ & Hc). split_and!; [by eexists| |done|done].
           intros [H1 H2]. destruct Hs; done.
        -- intros (_ & Hs & Hd & Hc). split_and!; [done| |done|done].
           destruct (String.eqb_spec (Resource.Type_ resource) "secret"); [|by left].
           right. intros Hp. apply Hs. done.
    + split; [intros (Hf & _); done|]. intros ([v Hv] & _). done.
  - intros Hnil. cbn. by rewrite Hnil.
  - unfold len. cbn [elems]. rewrite length_map.
    etransitivity; [apply List.filter_length_le|]. reflexivity.
Qed.

Lemma DefaultComplianceChecker_complies_iff_witness :
  ComplianceReport.Compliant
    (ComplianceChecker.Evaluate ownedHeap DefaultComplianceChecker patientRecords) = true /\
  ComplianceReport.Compliant
    (ComplianceChecker.Evaluate ownedHeap DefaultComplianceChecker
       {| Resource.ID := "db-legacy"; Resource.Type_ := "database";
          Resource.Classification := "public"; Resource.Tags := None |}) = false.
Proof.
  split.
  - destruct (DefaultComplianceChecker_complies_iff ownedHeap patientRecords) as (H & _).
    apply H. split_and!.
    + vm_compute. eexists. reflexivity.
    + intros [Hs _]. discriminate Hs.
    + intros _. left. reflexivity.
    + discriminate.
  - destruct (DefaultComplianceChecker_complies_iff ownedHeap
                {| Resource.ID := "db-legacy"; Resource.Type_ := "database";
                   Resource.Classification := "public"; Resource.Tags := None |})
      as (_ & H & _).
    apply H. reflexivity.
Defined.

(** X20.  The two rule sets merged into an empty checker judge every
    resource as the default checker does: the same verdict and the same
    number of findings (the findings are named with the set's prefix and
    come in the order of the sets). *)
Theorem rule_sets_cover_default_checker (h : Heap) (resource : Resource.t) :
  let merged := ComplianceChecker.Evaluate h mergedRuleSets resource in
  let report := ComplianceChecker.Evaluate h DefaultComplianceChecker resource in
  ComplianceReport.Compliant merged = ComplianceReport.Compliant report /\
  len (ComplianceReport.Violations merged) = len (ComplianceReport.Violations report) /\
  ComplianceChecker.RuleCount mergedRuleSets =
    ComplianceChecker.RuleCount DefaultComplianceChecker.
Proof.
  intros merged report. subst merged report.
  rewrite !Evaluate_report, !Compliant_is_empty. unfold len.
  cbn [ComplianceReport.Violations elems]. rewrite !is_empty_filter_fails, !length_map.
  unfold fails. cbn.
  destruct (tags_of h (Resource.Tags resource) !! "owner");
    destruct (String.eqb (Resource.Type_ resource) "secret");
    destruct (String.eqb (Resource.Type_ resource) "database");
    destruct (String.eqb (Resource.Classification resource) "public");
    destruct (String.eqb (Resource.Classification resource) "restricted");
    destruct (String.eqb (Resource.Classification resource) "confidential");
    destruct (String.eqb (Resource.Classification resource) "");
    cbn; split_and!; reflexivity.
Qed.

(** ** What the renderings hold *)







(** ** Combinators against plain registration *)

Lemma single_policy_allow_iff h ctx p :
  PolicyDecision.Effect
    (EvaluationResult.Decision (PolicyEngine.Evaluate h (registered [p]) ctx)) = EffectAllow <->
  allows h ctx p.
Proof.
  rewrite (Evaluate_allow_iff h (registered [p]) ctx).
  change (PolicyEngine.policies (registered [p])) with [p]. split.
  - intros [_ Hex]. apply Exists_cons in Hex as [Ha|Hex]; [done|].
    by apply Exists_nil in Hex.
  - intros Ha. split.
    + constructor; [by apply allows_not_denies|constructor].
    + apply Exists_cons. by left.
Qed.

(** X23.  An engine that holds the single policy [AllOf] over some
    sub-policies grants exactly when all of them allow, one that holds
    [AnyOf] over them exactly when one of them allows.  Against an engine in
    which the same sub-policies are registered one by one, [AllOf] over at
    least one sub-policy is the stricter and [AnyOf] the more lenient: what
    the first grants the plain engine grants, and what the plain engine
    grants the second grants. *)
Theorem combinators_versus_registration
    (h : Heap) (ctx : RequestContext.t) (name : string) (ps : list Policy.t) :
  let effect_of e :=
    PolicyDecision.Effect (EvaluationResult.Decision (PolicyEngine.Evaluate h e ctx)) in
  let plain := effect_of (registered ps) in
  let all := effect_of (registered [AllOf name ps]) in
  let any := effect_of (registered [AnyOf name ps]) in
  (all = EffectAllow <-> Forall (allows h ctx) ps) /\
  (any = EffectAllow <-> Exists (allows h ctx) ps) /\
  (ps <> [] -> all = EffectAllow -> plain = EffectAllow) /\
  (plain = EffectAllow -> any = EffectAllow).
Proof.
  intros effect_of plain all any.
  assert (Hall : all = EffectAllow <-> Forall (allows h ctx) ps).
  { unfold all, effect_of. rewrite (single_policy_allow_iff h ctx (AllOf name ps)).
    exact (AllOf_gives_allow_iff h ctx name ps). }
  assert (Hany : any = EffectAllow <-> Exists (allows h ctx) ps).
  { unfold any, effect_of. rewrite (single_policy_allow_iff h ctx (AnyOf name ps)).
    exact (AnyOf_gives_allow_iff h ctx name ps). }
  assert (Hplain : plain = EffectAllow <->
            Forall (fun q => ~ denies h ctx q) ps /\ Exists (allows h ctx) ps).
  { unfold plain, effect_of. rewrite (Evaluate_allow_iff h (registered ps) ctx).
    pose proof (registered_Permutation ps) as Hperm.
    split; intros [H1 H2]; split.
    - by rewrite <- Hperm.
    - by rewrite <- Hperm.
    - by rewrite Hperm.
    - by rewrite Hperm. }
  split_and!; [exact Hall|exact Hany| |].
  - intros Hne Ha. apply Hall in Ha. apply Hplain. split.
    + eapply Forall_impl; [exact Ha|]. intros q. apply allows_not_denies.
    + destruct ps as [|p ps']; [done|]. apply Forall_cons in Ha as [Hp _].
      apply Exists_cons. by left.
  - intros Hp. apply Hany. apply Hplain in Hp. by destruct Hp.
Qed.

Lemma combinators_versus_registration_witness :
  PolicyDecision.Effect
    (EvaluationResult.Decision
       (PolicyEngine.Evaluate blankHeap
          (registered [AnyOf "Any" [alwaysAbstain "A"; alwaysAllow "B"]]) blankCtx)) =
    EffectAllow.
Proof.
  destruct (combinators_versus_registration blankHeap blankCtx "Any"
              [alwaysAbstain "A"; alwaysAllow "B"]) as (_ & _ & _ & H).
  apply H. reflexivity.
Defined.

Lemma sorted_is_fixed l :
  StronglySorted by_priority_desc l -> sort.SliceStable PolicyEngine.less l = l.
Proof.
  intros Hs. symmetry. by apply SliceStable_unique.
Qed.

(** X24.  Registration leaves a sequence of policies as it is exactly when
    the policies come in descending priority: the engine holds them in the
    order of registration if and only if no policy was registered after one
    of lower priority.  So policies of one priority stay in registration
    order, and an engine rebuilt from the policy sequence of another holds
    the same sequence. *)
Theorem registered_fixed_iff_sorted (ps : list Policy.t) :
  (PolicyEngine.policies (registered ps) = ps <-> StronglySorted by_priority_desc ps) /\
  PolicyEngine.policies (registered (PolicyEngine.policies (registered ps))) =
    PolicyEngine.policies (registered ps).
Proof.
  split.
  - split.
    + intros <-. apply registered_sorted.
    + intros Hs. rewrite registered_SliceStable. by apply sorted_is_fixed.
  - rewrite (registered_SliceStable (PolicyEngine.policies (registered ps))).
    apply sorted_is_fixed, registered_sorted.
Qed.

(** ** Merging a rule set, in memory *)

Lemma omap_id_Some {A} (l : list (option A)) :
  Forall is_Some l -> map Some (omap id l) = l.
Proof.
  induction 1 as [|x l [v ->] _ IH]; simpl; [done|]. f_equal. exact IH.
Qed.

Lemma omap_id_length {A} (l : list (option A)) :
  Forall is_Some l -> length (omap id l) = length l.
Proof.
  induction 1 as [|x l [v ->] _ IH]; simpl; [done|]. f_equal. exact IH.
Qed.

Lemma omap_id_snoc {A} (l : list (option A)) (x : A) :
  omap id (l ++ [Some x]) = omap id l ++ [x].
Proof. by rewrite omap_app. Qed.

Lemma omap_id_map_Some {A} (l : list A) : omap id (map Some l) = l.
Proof. induction l as [|x l IH]; simpl; [done|]. f_equal. exact IH. Qed.

Lemma valid_frame m m' s :
  Mem.valid m s ->
  (forall hd, s = Some hd -> m' !! Mem.arr hd = m !! Mem.arr hd) ->
  Mem.valid m' s /\ Mem.view m' s = Mem.view m s /\
  (forall i, Mem.index m' s i = Mem.index m s i).
Proof.
  destruct s as [hd|]; simpl; [|done].
  intros (a & Ha & Hv) Hsame. rewrite (Hsame hd eq_refl).
  split_and!; [by exists a|done|done].
Qed.

Lemma index_view m s i :
  Mem.valid m s -> i < Mem.length_of s ->
  exists rule, Mem.index m s i = Some rule /\ Mem.view m s !! i = Some rule.
Proof.
  destruct s as [hd|]; simpl; [|lia].
  intros (a & Ha & Hcap & Hlen & Hall) Hi. rewrite Ha.
  destruct (Nat.ltb_spec i (Mem.len hd)) as [_|?]; [|lia].
  assert (Hcell : take (Mem.len hd) (drop (Mem.off hd) a) !! i = a !! (Mem.off hd + i)).
  { rewrite lookup_take_lt by done. by rewrite lookup_drop. }
  assert (Hin : is_Some (take (Mem.len hd) (drop (Mem.off hd) a) !! i)).
  { apply lookup_lt_is_Some. rewrite length_take, length_drop. lia. }
  destruct Hin as [cell Hc].
  assert (Hsome : is_Some cell).
  { rewrite Forall_forall in Hall. apply Hall. by eapply list_elem_of_lookup_2. }
  destruct Hsome as [rule ->].
  exists rule. rewrite <- Hcell, Hc. split; [done|].
  pose proof (omap_id_Some _ Hall) as Hm.
  apply (f_equal (fun l => l !! i)) in Hm. rewrite list_lookup_fmap, Hc in Hm.
  destruct (omap id (take (Mem.len hd) (drop (Mem.off hd) a)) !! i); simpl in Hm; congruence.
Qed.

Lemma view_length m s : Mem.valid m s -> length (Mem.view m s) = Mem.length_of s.
Proof.
  destruct s as [hd|]; simpl; [|done].
  intros (a & Ha & Hcap & Hlen & Hall). rewrite Ha, omap_id_length by done.
  rewrite length_take, length_drop. lia.
Qed.

Lemma fresh_not_held (H : gset loc) (m : Mem.Store) l :
  H ⊆ dom m -> l ∈ H -> fresh (dom m) <> l.
Proof.
  intros Hsub Hl Heq. apply (is_fresh (dom m)). rewrite Heq. by apply Hsub.
Qed.

Lemma append_private growcap (H : gset loc) m s x :
  Mem.grows growcap -> H ⊆ dom m -> Mem.private H m s ->
  exists m' s',
    Mem.append growcap m s x = Some (m', s') /\
    (forall l, l ∈ H -> m' !! l = m !! l) /\
    H ⊆ dom m' /\
    Mem.private H m' s' /\
    Mem.view m' s' = Mem.view m s ++ [x].
Proof.
  intros Hg Hsub Hp. destruct s as [hd|]; simpl in *.
  - destruct Hp as (HnH & a & Ha & Hcap & Hlen & Hall). rewrite Ha.
    assert (Htl : length (take (Mem.len hd) (drop (Mem.off hd) a)) = Mem.len hd).
    { rewrite length_take, length_drop. lia. }
    destruct (Nat.ltb_spec (Mem.len hd) (Mem.cap hd)) as [Hlt|Hge].
    + eexists _, _. split; [reflexivity|]. simpl.
      assert (Htake : take (S (Mem.len hd))
                (drop (Mem.off hd) (<[Mem.off hd + Mem.len hd := Some x]> a)) =
              take (Mem.len hd) (drop (Mem.off hd) a) ++ [Some x]).
      { rewrite drop_insert_ge by lia.
        replace (Mem.off hd + Mem.len hd - Mem.off hd) with (Mem.len hd) by lia.
        rewrite (take_S_r _ _ (Some x)).
        - by rewrite take_insert_ge by lia.
        - apply list_lookup_insert_eq. rewrite length_drop. lia. }
      refine (conj _ (conj _ (conj (conj HnH _) _))).
      * intros l Hl. rewrite lookup_insert_ne; [done|]. intros <-. done.
      * rewrite dom_insert_L. intros z Hz. apply elem_of_union. right. by apply Hsub.
      * exists (<[Mem.off hd + Mem.len hd := Some x]> a).
        rewrite lookup_insert_eq, length_insert, Htake.
        refine (conj eq_refl (conj _ (conj _ _))); [lia|lia|].
        apply Forall_app. split; [done|]. by repeat constructor.
      * rewrite lookup_insert_eq, Htake. apply omap_id_snoc.
    + eexists _, _. split; [reflexivity|]. simpl.
      pose proof (Hg (Mem.cap hd) (S (Mem.len hd))) as Hn.
      set (n := growcap (Mem.cap hd) (S (Mem.len hd))) in *.
      assert (Htake : take (S (Mem.len hd))
                (take (Mem.len hd) (drop (Mem.off hd) a)
                 ++ Some x :: replicate (n - S (Mem.len hd)) None) =
              take (Mem.len hd) (drop (Mem.off hd) a) ++ [Some x]).
      { rewrite take_app_ge by lia. rewrite Htl.
        replace (S (Mem.len hd) - Mem.len hd) with 1 by lia. done. }
      refine (conj _ (conj _ (conj (conj _ _) _))).
      * intros l Hl. rewrite lookup_insert_ne; [done|]. by apply (fresh_not_held H).
      * rewrite dom_insert_L. intros z Hz. apply elem_of_union. right. by apply Hsub.
      * intros Hin. by eapply (fresh_not_held H m).
      * eexists. rewrite lookup_insert_eq. split; [reflexivity|].
        rewrite drop_0, Htake, length_app, Htl. simpl. rewrite length_replicate.
        refine (conj _ (conj _ _)); [lia|lia|].
        apply Forall_app. split; [done|]. by repeat constructor.
      * rewrite lookup_insert_eq, drop_0, Htake. apply omap_id_snoc.
  - eexists _, _. split; [reflexivity|]. simpl.
    pose proof (Hg 0 1) as Hn. set (n := growcap 0 1) in *.
    refine (conj _ (conj _ (conj (conj _ _) _))).
    + intros l Hl. rewrite lookup_insert_ne; [done|]. by apply (fresh_not_held H).
    + rewrite dom_insert_L. intros z Hz. apply elem_of_union. right. by apply Hsub.
    + intros Hin. by eapply (fresh_not_held H m).
    + eexists. rewrite lookup_insert_eq. split; [reflexivity|]. simpl.
      rewrite length_replicate. refine (conj _ (conj _ _)); [lia|lia|].
      by repeat constructor.
    + by rewrite lookup_insert_eq.
Qed.

Lemma held_frame (H : gset loc) m m' s :
  Mem.held H m s -> (forall l, l ∈ H -> m' !! l = m !! l) ->
  Mem.held H m' s /\ Mem.view m' s = Mem.view m s /\
  (forall i, Mem.index m' s i = Mem.index m s i).
Proof.
  intros Hh Hfr.
  assert (Hv : Mem.valid m s) by (destruct s; [apply Hh|done]).
  destruct (valid_frame m m' s Hv) as (Hv' & Hview & Hidx).
  { intros hd ->. apply Hfr. apply Hh. }
  split; [|done]. destruct s as [hd|]; [|done]. split; [apply Hh|done].
Qed.

Lemma range_append_private growcap f (H : gset loc) src :
  Mem.grows growcap ->
  forall n i m dst,
    H ⊆ dom m -> Mem.held H m src -> Mem.private H m dst ->
    i + n = Mem.length_of src ->
    exists m' dst',
      Mem.range_append growcap f src i n m dst = Some (m', dst') /\
      (forall l, l ∈ H -> m' !! l = m !! l) /\
      H ⊆ dom m' /\
      Mem.private H m' dst' /\
      Mem.view m' dst' = Mem.view m dst ++ map f (drop i (Mem.view m src)).
Proof.
  intros Hg. induction n as [|n IH]; intros i m dst Hsub Hheld Hpriv Hin; simpl.
  - exists m, dst. refine (conj eq_refl (conj _ (conj Hsub (conj Hpriv _)))); [done|].
    assert (Hv : Mem.valid m src) by (destruct src; [apply Hheld|done]).
    rewrite drop_ge by (rewrite (view_length m src Hv); lia).
    by rewrite app_nil_r.
  - assert (Hv : Mem.valid m src) by (destruct src; [apply Hheld|done]).
    destruct (index_view m src i Hv) as (rule & Hidx & Hlook); [lia|].
    rewrite Hidx.
    destruct (append_private growcap H m dst (f rule) Hg Hsub Hpriv)
      as (m1 & dst1 & Happ & Hfr1 & Hsub1 & Hpriv1 & Hview1).
    rewrite Happ.
    destruct (held_frame H m m1 src Hheld Hfr1) as (Hheld1 & Hsrc1 & _).
    destruct (IH (S i) m1 dst1 Hsub1 Hheld1 Hpriv1) as
      (m2 & dst2 & Hrun & Hfr2 & Hsub2 & Hpriv2 & Hview2); [lia|].
    exists m2, dst2. refine (conj Hrun (conj _ (conj Hsub2 (conj Hpriv2 _)))).
    + intros l Hl. by rewrite Hfr2, Hfr1.
    + rewrite Hview2, Hview1, Hsrc1, <- app_assoc. f_equal.
      by rewrite (drop_S _ _ _ Hlook).
Qed.

Lemma literal_held (H : gset loc) m name rs :
  H ⊆ dom m ->
  let made := Mem.literal m name rs in
  let H' := H ∪ {[fresh (dom m)]} in
  H' ⊆ dom (fst made) /\
  (forall l, l ∈ dom m -> fst made !! l = m !! l) /\
  Mem.held H' (fst made) (Mem.Rules (snd made)) /\
  Mem.view (fst made) (Mem.Rules (snd made)) = rs /\
  Mem.Name (snd made) = name /\
  (forall s, Mem.private H m s ->
             Mem.private H' (fst made) s /\ Mem.view (fst made) s = Mem.view m s).
Proof.
  intros Hsub made H'. subst made H'. unfold Mem.literal. simpl.
  assert (Hdom : forall l, l ∈ dom m -> fresh (dom m) <> l).
  { intros l Hl Heq. apply (is_fresh (dom m)). by rewrite Heq. }
  assert (Hold : forall l, l ∈ dom m ->
            <[fresh (dom m) := map Some rs]> m !! l = m !! l).
  { intros l Hl. rewrite lookup_insert_ne; [done|]. by apply Hdom. }
  refine (conj _ (conj Hold (conj (conj _ _) (conj _ (conj eq_refl _))))).
  - rewrite dom_insert_L. intros x Hx. apply elem_of_union.
    apply elem_of_union in Hx as [Hx|Hx]; [right; by apply Hsub|by left].
  - apply elem_of_union. right. by apply elem_of_singleton.
  - eexists. rewrite lookup_insert_eq. split; [reflexivity|].
    rewrite drop_0, length_map, firstn_all2 by (rewrite length_map; lia).
    refine (conj _ (conj _ _)); [simpl; lia|lia|].
    apply Forall_fmap, Forall_forall. intros x _. by eexists.
  - rewrite lookup_insert_eq, drop_0, firstn_all2 by (rewrite length_map; lia).
    apply omap_id_map_Some.
  - intros [hd|] Hp; [|done]. destruct Hp as (HnH & a & Ha & Hrest).
    assert (Hin : Mem.arr hd ∈ dom m) by (apply elem_of_dom; by eexists).
    simpl. rewrite (Hold _ Hin), Ha. split; [|done]. split.
    + intros Hu. apply elem_of_union in Hu as [Hu|Hu]; [done|].
      apply elem_of_singleton in Hu. by apply (Hdom _ Hin).
    + by exists a.
Qed.

Lemma Mem_AddRuleSet_spec growcap (H : gset loc) m c rs :
  Mem.grows growcap -> H ⊆ dom m ->
  Mem.private H m (Mem.rules c) -> Mem.held H m (Mem.Rules rs) ->
  exists m' c',
    Mem.AddRuleSet growcap m c rs = Some (m', c') /\
    (forall l, l ∈ H -> m' !! l = m !! l) /\
    Mem.view m' (Mem.Rules rs) = Mem.view m (Mem.Rules rs) /\
    Mem.view m' (Mem.rules c') =
      Mem.view m (Mem.rules c) ++ map (prefixed (Mem.Name rs)) (Mem.view m (Mem.Rules rs)) /\
    H ⊆ dom m' /\
    Mem.private H m' (Mem.rules c').
Proof.
  intros Hg Hsub Hp Hh. unfold Mem.AddRuleSet.
  destruct (range_append_private growcap (prefixed (Mem.Name rs)) H (Mem.Rules rs) Hg
              (Mem.length_of (Mem.Rules rs)) 0 m (Mem.rules c) Hsub Hh Hp eq_refl)
    as (m' & s' & Hrun & Hfr & Hsub' & Hp' & Hview).
  unfold prefixed in Hrun at 1. rewrite Hrun.
  exists m', {| Mem.rules := s' |}.
  destruct (held_frame H m m' (Mem.Rules rs) Hh Hfr) as (_ & Hsrc & _).
  rewrite drop_0 in Hview. done.
Qed.

Lemma Mem_AddRule_spec growcap (H : gset loc) m c rule :
  Mem.grows growcap -> H ⊆ dom m -> Mem.private H m (Mem.rules c) ->
  exists m' c',
    Mem.AddRule growcap m c rule = Some (m', c') /\
    (forall l, l ∈ H -> m' !! l = m !! l) /\
    Mem.view m' (Mem.rules c') = Mem.view m (Mem.rules c) ++ [rule] /\
    H ⊆ dom m' /\
    Mem.private H m' (Mem.rules c').
Proof.
  intros Hg Hsub Hp. unfold Mem.AddRule.
  destruct (append_private growcap H m (Mem.rules c) rule Hg Hsub Hp)
    as (m' & s' & Happ & Hfr & Hsub' & Hp' & Hview).
  rewrite Happ. by exists m', {| Mem.rules := s' |}.
Qed.

Lemma Mem_AddRules_spec growcap (H : gset loc) m c rs :
  Mem.grows growcap -> H ⊆ dom m ->
  Mem.private H m (Mem.rules c) -> Mem.held H m rs ->
  exists m' c',
    Mem.AddRules growcap m c rs = Some (m', c') /\
    (forall l, l ∈ H -> m' !! l = m !! l) /\
    Mem.view m' (Mem.rules c') = Mem.view m (Mem.rules c) ++ Mem.view m rs /\
    H ⊆ dom m' /\
    Mem.private H m' (Mem.rules c').
Proof.
  intros Hg Hsub Hp Hh. unfold Mem.AddRules.
  destruct (range_append_private growcap (fun rule => rule) H rs Hg
              (Mem.length_of rs) 0 m (Mem.rules c) Hsub Hh Hp eq_refl)
    as (m' & s' & Hrun & Hfr & Hsub' & Hp' & Hview).
  rewrite Hrun. exists m', {| Mem.rules := s' |}.
  rewrite drop_0, map_id in Hview. done.
Qed.

(** Over an array that the checker shares with the rule set the merge does
    rename the caller's rules: the first [append] writes the prefixed copy
    where the first rule is. *)
Lemma AddRuleSet_over_shared_array :
  let m : Mem.Store := {[ 1%positive := map Some (RuleSet.Rules SOC2RuleSet) ]} in
  let rs := {| Mem.Name := "SOC2";
               Mem.Rules := Some {| Mem.arr := 1%positive; Mem.off := 0;
                                    Mem.len := 2; Mem.cap := 2 |} |} in
  let c := {| Mem.rules := Some {| Mem.arr := 1%positive; Mem.off := 0;
                                   Mem.len := 0; Mem.cap := 2 |} |} in
  map ComplianceRule.Name (Mem.view m (Mem.Rules rs)) =
    ["RequiresOwnerTag"; "NoUnclassifiedResources"] /\
  match Mem.AddRuleSet (fun old needed => needed + old) m c rs with
  | Some (m', _) =>
      map ComplianceRule.Name (Mem.view m' (Mem.Rules rs)) =
        ["SOC2/RequiresOwnerTag"; "SOC2/NoUnclassifiedResources"]
  | None => False
  end.
Proof. cbv zeta. split; vm_compute; reflexivity. Qed.

(** C7.  [AddRuleSet] appends to the checker, for each rule of the set, a copy
    named "<SetName>/<RuleName>" with the rule's version, author, description
    and check.  In memory the merge writes to the checker's own array alone,
    or to a new one: every array the caller holds is after the call what it
    was before, so the rules of the merged set still carry their own names.
    That rests on the checker's array being none of the caller's, which holds
    of the empty checker and is kept by each of [AddRule], [AddRules] and
    [AddRuleSet].  In particular, after merging [SOC2RuleSet()] the value that
    was merged, and the value of any further call of the factory, show the
    unprefixed names. *)
Theorem AddRuleSet_copies_and_spares_source :
  (forall (c : ComplianceChecker.t) (rs : RuleSet.t),
      ComplianceChecker.rules (ComplianceChecker.AddRuleSet c rs) =
        ComplianceChecker.rules c ++
        map (fun rule =>
               {| ComplianceRule.Name := RuleSet.Name rs +:+ "/" +:+ ComplianceRule.Name rule;
                  ComplianceRule.Version := ComplianceRule.Version rule;
                  ComplianceRule.Author := ComplianceRule.Author rule;
                  ComplianceRule.Description := ComplianceRule.Description rule;
                  ComplianceRule.Check := ComplianceRule.Check rule |})
            (RuleSet.Rules rs)) /\
  (forall growcap (H : gset loc) m c rs,
      Mem.grows growcap -> H ⊆ dom m ->
      Mem.private H m (Mem.rules c) -> Mem.held H m (Mem.Rules rs) ->
      exists m' c',
        Mem.AddRuleSet growcap m c rs = Some (m', c') /\
        (forall l, l ∈ H -> m' !! l = m !! l) /\
        Mem.view m' (Mem.Rules rs) = Mem.view m (Mem.Rules rs) /\
        Mem.view m' (Mem.rules c') =
          ComplianceChecker.rules
            (ComplianceChecker.AddRuleSet
               {| ComplianceChecker.rules := Mem.view m (Mem.rules c) |}
               {| RuleSet.Name := Mem.Name rs;
                  RuleSet.Rules := Mem.view m (Mem.Rules rs) |}) /\
        H ⊆ dom m' /\
        Mem.private H m' (Mem.rules c')) /\
  (forall growcap (H : gset loc) m c,
      Mem.grows growcap -> H ⊆ dom m ->
      Mem.private H m (Mem.rules c) ->
      let merged := snd (Mem.SOC2RuleSet m) in
      exists m' c',
        Mem.AddRuleSet growcap (fst (Mem.SOC2RuleSet m)) c merged = Some (m', c') /\
        (forall l, l ∈ H -> m' !! l = m !! l) /\
        map ComplianceRule.Name (Mem.view m' (Mem.Rules merged)) =
          ["RequiresOwnerTag"; "NoUnclassifiedResources"] /\
        map ComplianceRule.Name
          (Mem.view (fst (Mem.SOC2RuleSet m')) (Mem.Rules (snd (Mem.SOC2RuleSet m')))) =
          ["RequiresOwnerTag"; "NoUnclassifiedResources"] /\
        map ComplianceRule.Name
          (Mem.view (fst (Mem.SOC2RuleSet m')) (Mem.Rules merged)) =
          ["RequiresOwnerTag"; "NoUnclassifiedResources"] /\
        map ComplianceRule.Name (Mem.view m' (Mem.rules c')) =
          map ComplianceRule.Name (Mem.view m (Mem.rules c)) ++
          ["SOC2/RequiresOwnerTag"; "SOC2/NoUnclassifiedResources"]) /\
  (forall (H : gset loc) m, Mem.private H m (Mem.rules Mem.new)) /\
  (forall growcap (H : gset loc) m c rule,
      Mem.grows growcap -> H ⊆ dom m -> Mem.private H m (Mem.rules c) ->
      exists m' c',
        Mem.AddRule growcap m c rule = Some (m', c') /\
        (forall l, l ∈ H -> m' !! l = m !! l) /\
        H ⊆ dom m' /\ Mem.private H m' (Mem.rules c')) /\
  (forall growcap (H : gset loc) m c rs,
      Mem.grows growcap -> H ⊆ dom m ->
      Mem.private H m (Mem.rules c) -> Mem.held H m rs ->
      exists m' c',
        Mem.AddRules growcap m c rs = Some (m', c') /\
        (forall l, l ∈ H -> m' !! l = m !! l) /\
        H ⊆ dom m' /\ Mem.private H m' (Mem.rules c')).
Proof.
  refine (conj _ (conj _ (conj _ (conj _ (conj _ _))))).
  - intros c rs. apply AddRuleSet_rules.
  - intros growcap H m c rs Hg Hsub Hp Hh.
    destruct (Mem_AddRuleSet_spec growcap H m c rs Hg Hsub Hp Hh)
      as (m' & c' & Hrun & Hfr & Hsrc & Hview & Hsub' & Hp').
    exists m', c'. rewrite AddRuleSet_rules. simpl. done.
  - intros growcap H m c Hg Hsub Hp merged.
    destruct (literal_held H m (RuleSet.Name SOC2RuleSet) (RuleSet.Rules SOC2RuleSet) Hsub)
      as (Hsub1 & Hold1 & Hheld1 & Hview1 & Hname1 & Hpriv1).
    fold (Mem.SOC2RuleSet m) in Hsub1, Hold1, Hheld1, Hview1, Hname1, Hpriv1.
    destruct (Hpriv1 _ Hp) as (Hp1 & Hcview1).
    destruct (Mem_AddRuleSet_spec growcap _ _ c merged Hg Hsub1 Hp1 Hheld1)
      as (m' & c' & Hrun & Hfr & Hsrc & Hview & Hsub' & Hp').
    exists m', c'.
    assert (Hsub2 : H ∪ {[fresh (dom m)]} ⊆ dom m') by exact Hsub'.
    destruct (literal_held _ m' (RuleSet.Name SOC2RuleSet) (RuleSet.Rules SOC2RuleSet) Hsub2)
      as (_ & Hold2 & _ & Hview2 & _ & _).
    fold (Mem.SOC2RuleSet m') in Hold2, Hview2.
    refine (conj Hrun (conj _ (conj _ (conj _ (conj _ _))))).
    + intros l Hl. rewrite Hfr by (apply elem_of_union; by left).
      apply Hold1. by apply Hsub.
    + subst merged. by rewrite Hsrc, Hview1.
    + by rewrite Hview2.
    + assert (Hsame : Mem.view (fst (Mem.SOC2RuleSet m')) (Mem.Rules merged) =
                      Mem.view m' (Mem.Rules merged)).
      { destruct (held_frame _ _ m' _ Hheld1 Hfr) as (Hheld' & _).
        refine (proj1 (proj2 (held_frame _ _ _ _ Hheld' _))).
        intros l Hl. apply Hold2. by apply Hsub2. }
      subst merged. by rewrite Hsame, Hsrc, Hview1.
    + rewrite Hview, Hcview1, map_app. f_equal. subst merged. by rewrite Hview1, Hname1.
  - intros H m. exact I.
  - intros growcap H m c rule Hg Hsub Hp.
    destruct (Mem_AddRule_spec growcap H m c rule Hg Hsub Hp)
      as (m' & c' & Hrun & Hfr & _ & Hsub' & Hp').
    by exists m', c'.
  - intros growcap H m c rs Hg Hsub Hp Hh.
    destruct (Mem_AddRules_spec growcap H m c rs Hg Hsub Hp Hh)
      as (m' & c' & Hrun & Hfr & _ & Hsub' & Hp').
    by exists m', c'.
Qed.

Lemma AddRuleSet_copies_and_spares_source_witness :
  exists m' c',
    Mem.AddRuleSet (fun old needed => needed + old)
      (fst (Mem.SOC2RuleSet ∅)) Mem.new (snd (Mem.SOC2RuleSet ∅)) = Some (m', c') /\
    map ComplianceRule.Name (Mem.view m' (Mem.Rules (snd (Mem.SOC2RuleSet ∅)))) =
      ["RequiresOwnerTag"; "NoUnclassifiedResources"] /\
    map ComplianceRule.Name (Mem.view m' (Mem.rules c')) =
      ["SOC2/RequiresOwnerTag"; "SOC2/NoUnclassifiedResources"].
Proof.
  destruct AddRuleSet_copies_and_spares_source as (_ & _ & H & _).
  destruct (H (fun old needed => needed + old) ∅ ∅ Mem.new) as
    (m' & c' & Hrun & _ & Hsrc & _ & _ & Hc).
  - intros old needed. lia.
  - apply empty_subseteq.
  - exact I.
  - exists m', c'. split; [exact Hrun|]. split; [exact Hsrc|exact Hc].
Defined.

(** ** The documents written *)

Lemma valid_appendString (s : string) :
  utf8.ValidString s = true -> encoder.appendString s = s.
Proof.
  remember (String.length s) as n eqn:Hn. revert s Hn.
  induction n as [n IH] using lt_wf_ind. intros s Hn Hv.
  destruct s as [|b0 r0]; [done|].
  cbn [utf8.ValidString encoder.appendString] in *.
  destruct (utf8.rune_size (String b0 r0)) as [[|[|[|[|[|k]]]]]|]; try discriminate.
  - f_equal. apply (IH (String.length r0)); [simpl in Hn; lia|done|done].
  - destruct r0 as [|b1 r1]; [discriminate|].
    do 2 f_equal. apply (IH (String.length r1)); [simpl in Hn; lia|done|done].
  - destruct r0 as [|b1 [|b2 r2]]; try discriminate.
    do 3 f_equal. apply (IH (String.length r2)); [simpl in Hn; lia|done|done].
  - destruct r0 as [|b1 [|b2 [|b3 r3]]]; try discriminate.
    do 4 f_equal. apply (IH (String.length r3)); [simpl in Hn; lia|done|done].
Qed.






(** X21.  Written straight from an evaluation, a compliance report has
    under [resource_id] the resource's identifier as the encoder writes it
    (the identifier itself when it is valid UTF-8, else with U+FFFD for each
    offending byte), [compliant] true exactly when every registered rule's
    check passes, and in [violations] one string per failing rule, in
    registration order. *)
Theorem ComplianceReport_document_of_Evaluate
    (h : Heap) (c : ComplianceChecker.t) (resource : Resource.t) :
  let written :=
    encoder.document
      (json.ComplianceReport_MarshalJSON (ComplianceChecker.Evaluate h c resource)) in
  written =
    JObject
      [ ("resource_id", JString (encoder.appendString (Resource.ID resource)));
        ("compliant",
         JBool (forallb (fun rule => ComplianceRule.Check rule h resource)
                  (ComplianceChecker.rules c)));
        ("violations",
         JArray (map (fun rule =>
                        JString (encoder.appendString
                                   ("[" +:+ ComplianceRule.Name rule +:+ "] "
                                      +:+ ComplianceRule.Description rule)))
                   (List.filter (fun rule => negb (ComplianceRule.Check rule h resource))
                      (ComplianceChecker.rules c)))) ] /\
  (utf8.ValidString (Resource.ID resource) = true ->
   json.member "resource_id" written = Some (JString (Resource.ID resource))).
Proof.
  intros written.
  assert (Hw : written =
    JObject
      [ ("resource_id", JString (encoder.appendString (Resource.ID resource)));
        ("compliant",
         JBool (forallb (fun rule => ComplianceRule.Check rule h resource)
                  (ComplianceChecker.rules c)));
        ("violations",
         JArray (map (fun rule =>
                        JString (encoder.appendString
                                   ("[" +:+ ComplianceRule.Name rule +:+ "] "
                                      +:+ ComplianceRule.Description rule)))
                   (List.filter (fun rule => negb (ComplianceRule.Check rule h resource))
                      (ComplianceChecker.rules c)))) ]).
  { subst written. rewrite Evaluate_report. unfold json.ComplianceReport_MarshalJSON.
    rewrite Compliant_is_empty.
    cbn [ComplianceReport.Violations ComplianceReport.ResourceID elems is_nil
         json.Marshal_slice encoder.document map fst snd].
    rewrite is_empty_filter_fails, <- !list_fmap_compose. reflexivity. }
  split; [exact Hw|].
  intros Hv. rewrite Hw. cbn. by rewrite (valid_appendString _ Hv).
Qed.

Lemma ComplianceReport_document_of_Evaluate_witness :
  utf8.ValidString (Resource.ID patientRecords) = true /\
  json.member "resource_id"
    (encoder.document
       (json.ComplianceReport_MarshalJSON
          (ComplianceChecker.Evaluate ownedHeap DefaultComplianceChecker patientRecords))) =
    Some (JString "db-patient-records").
Proof.
  split; [vm_compute; reflexivity|].
  destruct (ComplianceReport_document_of_Evaluate ownedHeap DefaultComplianceChecker
              patientRecords) as (_ & H).
  apply H. vm_compute. reflexivity.
Defined.
